(** * CDC Bench Tools and CDC Site Tools: embedding and properties

    A shallow embedding of the calculation cores of
    [builtin-scripts/cdc-bench-tools.py] (site levels and site checks) and
    [builtin-scripts/cdc-Site-Tools.py] (boundary traversal, closing edge and
    setback / road offsets), followed by the preset handlers of the site
    tools and the field extraction, preview and import loop of
    [builtin-scripts/XMLProjectInfoImporter.py].

    Numbers.  The scripts compute with Python floats.  The bench tools only
    use [+ - / round max min abs] and comparisons, so they are embedded over
    the rationals [Q], where every definition evaluates; Python's
    [round(x, 3)] is rounding to the nearest multiple of 1/1000, ties to the
    even neighbour.  The site tools use [math.sin], [math.cos],
    [math.radians] and [math.hypot]; they are embedded over the reals [R].
    Both are the exact-arithmetic reading of the float code: binary
    representation error, overflow, infinities and NaN are outside the model.

    Effects.  The Tk text panes and the Archicad command channel are written
    out as explicit event lists; the attribute [_main_results] is explicit
    state. *)

From Stdlib Require Import ZArith QArith Qround Qabs Qminmax Qreals Reals Psatz.
From Stdlib Require Import List String Ascii Bool DecimalString Permutation Sorted.
Import ListNotations.

(* ================================================================== *)
(** * Strings: the few [str] / [re] operations the scripts use         *)
(* ================================================================== *)

Module PyStr.

Local Open Scope string_scope.

(** The newline character of ["...\n"]. *)
Definition nl : string := String (ascii_of_nat 10) EmptyString.

Definition is_space_char (c : ascii) : bool := Ascii.eqb c " "%char.

(** [s.replace(' ', '')] *)
Fixpoint remove_spaces (s : string) : string :=
  match s with
  | EmptyString => EmptyString
  | String c s' =>
      if is_space_char c then remove_spaces s' else String c (remove_spaces s')
  end.

(** [re.split(r'[+,]', s)]: one piece more than there are separators. *)
Fixpoint re_split (sep : ascii -> bool) (s : string) : list string :=
  match s with
  | EmptyString => [EmptyString]
  | String c s' =>
      if sep c then EmptyString :: re_split sep s'
      else match re_split sep s' with
           | [] => [String c EmptyString]
           | p :: ps => String c p :: ps
           end
  end.

Definition plus_or_comma (c : ascii) : bool :=
  Ascii.eqb c "+"%char || Ascii.eqb c ","%char.

(** Truth value of a string: [if v]. *)
Definition nonempty (s : string) : bool :=
  match s with EmptyString => false | String _ _ => true end.

(** [sub in s] *)
Fixpoint contains (sub s : string) : bool :=
  String.prefix sub s ||
  match s with
  | EmptyString => false
  | String _ s' => contains sub s'
  end.

(** Whitespace for [str.split()] and [str.strip()], on code points below 256. *)
Definition is_whitespace (c : ascii) : bool :=
  let n := nat_of_ascii c in
  (((9 <=? n) && (n <=? 13)) || ((28 <=? n) && (n <=? 32))
   || (n =? 133) || (n =? 160))%nat.

(** [s.split()]: maximal runs of non-whitespace characters.  [cur] holds
    the characters of the run being read, last one first. *)
Fixpoint rev_string (acc s : string) : string :=
  match s with
  | EmptyString => acc
  | String c s' => rev_string (String c acc) s'
  end.

Fixpoint split_ws_aux (cur : string) (s : string) : list string :=
  match s with
  | EmptyString =>
      if nonempty cur then [rev_string EmptyString cur] else []
  | String c s' =>
      if is_whitespace c then
        (if nonempty cur then [rev_string EmptyString cur] else [])
          ++ split_ws_aux EmptyString s'
      else split_ws_aux (String c cur) s'
  end.

Definition split_ws (s : string) : list string := split_ws_aux EmptyString s.

(** [s.strip()] *)
Fixpoint lstrip (s : string) : string :=
  match s with
  | EmptyString => EmptyString
  | String c s' => if is_whitespace c then lstrip s' else s
  end.

Definition strip (s : string) : string :=
  rev_string EmptyString (lstrip (rev_string EmptyString (lstrip s))).

(** [s.lower()] on ASCII letters. *)
Definition lower_char (c : ascii) : ascii :=
  let n := nat_of_ascii c in
  if ((65 <=? n) && (n <=? 90))%nat then ascii_of_nat (n + 32) else c.

Fixpoint lower (s : string) : string :=
  match s with
  | EmptyString => EmptyString
  | String c s' => String (lower_char c) (lower s')
  end.

(** A decimal reader: optional [-], digits, at most one [.], at least one
    digit.  It is one admissible behaviour of [float(s)] on plain decimal
    literals and serves as the concrete reader in the worked examples. *)
Definition digit_of (c : ascii) : option Z :=
  let n := nat_of_ascii c in
  if ((48 <=? n) && (n <=? 57))%nat then Some (Z.of_nat (n - 48)) else None.

Fixpoint read_digits (s : string) (num : Z) (den : positive) (frac seen : bool)
  : option Q :=
  match s with
  | EmptyString => if seen then Some (Qred (num # den)) else None
  | String c s' =>
      if Ascii.eqb c "."%char then
        if frac then None else read_digits s' num den true seen
      else
        match digit_of c with
        | None => None
        | Some d =>
            read_digits s' (num * 10 + d)%Z
              (if frac then (den * 10)%positive else den) frac true
        end
  end.

Definition parse_decimal (s : string) : option Q :=
  match s with
  | String c s' =>
      if Ascii.eqb c "-"%char
      then option_map Qopp (read_digits s' 0%Z 1%positive false false)
      else read_digits s 0%Z 1%positive false false
  | EmptyString => None
  end.

End PyStr.

(* ================================================================== *)
(** * cdc-bench-tools.py                                               *)
(* ================================================================== *)

Module BenchTools.

Import PyStr.
Local Open Scope Q_scope.

(** ** Python numeric builtins over [Q] *)

(** Nearest integer, ties to even. *)
Definition round_half_even (q : Q) : Z :=
  let f := Qfloor q in
  match Qcompare (q - inject_Z f) (1 # 2) with
  | Lt => f
  | Gt => (f + 1)%Z
  | Eq => if Z.even f then f else (f + 1)%Z
  end.

(** [round(q, 3)] *)
Definition round3 (q : Q) : Q :=
  Qred (inject_Z (round_half_even (q * 1000)) / 1000).

(** [abs(q)] *)
Definition py_abs (q : Q) : Q := Qabs q.

(** [a > b], [a >= b], [a <= b] on numbers. *)
Definition gt (a b : Q) : bool := negb (Qle_bool a b).
Definition ge (a b : Q) : bool := Qle_bool b a.
Definition le (a b : Q) : bool := Qle_bool a b.

(** [sum(l)]: left to right from [0]. *)
Definition py_sum (l : list Q) : Q := fold_left Qplus l 0.

(** [max(x :: l)] and [min(x :: l)]: the first extremal element. *)
Definition py_max (x : Q) (l : list Q) : Q :=
  fold_left (fun m y => if gt y m then y else m) l x.

Definition py_min (x : Q) (l : list Q) : Q :=
  fold_left (fun m y => if gt m y then y else m) l x.

(** [max(0, q)] *)
Definition max0 (q : Q) : Q := if gt q 0 then q else 0.

(** [len(l)] as a number. *)
Definition len (l : list Q) : Q := inject_Z (Z.of_nat (List.length l)).

(** [l.sort()]: stable, ascending. *)
Fixpoint insert_sorted (x : Q) (l : list Q) : list Q :=
  match l with
  | [] => [x]
  | y :: l' => if le x y then x :: l else y :: insert_sorted x l'
  end.

Definition sort (l : list Q) : list Q := fold_right insert_sorted [] l.

(** [int(q)]: truncation towards zero. *)
Definition py_int (q : Q) : Z := Z.quot (Qnum q) (Zpos (Qden q)).

Definition str_of_Z (z : Z) : string := NilZero.string_of_int (Z.to_int z).

(** ** Constants *)

Definition SLAB_THICKNESS_OPTIONS : list (string * Q) :=
  [ ("S8/WM8"%string, 310 # 1000);
    ("S9/WM9"%string, 325 # 1000);
    ("WH18"%string, 385 # 1000);
    ("WH19"%string, 400 # 1000);
    ("WH2-8/9"%string, 400 # 1000);
    ("E"%string, 475 # 1000);
    ("460mm"%string, 460 # 1000) ].

(** [f"{name} ({int(thick*1000)}mm)"], the entries of the slab dropdown. *)
Definition slab_option (o : string * Q) : string :=
  (fst o ++ " (" ++ str_of_Z (py_int (snd o * 1000)) ++ "mm)")%string.

Definition slab_options : list string := map slab_option SLAB_THICKNESS_OPTIONS.

(** ** State and outputs *)

(** The dictionary stored in [self._main_results]. *)
Record MainResults : Type := mkMainResults {
  mr_bench_rl : Q;
  mr_ffl_rl : Q;
  mr_cut_max : Q;
  mr_fill_max : Q
}.

(** [None] stands both for the attribute not being set yet and for its
    being [None]: [calculate_site_checks] treats the two alike. *)
Record App : Type := mkApp { _main_results : option MainResults }.

Definition initial_app : App := mkApp None.

(** Everything [calculate_results] computes and prints on success. *)
Record SiteLevels : Type := mkSiteLevels {
  rls : list Q;
  bench_rl : Q;
  highest_rl : Q;
  lowest_rl : Q;
  cut_max : Q;
  fill_max : Q;
  slab_label : string;
  slab_thickness : Q;
  ffl_rl : Q;
  min_ffl_rl : Q;
  fill_to_min_ffl : Q;
  ext_tile_rl : Q;
  ext_deck_rl : Q;
  service_pad_rl : Q
}.

(** What ends up in the results pane. *)
Inductive ResultsText : Type :=
| ErrorParsingRLs                 (* "Error parsing RLs: {e}\n" *)
| NoRLsProvided                   (* "No RLs provided.\n" *)
| LevelsReport (r : SiteLevels).  (* the four formatted blocks *)

Section WithFloat.

(** [float(v)]: [None] when it raises. *)
Variable py_float : string -> option Q.

(** [[round(float(v), 3) for v in rl_values if v]] inside the [try]. *)
Fixpoint parse_rounded (rl_values : list string) : option (list Q) :=
  match rl_values with
  | [] => Some []
  | v :: rest =>
      if nonempty v then
        match py_float v with
        | None => None
        | Some x =>
            match parse_rounded rest with
            | None => None
            | Some xs => Some (round3 x :: xs)
            end
        end
      else parse_rounded rest
  end.

(** The [for ... else] over [SLAB_THICKNESS_OPTIONS]. *)
Fixpoint find_slab (options : list (string * Q)) (slab_label_full : string)
  : string * Q :=
  match options with
  | [] => (slab_label_full, 0)
  | (name, thick) :: rest =>
      if contains name slab_label_full then (name, thick)
      else find_slab rest slab_label_full
  end.

(** Lines 120-177 of [calculate_results]: everything after the parse. *)
Definition compute_levels
    (rls : list Q) (slab_var : string) (min_ffl_var : Q) : ResultsText * App :=
  match rls with
  | [] => (NoRLsProvided, mkApp None)
  | r0 :: rest =>
      match sort (r0 :: rest) with
      | [] => (NoRLsProvided, mkApp None)
      | s0 :: srest =>
          let rls := s0 :: srest in
          let bench_rl := round3 (py_sum rls / len rls) in
          let highest_rl := py_max s0 srest in
          let lowest_rl := py_min s0 srest in
          let cut_max := round3 (highest_rl - bench_rl) in
          let fill_max := round3 (lowest_rl - bench_rl) in
          let '(slab_label, slab_thickness) :=
            find_slab SLAB_THICKNESS_OPTIONS slab_var in
          let ffl_rl := round3 (bench_rl + slab_thickness) in
          let min_ffl_rl := round3 min_ffl_var in
          let fill_to_min_ffl := round3 (max0 (min_ffl_rl - ffl_rl)) in
          let ext_tile_rl := round3 (bench_rl - (7 # 100)) in
          let ext_deck_rl := round3 (bench_rl - (9 # 100)) in
          let service_pad_rl := round3 (ffl_rl - (12 # 100)) in
          (LevelsReport
             (mkSiteLevels rls bench_rl highest_rl lowest_rl cut_max fill_max
                slab_label slab_thickness ffl_rl min_ffl_rl fill_to_min_ffl
                ext_tile_rl ext_deck_rl service_pad_rl),
           mkApp (Some (mkMainResults bench_rl ffl_rl cut_max fill_max)))
      end
  end.

(** [CDCBenchToolsApp.calculate_results].  The stored results of an earlier
    run are overwritten on every path, so the old state is not read. *)
Definition calculate_results
    (rl_var slab_var : string) (min_ffl_var : Q) (app : App)
  : ResultsText * App :=
  let rl_input := remove_spaces rl_var in
  let rl_values := re_split plus_or_comma rl_input in
  match parse_rounded rl_values with
  | None => (ErrorParsingRLs, mkApp None)
  | Some rls => compute_levels rls slab_var min_ffl_var
  end.

End WithFloat.

(** ** Site checks *)

Local Open Scope string_scope.

Definition msg_stormwater : string :=
  "- Both road high and low RLs are higher than FFL RL. Special stormwater requirements may be required (e.g., Strip Wastes, Charged Lines, Rubble Pits, Sump Pits)." ++ nl.

Definition msg_driveway : string :=
  "- Driveway is within ±600mm of FFL RL. A driveway profile needs to be provided." ++ nl.

Definition msg_fence_high : string :=
  "- Higher neighbour bench height is 0-400mm different. Recommend retaining under fence by owner after handover.".

Definition msg_fence_low : string :=
  "- Lower neighbour bench height is 0-400mm different. Recommend retaining under fence by owner after handover.".

Definition msg_zero_boundary : string :=
  " Dwelling is on zero boundary: additional garage treatments required (piering, drop edge beams, concrete retaining, drainage).".

Definition msg_cma_high : string :=
  "- Higher neighbour bench height is >400mm different. Recommend concrete retaining by CMA during build.".

Definition msg_cma_low : string :=
  "- Lower neighbour bench height is >400mm different. Recommend concrete retaining by CMA during build.".

Definition msg_tight_site : string :=
  " On a tight site, CMA is required to do concrete retaining.".

Definition msg_blockup_high : string :=
  " Where garage is on zero high side, block-up will be required.".

Definition msg_blockup_low : string :=
  " Where garage is on zero low side, block-up will be required.".

Definition msg_please_calculate : string :=
  "Please calculate main results first." ++ nl.

Definition msg_header : string :=
  "==== SITE CHECKS & RECOMMENDATIONS ====" ++ nl.

Definition msg_no_requirements : string :=
  "No special site requirements detected." ++ nl.

(** The two [if] blocks for one neighbour side, appending to [warnings]. *)
Definition neighbour_checks
    (msg_fence msg_cma msg_blockup : string)
    (neigh_diff : Q) (zero : bool) (warnings : list string) : list string :=
  let warnings :=
    if gt neigh_diff 0 && le neigh_diff (4 # 10) then
      let msg := msg_fence in
      let msg := if zero then msg ++ msg_zero_boundary else msg in
      (warnings ++ [(msg ++ nl)%string])%list
    else warnings in
  if gt neigh_diff (4 # 10) then
    let msg := msg_cma in
    let msg :=
      if gt neigh_diff (6 # 10) then
        let msg := msg ++ msg_tight_site in
        if zero then msg ++ msg_blockup else msg
      else msg in
    (warnings ++ [(msg ++ nl)%string])%list
  else warnings.

(** The list [warnings] built by [calculate_site_checks]. *)
Definition site_warnings
    (bench_rl ffl_rl : Q)
    (road_high_var road_low_var neigh1_var neigh2_var : Q)
    (zero1 zero2 : bool) : list string :=
  let road_high := round3 road_high_var in
  let road_low := round3 road_low_var in
  let neigh1 := round3 neigh1_var in
  let neigh2 := round3 neigh2_var in
  let '(neigh_high, neigh_low, zero_high, zero_low) :=
    if ge neigh1 neigh2 then (neigh1, neigh2, zero1, zero2)
    else (neigh2, neigh1, zero2, zero1) in
  let neigh_diff_high := py_abs (neigh_high - bench_rl)%Q in
  let neigh_diff_low := py_abs (neigh_low - bench_rl)%Q in
  let warnings := [] in
  let warnings :=
    if gt road_high ffl_rl && gt road_low ffl_rl
    then (warnings ++ [msg_stormwater])%list else warnings in
  let warnings :=
    if le (py_abs (road_high - ffl_rl)%Q) (6 # 10)
       || le (py_abs (road_low - ffl_rl)%Q) (6 # 10)
    then (warnings ++ [msg_driveway])%list else warnings in
  let warnings :=
    neighbour_checks msg_fence_high msg_cma_high msg_blockup_high
      neigh_diff_high zero_high warnings in
  neighbour_checks msg_fence_low msg_cma_low msg_blockup_low
    neigh_diff_low zero_low warnings.

(** [CDCBenchToolsApp.calculate_site_checks]: the chunks inserted into the
    (freshly cleared) checks pane, in order. *)
Definition calculate_site_checks
    (app : App)
    (road_high_var road_low_var neigh1_var neigh2_var : Q)
    (zero1 zero2 : bool) : list string :=
  match _main_results app with
  | None => [msg_please_calculate]
  | Some res =>
      let warnings :=
        site_warnings (mr_bench_rl res) (mr_ffl_rl res)
          road_high_var road_low_var neigh1_var neigh2_var zero1 zero2 in
      match warnings with
      | [] => [msg_no_requirements]
      | _ :: _ => msg_header :: warnings
      end
  end.

End BenchTools.

(* ================================================================== *)
(** * cdc-Site-Tools.py                                                *)
(* ================================================================== *)

Module SiteTools.

Import PyStr.
Local Open Scope R_scope.

(** ** Python numeric builtins over [R] *)

(** [math.radians(t)] *)
Definition radians (t : R) : R := t * PI / 180.

(** [math.hypot(dx, dy)] *)
Definition hypot (dx dy : R) : R := sqrt (dx * dx + dy * dy).

(** [x % m]: the remainder that takes the sign of [m]. *)
Definition py_mod (x m : R) : R := x - m * IZR (Int_part (x / m)).

(** [a / b]: [None] stands for [ZeroDivisionError]. *)
Definition py_div (a b : R) : option R :=
  if Req_dec_T b 0 then None else Some (a / b).

Definition Point : Type := (R * R)%type.

(** ** Inputs *)

(** What [row['distance'].get()] can do: yield a float, yield something that
    is not a float, or raise. *)
Inductive TkDouble : Type :=
| TkFloat (d : R)
| TkNotFloat
| TkRaises.

(** One entry of [self.boundary_rows]. *)
Record BoundaryRow : Type := mkRow {
  row_type : string;
  row_distance : TkDouble;
  row_bearing : string;
  row_flip : bool
}.

(** [self.setback_vars]: the dictionary from key to setback value. *)
Definition SetbackVars : Type := list (string * R).

(** The seven keys installed by [setup_boundary_tool_tab]. *)
Definition setback_vars_of
    (front side rear secondary front_min front_hab garage : R) : SetbackVars :=
  [ ("front"%string, front); ("side"%string, side); ("rear"%string, rear);
    ("secondary"%string, secondary); ("front_min"%string, front_min);
    ("front_hab"%string, front_hab); ("garage"%string, garage) ].

Fixpoint lookup (key : string) (sv : SetbackVars) : option R :=
  match sv with
  | [] => None
  | (k, v) :: rest => if String.eqb key k then Some v else lookup key rest
  end.

(** ** Segments and events *)

(** The dictionary appended to [segments]. *)
Record Segment : Type := mkSegment {
  seg_type : string;
  seg_start : Point;
  seg_end : Point;
  seg_idx : nat;
  seg_distance : R;
  seg_bearing : R
}.

(** Lines inserted into the results pane and commands sent to Archicad, in
    the order they happen.  Row and segment numbers are the printed ones
    ([idx + 1]). *)
Inductive Event : Type :=
| LogDistanceNotNumber (row : nat)
| LogBearingPartsNotNumbers (row : nat) (bearing : string)
| LogBearingNotNumber (row : nat) (bearing : string)
| LogInvalidBearingFormat (row : nat) (bearing : string)
| LogUnexpectedError (row : nat)
| LogNotEnoughSegments
| LogSkipZeroLengthSegment (n : nat)
| LogSendingBoundary (a b : Point)
| LogBoundaryCreated (n : nat)
| LogSendingClosing (a b : Point)
| LogClosingCreated
| LogSkipZeroLengthSetback (n : nat) (label : option string)
| LogSendingSetback (label : option string) (a b : Point)
| LogSetbackCreated (label : string)
| LogSendingRoad (a b : Point)
| LogRoadCreated (kind : string)
| LogTextLabelNotCreated
| LogArchicadError
| CreatePolylines (a b : Point).

(** ** Bearing parser and traversal *)

Inductive Parsed : Type :=
| Azimuth (theta : R)
| ParseFailure (e : Event).

Inductive RowOutcome : Type :=
| RowSkipped (log : list Event)
| RowSegment (seg : Segment) (cursor : Point).

Section WithFloat.

(** [float(s)]: [None] when it raises. *)
Variable py_float : string -> option R.

(** Lines 542-558: the bearing text to degrees. *)
Definition parse_bearing (idx : nat) (bearing : string) : Parsed :=
  let parts := split_ws bearing in
  match parts with
  | [p1; p2; p3] =>
      match py_float p1, py_float p2, py_float p3 with
      | Some deg, Some mins, Some secs =>
          Azimuth (deg + mins / 60 + secs / 3600)
      | _, _, _ => ParseFailure (LogBearingPartsNotNumbers (S idx) bearing)
      end
  | [p1] =>
      match py_float p1 with
      | Some theta => Azimuth theta
      | None => ParseFailure (LogBearingNotNumber (S idx) bearing)
      end
  | _ => ParseFailure (LogInvalidBearingFormat (S idx) bearing)
  end.

(** The body of the [for idx, row] loop at cursor [(x, y)]. *)
Definition process_row (chain_var : bool) (idx : nat) (row : BoundaryRow)
    (cursor : Point) : RowOutcome :=
  let '(x, y) := cursor in
  let bearing := strip (row_bearing row) in
  match row_distance row with
  | TkRaises => RowSkipped [LogUnexpectedError (S idx)]
  | TkNotFloat => RowSkipped [LogDistanceNotNumber (S idx)]
  | TkFloat distance =>
      let btype := lower (row_type row) in
      let flip := row_flip row in
      if Rle_dec distance 0 then RowSkipped []
      else
        let distance :=
          if chain_var then distance * (201168 / 10000) else distance in
        if negb (nonempty bearing) then RowSkipped []
        else
          match parse_bearing idx bearing with
          | ParseFailure e => RowSkipped [e]
          | Azimuth theta =>
              let theta := if flip then py_mod (theta + 180) 360 else theta in
              let theta_rad := radians theta in
              let dx := distance * sin theta_rad in
              let dy := distance * cos theta_rad in
              let x2 := x + dx in
              let y2 := y + dy in
              RowSegment (mkSegment btype (x, y) (x2, y2) idx distance theta)
                         (x2, y2)
          end
  end.

(** The whole [for idx, row in enumerate(self.boundary_rows)] loop. *)
Fixpoint collect_segments (chain_var : bool) (idx : nat)
    (rows : list BoundaryRow) (cursor : Point) : list Segment * list Event :=
  match rows with
  | [] => ([], [])
  | row :: rest =>
      match process_row chain_var idx row cursor with
      | RowSkipped log =>
          let '(segments, logs) := collect_segments chain_var (S idx) rest cursor in
          (segments, log ++ logs)
      | RowSegment seg cursor' =>
          let '(segments, logs) := collect_segments chain_var (S idx) rest cursor' in
          (seg :: segments, logs)
      end
  end.

End WithFloat.

(** ** Boundary polylines and the closing polyline *)

Definition same_point (a b : Point) : bool :=
  if Req_dec_T (fst a) (fst b)
  then (if Req_dec_T (snd a) (snd b) then true else false)
  else false.

(** Lines 576-593. *)
Fixpoint draw_segments (segments : list Segment) : list Event :=
  match segments with
  | [] => []
  | seg :: rest =>
      let start := seg_start seg in
      let end_ := seg_end seg in
      (if same_point start end_
       then [LogSkipZeroLengthSegment (S (seg_idx seg))]
       else [LogSendingBoundary start end_; CreatePolylines start end_;
             LogBoundaryCreated (S (seg_idx seg))])
        ++ draw_segments rest
  end.

Definition tol : R := 1 / 1000000.

(** [segments[-1]] with a default for the empty list. *)
Definition last_segment (first : Segment) (rest : list Segment) : Segment :=
  last rest first.

(** Lines 595-610. *)
Definition draw_closing (segments : list Segment) : list Event :=
  match segments with
  | first :: second :: others =>
      let first_start := seg_start first in
      let last_end := seg_end (last_segment first (second :: others)) in
      if Rgt_dec (Rabs (fst first_start - fst last_end)) tol then
        [LogSendingClosing last_end first_start;
         CreatePolylines last_end first_start; LogClosingCreated]
      else if Rgt_dec (Rabs (snd first_start - snd last_end)) tol then
        [LogSendingClosing last_end first_start;
         CreatePolylines last_end first_start; LogClosingCreated]
      else []
  | _ => []
  end.

(** ** Setback and road offsets *)

(** Code that logs and may raise: the events so far, and [None] once an
    exception is on its way to the enclosing [except]. *)
Definition Run (A : Type) : Type := (list Event * option A)%type.

Definition ret {A : Type} (a : A) : Run A := ([], Some a).

Definition emit (es : list Event) : Run unit := (es, Some tt).

Definition bind {A B : Type} (m : Run A) (k : A -> Run B) : Run B :=
  match m with
  | (log, None) => (log, None)
  | (log, Some a) => let '(log', b) := k a in (log ++ log', b)
  end.

Definition of_option {A : Type} (o : option A) : Run A := ([], o).

Notation "x <- m ;; k" := (bind m (fun x => k))
  (at level 61, m at next level, right associativity).
Notation "m ;;; k" := (bind m (fun _ => k))
  (at level 61, right associativity).

Definition road_offset : R := 425 / 100.

(** The segment moved along its left normal: [nx = -dy / length],
    [ny = dx / length], then both end points shifted by [offset]. *)
Definition offset_line (start end_ : Point) (dx dy length offset : R)
  : Run (Point * Point) :=
  nx <- of_option (py_div (- dy) length) ;;
  ny <- of_option (py_div dx length) ;;
  ret ((fst start + offset * nx, snd start + offset * ny),
       (fst end_ + offset * nx, snd end_ + offset * ny)).

(** The inner [for fkey, label in zip(...)] loop of the frontage branch. *)
Fixpoint front_setbacks (sv : SetbackVars) (seg : Segment)
    (keys : list (string * string)) : Run unit :=
  match keys with
  | [] => ret tt
  | (fkey, label) :: rest =>
      let start := seg_start seg in
      let end_ := seg_end seg in
      v <- of_option (lookup fkey sv) ;;
      let offset := - Rabs v in
      let dx := fst end_ - fst start in
      let dy := snd end_ - snd start in
      let length := hypot dx dy in
      if Req_dec_T length 0 then
        emit [LogSkipZeroLengthSetback (S (seg_idx seg)) (Some label)] ;;;
        front_setbacks sv seg rest
      else
        l <- offset_line start end_ dx dy length offset ;;
        emit [LogSendingSetback (Some label) (fst l) (snd l);
              CreatePolylines (fst l) (snd l);
              LogSetbackCreated label] ;;;
        front_setbacks sv seg rest
  end.

Definition front_keys : list (string * string) :=
  [ ("front_min"%string, "Front Min"%string);
    ("front_hab"%string, "Front Habitable"%string);
    ("garage"%string, "Garage"%string) ].

(** [-abs(self.setback_vars[key].get()) if key in self.setback_vars else 0.0] *)
Definition setback_or_zero (sv : SetbackVars) (key : string) : R :=
  match lookup key sv with
  | Some v => - Rabs v
  | None => 0
  end.

(** [key.title()]: a letter after a non-letter is put in upper case, any
    other letter in lower case (ASCII letters). *)
Fixpoint title_aux (after_letter : bool) (s : string) : string :=
  match s with
  | EmptyString => EmptyString
  | String c s' =>
      let n := nat_of_ascii c in
      let is_lower := ((97 <=? n) && (n <=? 122))%nat in
      let is_upper := ((65 <=? n) && (n <=? 90))%nat in
      let c' :=
        if after_letter
        then (if is_upper then ascii_of_nat (n + 32) else c)
        else (if is_lower then ascii_of_nat (n - 32) else c) in
      String c' (title_aux (is_lower || is_upper) s')
  end.

Definition title (key : string) : string := title_aux false key.

(** The body of the [for seg in segments] loop at line 613.  A [continue]
    of that loop leaves before the text-label line is written. *)
Definition offset_segment (sv : SetbackVars) (seg : Segment) : Run unit :=
  let btype := seg_type seg in
  let start := seg_start seg in
  let end_ := seg_end seg in
  if String.eqb btype "frontage" || String.eqb btype "front" then
    front_setbacks sv seg front_keys ;;;
    let dx := fst end_ - fst start in
    let dy := snd end_ - snd start in
    let length := hypot dx dy in
    r <- offset_line start end_ dx dy length road_offset ;;
    emit [LogSendingRoad (fst r) (snd r); CreatePolylines (fst r) (snd r);
          LogRoadCreated "Frontage"; LogTextLabelNotCreated]
  else if String.eqb btype "secondary" then
    let key := "secondary"%string in
    let offset := setback_or_zero sv key in
    let dx := fst end_ - fst start in
    let dy := snd end_ - snd start in
    let length := hypot dx dy in
    if Req_dec_T length 0 then
      emit [LogSkipZeroLengthSetback (S (seg_idx seg)) None]
    else
      l <- offset_line start end_ dx dy length offset ;;
      emit [LogSendingSetback None (fst l) (snd l);
            CreatePolylines (fst l) (snd l);
            LogSetbackCreated "Secondary"] ;;;
      r <- offset_line start end_ dx dy length road_offset ;;
      emit [LogSendingRoad (fst r) (snd r); CreatePolylines (fst r) (snd r);
            LogRoadCreated "Secondary"; LogTextLabelNotCreated]
  else
    let key := btype in
    let offset := setback_or_zero sv key in
    let dx := fst end_ - fst start in
    let dy := snd end_ - snd start in
    let length := hypot dx dy in
    if Req_dec_T length 0 then
      emit [LogSkipZeroLengthSetback (S (seg_idx seg)) None]
    else
      l <- offset_line start end_ dx dy length offset ;;
      emit [LogSendingSetback None (fst l) (snd l);
            CreatePolylines (fst l) (snd l);
            LogSetbackCreated (title key); LogTextLabelNotCreated].

(** The [for seg in segments] loop inside the [try]. *)
Fixpoint offset_loop (sv : SetbackVars) (segments : list Segment) : Run unit :=
  match segments with
  | [] => ret tt
  | seg :: rest => offset_segment sv seg ;;; offset_loop sv rest
  end.

(** Lines 612-731: the loop and its [except Exception] handler. *)
Definition draw_offsets (sv : SetbackVars) (segments : list Segment)
  : list Event :=
  match offset_loop sv segments with
  | (log, Some _) => log
  | (log, None) => log ++ [LogArchicadError]
  end.

(** [CDCSiteToolsApp.draw_boundaries_and_setbacks] *)
Definition draw_boundaries_and_setbacks
    (py_float : string -> option R) (chain_var : bool) (sv : SetbackVars)
    (rows : list BoundaryRow) : list Event :=
  let '(segments, log) := collect_segments py_float chain_var 0 rows (0, 0) in
  if (List.length segments <? 1)%nat then log ++ [LogNotEnoughSegments]
  else log ++ draw_segments segments ++ draw_closing segments
           ++ draw_offsets sv segments.

(** The row [add_boundary_row] appends: type Side, no bearing, distance 0. *)
Definition default_row : BoundaryRow :=
  mkRow "Side" (TkFloat 0) "" false.

(** The table [apply_site_preset] leaves for a preset [(width, depth)]:
    side, rear, side, frontage, then three untouched rows. *)
Definition apply_site_preset (width depth : R) : list BoundaryRow :=
  [ mkRow "Side" (TkFloat depth) "270" false;
    mkRow "Rear" (TkFloat width) "0" false;
    mkRow "Side" (TkFloat depth) "90" false;
    mkRow "Frontage" (TkFloat width) "180" false;
    default_row; default_row; default_row ].

End SiteTools.

(* ================================================================== *)
(** * Vocabulary of the specification                                  *)
(* ================================================================== *)

Module BenchSpec.

Import PyStr BenchTools.
Local Open Scope Q_scope.

(** The non-empty pieces of the RL entry. *)
Definition rl_tokens (rl_var : string) : list string :=
  filter nonempty (re_split plus_or_comma (remove_spaces rl_var)).

(** Every token is read by [float] as the value at the same position. *)
Definition parses_to (py_float : string -> option Q)
    (tokens : list string) (vals : list Q) : Prop :=
  Forall2 (fun t v => py_float t = Some v) tokens vals.

(** Some token is rejected by [float]. *)
Definition unparsable (py_float : string -> option Q)
    (tokens : list string) : Prop :=
  Exists (fun t => py_float t = None) tokens.

(** Arithmetic mean of a list. *)
Definition mean (l : list Q) : Q :=
  fold_right Qplus 0 l / inject_Z (Z.of_nat (List.length l)).

Definition is_highest (h : Q) (l : list Q) : Prop :=
  In h l /\ Forall (fun x => x <= h) l.

Definition is_lowest (m : Q) (l : list Q) : Prop :=
  In m l /\ Forall (fun x => m <= x) l.

(** A number with at most three decimal places. *)
Definition three_decimals (q : Q) : Prop :=
  exists z : Z, q == inject_Z z / 1000.

(** The derived levels of the data model over the rounded inputs, for a
    slab of thickness [thick] and the flood floor [min_ffl]: every derived
    value is rounded to three decimals. *)
Definition levels_of
    (inputs : list Q) (thick min_ffl : Q) (r : SiteLevels) : Prop :=
  Permutation (rls r) inputs /\
  bench_rl r = round3 (mean inputs) /\
  is_highest (highest_rl r) inputs /\
  is_lowest (lowest_rl r) inputs /\
  cut_max r = round3 (highest_rl r - bench_rl r) /\
  fill_max r = round3 (lowest_rl r - bench_rl r) /\
  slab_thickness r = thick /\
  ffl_rl r = round3 (bench_rl r + thick) /\
  min_ffl_rl r = round3 min_ffl /\
  fill_to_min_ffl r = round3 (Qmax 0 (min_ffl_rl r - ffl_rl r)) /\
  ext_tile_rl r = round3 (bench_rl r - 7 / 100) /\
  ext_deck_rl r = round3 (bench_rl r - 9 / 100) /\
  service_pad_rl r = round3 (ffl_rl r - 12 / 100).


(** What a successful run stores in [_main_results]. *)
Definition stored (r : SiteLevels) : App :=
  mkApp (Some (mkMainResults (bench_rl r) (ffl_rl r) (cut_max r) (fill_max r))).

(** The advisory for one neighbour side, as the rule table names it. *)
Inductive Advisory : Type :=
| RetainUnderFence (zero_clause : bool)
| CMARetaining (tight_site : bool) (block_up : bool).

Inductive Side : Type := HighSide | LowSide.

Definition render_advisory (side : Side) (a : Advisory) : string :=
  match a with
  | RetainUnderFence zero_clause =>
      ((match side with HighSide => msg_fence_high | LowSide => msg_fence_low end)
       ++ (if zero_clause then msg_zero_boundary else "")
       ++ nl)%string
  | CMARetaining tight_site block_up =>
      ((match side with HighSide => msg_cma_high | LowSide => msg_cma_low end)
       ++ (if tight_site then msg_tight_site else "")
       ++ (if block_up
           then match side with
                | HighSide => msg_blockup_high
                | LowSide => msg_blockup_low
                end
           else "")
       ++ nl)%string
  end.

Definition render_side (side : Side) (a : option Advisory) : list string :=
  match a with
  | None => []
  | Some a => [render_advisory side a]
  end.

Definition when (b : bool) (s : string) : list string :=
  if b then [s] else [].



(** The advisory for one side, computed. *)
Definition side_advisory (diff : Q) (zero : bool) : option Advisory :=
  if gt diff (4 # 10) then
    Some (CMARetaining (gt diff (6 # 10)) (gt diff (6 # 10) && zero))
  else if gt diff 0 then Some (RetainUnderFence zero)
  else None.

(** The RL entry holds no usable levels: some token is not a number, or
    there is no token at all. *)
Definition no_valid_levels (py_float : string -> option Q) (rl_var : string)
  : Prop :=
  unparsable py_float (rl_tokens rl_var) \/ rl_tokens rl_var = [].

(** A history of presses of the calculate button: RL entry, slab choice
    and flood floor of each press. *)
Definition Press : Type := (string * string * Q)%type.

Definition run_calculations (py_float : string -> option Q)
    (presses : list Press) (app : App) : App :=
  fold_left
    (fun a p => snd (calculate_results py_float (fst (fst p)) (snd (fst p)) (snd p) a))
    presses app.

End BenchSpec.

Module SiteSpec.

Import PyStr SiteTools.
Local Open Scope R_scope.

(** A concrete reader of plain decimal literals, for the worked examples. *)
Definition read_decimal (s : string) : option R :=
  option_map Q2R (parse_decimal s).

(** Segments laid end to end from [cursor], each one leaving its start
    along its azimuth, clockwise from the positive Y axis. *)
Fixpoint chained (cursor : Point) (segments : list Segment) : Prop :=
  match segments with
  | [] => True
  | seg :: rest =>
      seg_start seg = cursor /\
      seg_end seg
        = (fst (seg_start seg)
             + seg_distance seg * sin (radians (seg_bearing seg)),
           snd (seg_start seg)
             + seg_distance seg * cos (radians (seg_bearing seg))) /\
      chained (seg_end seg) rest
  end.

(** A record the traversal passes over: distance not positive, bearing
    empty, or bearing not parsable. *)
Definition skipped_record (py_float : string -> option R) (idx : nat)
    (row : BoundaryRow) : Prop :=
  exists d, row_distance row = TkFloat d /\
    (d <= 0
     \/ strip (row_bearing row) = EmptyString
     \/ exists e,
          parse_bearing py_float idx (strip (row_bearing row)) = ParseFailure e).

(** A parse failure report naming the row and the bearing text. *)
Definition reports_bearing (e : Event) (row : nat) (bearing : string) : Prop :=
  e = LogBearingPartsNotNumbers row bearing
  \/ e = LogBearingNotNumber row bearing
  \/ e = LogInvalidBearingFormat row bearing.

(** First start and last end coincide within the tolerance. *)
Definition closed_within_tol (first_start last_end : Point) : Prop :=
  Rabs (fst first_start - fst last_end) <= tol /\
  Rabs (snd first_start - snd last_end) <= tol.

(** The one synthetic closing edge, from the last end to the first start. *)
Definition closing_edge (first_start last_end : Point) : list Event :=
  [LogSendingClosing last_end first_start;
   CreatePolylines last_end first_start; LogClosingCreated].

(** The preset rectangle with its third side one metre short. *)
Definition shortened_rectangle (width depth : R) : list BoundaryRow :=
  [ mkRow "Side" (TkFloat depth) "270" false;
    mkRow "Rear" (TkFloat width) "0" false;
    mkRow "Side" (TkFloat (depth - 1)) "90" false;
    mkRow "Frontage" (TkFloat width) "180" false ].

(** The segment translated by [offset] along its unit left normal
    [(-dy / L, dx / L)]. *)
Definition shifted (seg : Segment) (offset : R) : Point * Point :=
  let dx := fst (seg_end seg) - fst (seg_start seg) in
  let dy := snd (seg_end seg) - snd (seg_start seg) in
  let L := hypot dx dy in
  ((fst (seg_start seg) + offset * (- dy / L),
    snd (seg_start seg) + offset * (dx / L)),
   (fst (seg_end seg) + offset * (- dy / L),
    snd (seg_end seg) + offset * (dx / L))).

(** One setback line sent to Archicad, with its two log lines. *)
Definition setback_line (label : option string) (created : string)
    (l : Point * Point) : list Event :=
  [LogSendingSetback label (fst l) (snd l);
   CreatePolylines (fst l) (snd l);
   LogSetbackCreated created].

(** One road line sent to Archicad, with its two log lines. *)
Definition road_line (kind : string) (l : Point * Point) : list Event :=
  [LogSendingRoad (fst l) (snd l);
   CreatePolylines (fst l) (snd l);
   LogRoadCreated kind].

End SiteSpec.

(* ================================================================== *)
(** * More of the bench and site tools                                 *)
(* ================================================================== *)

Module BenchMore.

Import PyStr BenchTools BenchSpec.

(** No character of [s] satisfies [p]. *)
Fixpoint free_of (p : ascii -> bool) (s : string) : bool :=
  match s with
  | EmptyString => true
  | String c s' => negb (p c) && free_of p s'
  end.

(** A blank, a plus or a comma. *)
Definition blank_or_separator (c : ascii) : bool :=
  is_space_char c || plus_or_comma c.

(** A piece of the RL entry that survives tokenising: not empty, and
    without blanks and separators. *)
Definition clean_token (t : string) : bool :=
  nonempty t && free_of blank_or_separator t.

(** [",".join(tokens)] *)
Fixpoint join_commas (tokens : list string) : string :=
  match tokens with
  | [] => EmptyString
  | [t] => t
  | t :: rest => (t ++ "," ++ join_commas rest)%string
  end.

End BenchMore.

Module SiteMore.

Import PyStr SiteTools SiteSpec.
Local Open Scope R_scope.

(** ** More of the application *)

(** The table [clear_all] leaves: seven fresh rows. *)
Definition clear_all : list BoundaryRow := repeat default_row 7.

Definition PLANNING_SCHEME_PRESETS : list (string * list (string * R)) :=
  [ ("QDC MP1.1"%string,
     [ ("front"%string, 6); ("side"%string, 15 / 10); ("rear"%string, 3);
       ("secondary"%string, 2); ("front_min"%string, 3);
       ("front_hab"%string, 345 / 100); ("garage"%string, 3) ]);
    ("QDC MP1.2"%string,
     [ ("front"%string, 6); ("side"%string, 15 / 10); ("rear"%string, 3);
       ("secondary"%string, 2); ("garage_front"%string, 6);
       ("front_min"%string, 3); ("front_hab"%string, 345 / 100);
       ("garage"%string, 6) ]) ].

(** [PLANNING_SCHEME_PRESETS[preset]], [None] when the key is absent. *)
Fixpoint lookup_preset (preset : string)
    (presets : list (string * list (string * R))) : option (list (string * R)) :=
  match presets with
  | [] => None
  | (name, values) :: rest =>
      if String.eqb preset name then Some values else lookup_preset preset rest
  end.

(** [on_preset_selected]: what [self.setback_vars] holds afterwards. *)
Definition on_preset_selected (preset : string) (sv : SetbackVars)
  : SetbackVars :=
  match lookup_preset preset PLANNING_SCHEME_PRESETS with
  | Some values =>
      map (fun kv =>
             match lookup (fst kv) values with
             | Some v => (fst kv, v)
             | None => kv
             end) sv
  | None => map (fun kv => (fst kv, 0)) sv
  end.

Definition SITE_RECTANGLE_PRESETS : list (string * (R * R)) :=
  [ ("32m x 10m"%string, (10, 32));
    ("32m x 12.5m"%string, (125 / 10, 32));
    ("32m x 14.0m"%string, (14, 32));
    ("32m x 14.5m"%string, (145 / 10, 32));
    ("32m x 16.0m"%string, (16, 32));
    ("32m x 18.0m"%string, (18, 32));
    ("30m x 10m"%string, (10, 30));
    ("30m x 12.5m"%string, (125 / 10, 30));
    ("30m x 14.0m"%string, (14, 30));
    ("30m x 14.5m"%string, (145 / 10, 30));
    ("30m x 16.0m"%string, (16, 30));
    ("30m x 18.0m"%string, (18, 30));
    ("28m x 4.6m"%string, (46 / 10, 28));
    ("28m x 6.6m"%string, (66 / 10, 28));
    ("28m x 7.6m"%string, (76 / 10, 28));
    ("28m x 7.5m"%string, (75 / 10, 28));
    ("28m x 9.0m"%string, (9, 28));
    ("28m x 10.0m"%string, (10, 28));
    ("28m x 12.5m"%string, (125 / 10, 28));
    ("28m x 14.0m"%string, (14, 28));
    ("28m x 16.0m"%string, (16, 28));
    ("28m x 18.0m"%string, (18, 28));
    ("25m x 4.6m"%string, (46 / 10, 25));
    ("25m x 6.6m"%string, (66 / 10, 25));
    ("25m x 7.6m"%string, (76 / 10, 25));
    ("25m x 7.5m"%string, (75 / 10, 25));
    ("25m x 9.0m"%string, (9, 25));
    ("25m x 10.0m"%string, (10, 25));
    ("25m x 12.5m"%string, (125 / 10, 25));
    ("25m x 14.0m"%string, (14, 25));
    ("25m x 16.0m"%string, (16, 25));
    ("25m x 18.0m"%string, (18, 25));
    ("21m x 7.5m"%string, (75 / 10, 21));
    ("21m x 9.0m"%string, (9, 21)) ].

Fixpoint lookup_site_preset (preset : string)
    (presets : list (string * (R * R))) : option (R * R) :=
  match presets with
  | [] => None
  | (name, dims) :: rest =>
      if String.eqb preset name then Some dims
      else lookup_site_preset preset rest
  end.

(** What [apply_site_preset] writes into the results pane. *)
Inductive PresetLog : Type :=
| LogPresetNotFound (preset : string)
| LogPresetApplied (preset : string) (width depth : R).

(** [apply_site_preset] for the selected name: the table of rows afterwards
    and the line logged. *)
Definition apply_selected_site_preset (preset : string)
    (boundary_rows : list BoundaryRow) : list BoundaryRow * PresetLog :=
  match lookup_site_preset preset SITE_RECTANGLE_PRESETS with
  | None => (boundary_rows, LogPresetNotFound preset)
  | Some (width, depth) =>
      (apply_site_preset width depth, LogPresetApplied preset width depth)
  end.

(** ** Vocabulary *)

(** The polylines sent to Archicad, in order. *)
Fixpoint cad_calls (events : list Event) : list (Point * Point) :=
  match events with
  | [] => []
  | CreatePolylines a b :: rest => (a, b) :: cad_calls rest
  | _ :: rest => cad_calls rest
  end.

(** The segment numbers logged as zero-length boundary segments. *)
Fixpoint zero_length_logs (events : list Event) : list nat :=
  match events with
  | [] => []
  | LogSkipZeroLengthSegment n :: rest => n :: zero_length_logs rest
  | _ :: rest => zero_length_logs rest
  end.

Definition degenerate (seg : Segment) : bool :=
  same_point (seg_start seg) (seg_end seg).

Definition is_frontage (seg : Segment) : bool :=
  String.eqb (seg_type seg) "frontage" || String.eqb (seg_type seg) "front".

Definition is_secondary (seg : Segment) : bool :=
  String.eqb (seg_type seg) "secondary".

(** Metres per chain. *)
Definition chain : R := 201168 / 10000.

Definition scale_point (k : R) (p : Point) : Point := (k * fst p, k * snd p).

Definition scale_segment (k : R) (seg : Segment) : Segment :=
  mkSegment (seg_type seg) (scale_point k (seg_start seg))
    (scale_point k (seg_end seg)) (seg_idx seg) (seg_distance seg * k)
    (seg_bearing seg).

(** A row that cannot give a segment: distance not positive or no bearing. *)
Definition unusable (row : BoundaryRow) : Prop :=
  exists d, row_distance row = TkFloat d /\
            (d <= 0 \/ strip (row_bearing row) = EmptyString).

(** Displacement of a segment. *)
Definition dx_of (seg : Segment) : R := fst (seg_end seg) - fst (seg_start seg).
Definition dy_of (seg : Segment) : R := snd (seg_end seg) - snd (seg_start seg).

(** The segment came from row number [seg_idx] of the table, which has a
    positive distance, and carries that row's type in lower case. *)
Definition from_row (rows : list BoundaryRow) (idx0 : nat) (seg : Segment)
  : Prop :=
  (idx0 <= seg_idx seg)%nat /\
  exists row d,
    nth_error rows (seg_idx seg - idx0) = Some row /\
    seg_type seg = lower (row_type row) /\
    row_distance row = TkFloat d /\ 0 < d.

End SiteMore.

(* ================================================================== *)
(** * XMLProjectInfoImporter.py                                        *)
(* ================================================================== *)

Module XmlImporter.

Import PyStr.
Local Open Scope string_scope.

(** An element of the parsed tree: its tag, its text ([None] when there is
    none) and its child elements. *)
#[warnings="-register-all"]
Inductive Element : Type :=
| Elem (tag : string) (text : option string) (children : list Element).

Definition tag_of (e : Element) : string :=
  match e with Elem tag _ _ => tag end.

Definition text_of (e : Element) : option string :=
  match e with Elem _ text _ => text end.

Definition children_of (e : Element) : list Element :=
  match e with Elem _ _ children => children end.

(** [elem.iter()]: the element and everything below it, in document order. *)
Fixpoint iter (e : Element) : list Element :=
  match e with
  | Elem _ _ children => e :: flat_map iter children
  end.

(** [root.find(tag)]: the first child with that tag. *)
Definition find_child (tag : string) (e : Element) : option Element :=
  find (fun c => String.eqb (tag_of c) tag) (children_of e).

(** A Python dictionary from strings to strings, in insertion order. *)
Definition Dict : Type := list (string * string).

(** [d.get(key)] *)
Fixpoint dict_get (key : string) (d : Dict) : option string :=
  match d with
  | [] => None
  | (k, v) :: rest => if String.eqb key k then Some v else dict_get key rest
  end.

(** [d[key] = value]: in place when the key is there, at the end if not. *)
Fixpoint dict_set (key value : string) (d : Dict) : Dict :=
  match d with
  | [] => [(key, value)]
  | (k, v) :: rest =>
      if String.eqb key k then (k, value) :: rest
      else (k, v) :: dict_set key value rest
  end.

(** The table in [map_xml_to_project_info]. *)
Definition mapping : Dict :=
  [ ("ProjectName", "PROJECTNAME");
    ("ProjectDescription", "PROJECT_DESCRIPTION");
    ("ProjectID", "PROJECT_ID");
    ("ProjectCode", "PROJECT_CODE");
    ("ProjectNumber", "PROJECTNUMBER");
    ("ProjectStatus", "PROJECTSTATUS");
    ("Keywords", "KEYWORDS");
    ("Notes", "NOTES");
    ("SiteName", "SITE_NAME");
    ("SiteDescription", "SITE_DESCRIPTION");
    ("SiteAddress", "SITE_ADDRESS");
    ("BuildingName", "BUILDING_NAME");
    ("BuildingDescription", "BUILDING_DESCRIPTION");
    ("BuildingType", "BUILDING_TYPE");
    ("ClientName", "CLIENT_NAME");
    ("ClientAddress", "CLIENT_ADDRESS");
    ("ClientPhone", "CLIENT_PHONE");
    ("ClientEmail", "CLIENT_EMAIL");
    ("CADTechnicianName", "CAD_TECHNICIAN_NAME");
    ("CADTechnicianCompany", "CAD_TECHNICIAN_COMPANY");
    ("CADTechnicianPhone", "CAD_TECHNICIAN_PHONE");
    ("CADTechnicianEmail", "CAD_TECHNICIAN_EMAIL");
    ("name", "PROJECTNAME");
    ("description", "PROJECT_DESCRIPTION");
    ("id", "PROJECT_ID");
    ("code", "PROJECT_CODE");
    ("number", "PROJECTNUMBER");
    ("status", "PROJECTSTATUS");
    ("keywords", "KEYWORDS");
    ("notes", "NOTES") ].

(** [map_xml_to_project_info] *)
Definition map_xml_to_project_info (xml_tag : string) : option string :=
  dict_get xml_tag mapping.

(** [elem.text.strip()] when [elem.text and elem.text.strip()] holds. *)
Definition stripped_text (e : Element) : option string :=
  match text_of e with
  | None => None
  | Some text =>
      if nonempty text && nonempty (strip text)
      then Some (strip text) else None
  end.

(** The body of both loops of [extract_project_info]. *)
Definition record_field (project_data : Dict) (e : Element) : Dict :=
  match stripped_text e with
  | None => project_data
  | Some value =>
      match map_xml_to_project_info (tag_of e) with
      | Some field_id =>
          if nonempty field_id then dict_set field_id value project_data
          else project_data
      | None => project_data
      end
  end.

(** [extract_project_info] *)
Definition extract_project_info (root : Element) : Dict :=
  let project_data := fold_left record_field (iter root) [] in
  match find_child "ProjectInfo" root with
  | Some project_info =>
      fold_left record_field (children_of project_info) project_data
  | None => project_data
  end.

(** One entry of [response['fields']] of [GetProjectInfoFields]. *)
Record InfoField : Type := mkInfoField {
  projectInfoId : string;
  projectInfoName : string;
  projectInfoValue : string
}.

(** The dictionary comprehension [current_fields] of [preview_changes]. *)
Definition current_fields (fields : list InfoField) : Dict :=
  fold_left (fun d f => dict_set (projectInfoId f) (projectInfoValue f) d)
    fields [].

(** One entry of [changes]. *)
Record Change : Type := mkChange {
  field_id : string;
  current_value : string;
  new_value : string
}.

(** The list [changes] of [preview_changes]. *)
Fixpoint changes_of (current : Dict) (project_data : Dict) : list Change :=
  match project_data with
  | [] => []
  | (field_id, new_value) :: rest =>
      let current_value :=
        match dict_get field_id current with
        | Some v => v
        | None => EmptyString
        end in
      if String.eqb current_value new_value then changes_of current rest
      else mkChange field_id current_value new_value :: changes_of current rest
  end.

(** The loop of [import_all]: the [SetProjectInfoField] commands attempted,
    and the two counters.  [raises] tells which commands raise. *)
Fixpoint import_loop (raises : string -> string -> bool) (project_data : Dict)
    (success_count error_count : nat)
  : list (string * string) * nat * nat :=
  match project_data with
  | [] => ([], success_count, error_count)
  | (field_id, value) :: rest =>
      let '(commands, s, e) :=
        if raises field_id value
        then import_loop raises rest success_count (S error_count)
        else import_loop raises rest (S success_count) error_count in
      ((field_id, value) :: commands, s, e)
  end.

(** [import_all] once data is loaded: nothing when the question is answered
    with no. *)
Definition import_all (confirmed : bool) (raises : string -> string -> bool)
    (project_data : Dict) : list (string * string) * nat * nat :=
  if confirmed then import_loop raises project_data 0 0 else ([], 0%nat, 0%nat).

(** The entry was read off element [e]. *)
Definition read_from (e : Element) (k v : string) : Prop :=
  map_xml_to_project_info (tag_of e) = Some k /\ stripped_text e = Some v.

(** The element does not set field [k]. *)
Definition silent_on (k : string) (e : Element) : Prop :=
  stripped_text e = None \/ map_xml_to_project_info (tag_of e) <> Some k.

End XmlImporter.

(* ================================================================== *)
(** * Properties of the bench tools                                    *)
(* ================================================================== *)

Module BenchProofs.

Import PyStr BenchTools BenchSpec.
Local Open Scope Q_scope.

(** ** Rounding *)

Lemma round_half_even_comp (x y : Q) :
  x == y -> round_half_even x = round_half_even y.
Proof.
  intros E. unfold round_half_even.
  rewrite (Qfloor_comp _ _ E).
  assert (C : (x - inject_Z (Qfloor y) ?= 1 # 2)
              = (y - inject_Z (Qfloor y) ?= 1 # 2)).
  { apply Qcompare_comp; [rewrite E|]; reflexivity. }
  rewrite C. reflexivity.
Qed.

Lemma round3_comp (x y : Q) : x == y -> round3 x = round3 y.
Proof.
  intros E. unfold round3.
  rewrite (round_half_even_comp (x * 1000) (y * 1000)); [reflexivity|].
  rewrite E. reflexivity.
Qed.

Lemma round_half_even_inject_Z (z : Z) : round_half_even (inject_Z z) = z.
Proof.
  unfold round_half_even. rewrite Qfloor_Z.
  assert (C : (inject_Z z - inject_Z z ?= 1 # 2) = Lt).
  { rewrite <- Qlt_alt. setoid_replace (inject_Z z - inject_Z z) with 0 by ring.
    reflexivity. }
  rewrite C. reflexivity.
Qed.

Lemma round3_three_decimals (q : Q) : three_decimals (round3 q).
Proof.
  unfold round3. exists (round_half_even (q * 1000)). apply Qred_correct.
Qed.

Lemma round3_fixes (q : Q) : three_decimals q -> round3 q == q.
Proof.
  intros [z E]. unfold round3. rewrite Qred_correct.
  rewrite (round_half_even_comp (q * 1000) (inject_Z z)).
  - rewrite round_half_even_inject_Z. symmetry. exact E.
  - rewrite E. field.
Qed.

Lemma three_decimals_comp (x y : Q) :
  x == y -> three_decimals x -> three_decimals y.
Proof. intros E [z H]. exists z. rewrite <- E. exact H. Qed.

Lemma three_decimals_plus (x y : Q) :
  three_decimals x -> three_decimals y -> three_decimals (x + y).
Proof.
  intros [a Ha] [b Hb]. exists (a + b)%Z.
  rewrite Ha, Hb, inject_Z_plus. field.
Qed.

Lemma three_decimals_minus (x y : Q) :
  three_decimals x -> three_decimals y -> three_decimals (x - y).
Proof.
  intros [a Ha] [b Hb]. exists (a - b)%Z.
  rewrite Ha, Hb. unfold Z.sub. rewrite inject_Z_plus, inject_Z_opp. field.
Qed.

(** ** Sorting, sums and extrema *)

Lemma insert_sorted_perm (x : Q) (l : list Q) :
  Permutation (x :: l) (insert_sorted x l).
Proof.
  induction l as [|y l IH]; simpl.
  - apply Permutation_refl.
  - destruct (le x y).
    + apply Permutation_refl.
    + eapply Permutation_trans; [apply perm_swap|].
      apply perm_skip. exact IH.
Qed.

Lemma sort_perm (l : list Q) : Permutation l (sort l).
Proof.
  induction l as [|x l IH]; simpl.
  - apply Permutation_refl.
  - eapply Permutation_trans; [apply perm_skip; exact IH|].
    apply insert_sorted_perm.
Qed.

Lemma fold_left_plus_acc (l : list Q) (a : Q) :
  fold_left Qplus l a == a + fold_right Qplus 0 l.
Proof.
  revert a. induction l as [|x l IH]; intros a; simpl.
  - ring.
  - rewrite IH. ring.
Qed.

Lemma py_sum_fold_right (l : list Q) : py_sum l == fold_right Qplus 0 l.
Proof. unfold py_sum. rewrite fold_left_plus_acc. ring. Qed.

Lemma fold_right_plus_perm (l l' : list Q) :
  Permutation l l' -> fold_right Qplus 0 l == fold_right Qplus 0 l'.
Proof.
  induction 1; simpl.
  - reflexivity.
  - rewrite IHPermutation. reflexivity.
  - ring.
  - rewrite IHPermutation1. exact IHPermutation2.
Qed.

Lemma mean_sorted (l : list Q) : py_sum (sort l) / len (sort l) == mean l.
Proof.
  unfold mean, len.
  rewrite py_sum_fold_right.
  rewrite <- (fold_right_plus_perm _ _ (sort_perm l)).
  rewrite <- (Permutation_length (sort_perm l)).
  reflexivity.
Qed.

Lemma gt_true (a b : Q) : gt a b = true <-> b < a.
Proof.
  unfold gt. rewrite negb_true_iff.
  destruct (Qle_bool a b) eqn:E.
  - apply Qle_bool_iff in E. split; [discriminate|].
    intros H. exfalso. apply (Qlt_not_le _ _ H E).
  - split; [intros _|reflexivity].
    apply Qnot_le_lt. intros H. apply Qle_bool_iff in H. congruence.
Qed.

Lemma gt_false (a b : Q) : gt a b = false <-> a <= b.
Proof.
  unfold gt. rewrite negb_false_iff. apply Qle_bool_iff.
Qed.



Lemma py_max_spec (l : list Q) (x : Q) : is_highest (py_max x l) (x :: l).
Proof.
  unfold py_max. revert x.
  induction l as [|y l IH]; intros x; simpl.
  - split; [left; reflexivity|]. repeat constructor. apply Qle_refl.
  - destruct (gt y x) eqn:E.
    + destruct (IH y) as [Hin Hall]. split.
      * destruct Hin as [<-|Hin]; [right; left; reflexivity|right; right; exact Hin].
      * inversion Hall as [|? ? Hy Hl]; subst.
        constructor; [|constructor; assumption].
        apply gt_true in E. apply Qlt_le_weak.
        eapply Qlt_le_trans; [exact E|exact Hy].
    + destruct (IH x) as [Hin Hall]. split.
      * destruct Hin as [<-|Hin]; [left; reflexivity|right; right; exact Hin].
      * inversion Hall as [|? ? Hx Hl]; subst.
        constructor; [assumption|constructor; [|assumption]].
        apply gt_false in E. eapply Qle_trans; [exact E|exact Hx].
Qed.

Lemma py_min_spec (l : list Q) (x : Q) : is_lowest (py_min x l) (x :: l).
Proof.
  unfold py_min. revert x.
  induction l as [|y l IH]; intros x; simpl.
  - split; [left; reflexivity|]. repeat constructor. apply Qle_refl.
  - destruct (gt x y) eqn:E.
    + destruct (IH y) as [Hin Hall]. split.
      * destruct Hin as [<-|Hin]; [right; left; reflexivity|right; right; exact Hin].
      * inversion Hall as [|? ? Hy Hl]; subst.
        constructor; [|constructor; assumption].
        apply gt_true in E. apply Qlt_le_weak.
        eapply Qle_lt_trans; [exact Hy|exact E].
    + destruct (IH x) as [Hin Hall]. split.
      * destruct Hin as [<-|Hin]; [left; reflexivity|right; right; exact Hin].
      * inversion Hall as [|? ? Hx Hl]; subst.
        constructor; [assumption|constructor; [|assumption]].
        apply gt_false in E. eapply Qle_trans; [exact Hx|exact E].
Qed.

Lemma is_highest_perm (h : Q) (l l' : list Q) :
  Permutation l l' -> is_highest h l -> is_highest h l'.
Proof.
  intros P [Hin Hall]. split.
  - eapply Permutation_in; eassumption.
  - eapply Permutation_Forall; eassumption.
Qed.

Lemma is_lowest_perm (m : Q) (l l' : list Q) :
  Permutation l l' -> is_lowest m l -> is_lowest m l'.
Proof.
  intros P [Hin Hall]. split.
  - eapply Permutation_in; eassumption.
  - eapply Permutation_Forall; eassumption.
Qed.

Lemma is_highest_unique (h h' : Q) (l : list Q) :
  is_highest h l -> is_highest h' l -> h == h'.
Proof.
  intros [Hin Hall] [Hin' Hall'].
  rewrite Forall_forall in Hall, Hall'.
  apply Qle_antisym; [apply Hall'|apply Hall]; assumption.
Qed.

Lemma is_lowest_unique (m m' : Q) (l : list Q) :
  is_lowest m l -> is_lowest m' l -> m == m'.
Proof.
  intros [Hin Hall] [Hin' Hall'].
  rewrite Forall_forall in Hall, Hall'.
  apply Qle_antisym; [apply Hall|apply Hall']; assumption.
Qed.

(** ** Parsing the RL entry *)

Lemma parse_rounded_some (py_float : string -> option Q)
    (tokens : list string) (vals : list Q) :
  parses_to py_float (filter nonempty tokens) vals ->
  parse_rounded py_float tokens = Some (map round3 vals).
Proof.
  revert vals. induction tokens as [|t ts IH]; intros vals H; simpl in *.
  - inversion H. reflexivity.
  - destruct (nonempty t).
    + inversion H as [|? v ? vs Ht Hts]; subst.
      rewrite Ht, (IH vs Hts). reflexivity.
    + apply IH. exact H.
Qed.

Lemma parse_rounded_none (py_float : string -> option Q)
    (tokens : list string) :
  unparsable py_float (filter nonempty tokens) ->
  parse_rounded py_float tokens = None.
Proof.
  induction tokens as [|t ts IH]; intros H; simpl in *.
  - inversion H.
  - destruct (nonempty t).
    + inversion H as [? ? Ht|? ? Hts]; subst.
      * rewrite Ht. reflexivity.
      * destruct (py_float t); [|reflexivity]. rewrite (IH Hts). reflexivity.
    + apply IH. exact H.
Qed.

Lemma parse_rounded_nil (py_float : string -> option Q)
    (tokens : list string) :
  filter nonempty tokens = [] ->
  parse_rounded py_float tokens = Some [].
Proof.
  intros H. apply (parse_rounded_some py_float tokens []).
  rewrite H. constructor.
Qed.

(** ** The slab dropdown *)


(** ** The level calculation *)

Lemma max0_Qmax (q : Q) : max0 q == Qmax 0 q.
Proof.
  unfold max0. destruct (gt q 0) eqn:E.
  - apply gt_true in E. symmetry. apply Q.max_r. apply Qlt_le_weak. exact E.
  - apply gt_false in E. symmetry. apply Q.max_l. exact E.
Qed.

Lemma compute_levels_report (inputs : list Q) (slab_var : string) (min_ffl_var : Q) :
  inputs <> [] ->
  exists r,
    compute_levels inputs slab_var min_ffl_var = (LevelsReport r, stored r) /\
    levels_of inputs (snd (find_slab SLAB_THICKNESS_OPTIONS slab_var))
      min_ffl_var r.
Proof.
  intros Hne.
  destruct inputs as [|v vs]; [congruence|]. clear Hne.
  unfold compute_levels.
  pose proof (sort_perm (v :: vs)) as P.
  pose proof (mean_sorted (v :: vs)) as M.
  destruct (sort (v :: vs)) as [|s0 srest] eqn:S.
  - apply Permutation_sym, Permutation_nil in P. discriminate.
  - destruct (find_slab SLAB_THICKNESS_OPTIONS slab_var) as [name thick].
    cbv beta iota zeta.
    match goal with
    | |- exists r, (LevelsReport ?x, _) = _ /\ _ => exists x
    end.
    split; [unfold stored; cbn [bench_rl ffl_rl cut_max fill_max]; reflexivity|].
    unfold levels_of.
    cbn [rls bench_rl highest_rl lowest_rl cut_max fill_max slab_thickness
         ffl_rl min_ffl_rl fill_to_min_ffl ext_tile_rl ext_deck_rl
         service_pad_rl snd].
    repeat split.
    + apply Permutation_sym. exact P.
    + apply round3_comp. exact M.
    + apply (is_highest_perm _ (s0 :: srest)).
      * apply Permutation_sym. exact P.
      * apply py_max_spec.
    + apply (is_highest_perm _ (s0 :: srest)).
      * apply Permutation_sym. exact P.
      * apply py_max_spec.
    + apply (is_lowest_perm _ (s0 :: srest)).
      * apply Permutation_sym. exact P.
      * apply py_min_spec.
    + apply (is_lowest_perm _ (s0 :: srest)).
      * apply Permutation_sym. exact P.
      * apply py_min_spec.
    + apply round3_comp. apply max0_Qmax.
Qed.




(** ** Raising the highest input *)

Lemma is_highest_middle (l1 l2 : list Q) (v : Q) :
  Forall (fun x => x <= v) (l1 ++ l2) -> is_highest v (l1 ++ v :: l2).
Proof.
  intros H. split.
  - apply in_elt.
  - apply Forall_app in H. destruct H as [H1 H2].
    apply Forall_app. split; [exact H1|].
    constructor; [apply Qle_refl|exact H2].
Qed.

Lemma Forall_le_weaken (l : list Q) (v w : Q) :
  v <= w -> Forall (fun x => x <= v) l -> Forall (fun x => x <= w) l.
Proof.
  intros Hvw H. eapply Forall_impl; [|exact H].
  intros x Hx. cbv beta in *. eapply Qle_trans; eassumption.
Qed.

Lemma in_middle_inv (l1 l2 : list Q) (v x : Q) :
  In x (l1 ++ v :: l2) -> x = v \/ In x (l1 ++ l2).
Proof.
  intros H. apply in_app_or in H. destruct H as [H|[H|H]].
  - right. apply in_or_app. left. exact H.
  - left. symmetry. exact H.
  - right. apply in_or_app. right. exact H.
Qed.

Lemma in_middle_weaken (l1 l2 : list Q) (v x : Q) :
  In x (l1 ++ l2) -> In x (l1 ++ v :: l2).
Proof.
  intros H. apply in_app_or in H. apply in_or_app.
  destruct H as [H|H]; [left; exact H|right; right; exact H].
Qed.

(** The lowest value does not move when an entry that bounds all the
    others from above is raised, provided there are other entries. *)
Lemma lowest_unmoved (l1 l2 : list Q) (v delta m m' : Q) :
  l1 ++ l2 <> [] ->
  Forall (fun x => x <= v) (l1 ++ l2) ->
  0 < delta ->
  is_lowest m (l1 ++ v :: l2) ->
  is_lowest m' (l1 ++ (v + delta) :: l2) ->
  m' == m.
Proof.
  intros Hne Hmax Hd [Hin Hall] Hm'.
  rewrite Forall_forall in Hmax, Hall.
  assert (W : exists m0, In m0 (l1 ++ l2) /\ m0 == m).
  { destruct (in_middle_inv _ _ _ _ Hin) as [->|Hin0].
    - destruct (l1 ++ l2) as [|y ys] eqn:E; [congruence|].
      exists y. split; [left; reflexivity|].
      apply Qle_antisym.
      + apply Hmax. left. reflexivity.
      + apply Hall. apply in_middle_weaken. rewrite E. left. reflexivity.
    - exists m. split; [exact Hin0|reflexivity]. }
  destruct W as (m0 & Hin0 & E0).
  apply (is_lowest_unique m' m0 (l1 ++ (v + delta) :: l2)) in Hm'.
  - rewrite Hm'. exact E0.
  - split.
    + apply in_middle_weaken. exact Hin0.
    + rewrite Forall_forall. intros x Hx.
      destruct (in_middle_inv _ _ _ _ Hx) as [->|Hx0].
      * rewrite E0. eapply Qle_trans; [apply Hall, in_elt|]. lra.
      * rewrite E0. apply Hall. apply in_middle_weaken. exact Hx0.
Qed.

Lemma three_decimals_in (l : list Q) (x : Q) :
  Forall three_decimals l -> In x l -> three_decimals x.
Proof. intros H. rewrite Forall_forall in H. apply H. Qed.

(** C9, the statement as written fails: with inputs 10.0, 10.2, 10.4 the
    cut is 0.200 and the fill -0.200; raising the highest input by 0.3 to
    10.7 moves the bench to 10.3, so the cut becomes 0.400 (not 0.500) and
    the fill -0.300 (not -0.200). *)
Lemma raising_max_counterexample :
  exists r r',
    calculate_results parse_decimal "10.0,10.2,10.4" "S8/WM8 (310mm)"
      0 initial_app = (LevelsReport r, stored r) /\
    calculate_results parse_decimal "10.0,10.2,10.7" "S8/WM8 (310mm)"
      0 initial_app = (LevelsReport r', stored r') /\
    highest_rl r == 10.4 /\ highest_rl r' == 10.4 + 0.3 /\
    cut_max r == 0.2 /\ cut_max r' == 0.4 /\
    fill_max r == - 0.2 /\ fill_max r' == - 0.3 /\
    ~ cut_max r' == cut_max r + 0.3 /\
    ~ fill_max r' == fill_max r.
Proof.
  vm_compute.
  match goal with
  | |- exists r r', (LevelsReport ?x, _) = _ /\ (LevelsReport ?y, _) = _ /\ _ =>
      exists x, y
  end.
  vm_compute. repeat split; discriminate.
Qed.

(** C9, amended.  For rounded inputs with at least two entries and a
    three-decimal delta > 0: raising an entry that is currently the maximum
    by delta widens the cut/fill range cutMax - fillMax by exactly delta;
    cutMax grows by delta less the rise of the bench RL, and fillMax drops
    by the rise of the bench RL. *)
Theorem raising_max_widens_range :
  forall (l1 l2 : list Q) (v delta : Q) (slab_var : string) (min_ffl_var : Q),
    Forall three_decimals (l1 ++ v :: l2) ->
    three_decimals delta ->
    0 < delta ->
    l1 ++ l2 <> [] ->
    Forall (fun x => x <= v) (l1 ++ l2) ->
    exists r r',
      compute_levels (l1 ++ v :: l2) slab_var min_ffl_var
        = (LevelsReport r, stored r) /\
      compute_levels (l1 ++ (v + delta) :: l2) slab_var min_ffl_var
        = (LevelsReport r', stored r') /\
      cut_max r' - fill_max r' == cut_max r - fill_max r + delta /\
      cut_max r' == cut_max r + delta - (bench_rl r' - bench_rl r) /\
      fill_max r' == fill_max r - (bench_rl r' - bench_rl r).
Proof.
  intros l1 l2 v delta slab_var min_ffl_var H3 Hd3 Hd Hne Hmax.
  destruct (compute_levels_report (l1 ++ v :: l2) slab_var min_ffl_var)
    as (r & Hr & _ & Hb & Hh & Hl & Hc & Hf & _);
    [intros E; apply app_eq_nil in E; destruct E; discriminate|].
  destruct (compute_levels_report (l1 ++ (v + delta) :: l2) slab_var min_ffl_var)
    as (r' & Hr' & _ & Hb' & Hh' & Hl' & Hc' & Hf' & _);
    [intros E; apply app_eq_nil in E; destruct E; discriminate|].
  exists r, r'. split; [exact Hr|]. split; [exact Hr'|].
  assert (H3' : Forall three_decimals (l1 ++ (v + delta) :: l2)).
  { apply Forall_app in H3. destruct H3 as [H31 H32].
    inversion H32 as [|? ? Hv H33]; subst.
    apply Forall_app. split; [exact H31|].
    constructor; [apply three_decimals_plus; assumption|exact H33]. }
  assert (Eh : highest_rl r == v).
  { apply (is_highest_unique _ _ _ Hh). apply is_highest_middle. exact Hmax. }
  assert (Eh' : highest_rl r' == v + delta).
  { apply (is_highest_unique _ _ _ Hh'). apply is_highest_middle.
    apply (Forall_le_weaken _ v); [lra|exact Hmax]. }
  assert (El : lowest_rl r' == lowest_rl r).
  { apply (lowest_unmoved l1 l2 v delta); assumption. }
  assert (Tb : three_decimals (bench_rl r)) by (rewrite Hb; apply round3_three_decimals).
  assert (Tb' : three_decimals (bench_rl r')) by (rewrite Hb'; apply round3_three_decimals).
  assert (Ec : cut_max r == highest_rl r - bench_rl r).
  { rewrite Hc. apply round3_fixes. apply three_decimals_minus; [|exact Tb].
    apply (three_decimals_in _ _ H3). apply Hh. }
  assert (Ef : fill_max r == lowest_rl r - bench_rl r).
  { rewrite Hf. apply round3_fixes. apply three_decimals_minus; [|exact Tb].
    apply (three_decimals_in _ _ H3). apply Hl. }
  assert (Ec' : cut_max r' == highest_rl r' - bench_rl r').
  { rewrite Hc'. apply round3_fixes. apply three_decimals_minus; [|exact Tb'].
    apply (three_decimals_in _ _ H3'). apply Hh'. }
  assert (Ef' : fill_max r' == lowest_rl r' - bench_rl r').
  { rewrite Hf'. apply round3_fixes. apply three_decimals_minus; [|exact Tb'].
    apply (three_decimals_in _ _ H3'). apply Hl'. }
  repeat split; lra.
Qed.

Lemma raising_max_widens_range_witness :
  exists r r',
    compute_levels ([10] ++ 10.4 :: [10.2]) "S8/WM8 (310mm)" 0
      = (LevelsReport r, stored r) /\
    compute_levels ([10] ++ (10.4 + 0.3) :: [10.2]) "S8/WM8 (310mm)" 0
      = (LevelsReport r', stored r') /\
    cut_max r' - fill_max r' == cut_max r - fill_max r + 0.3 /\
    cut_max r' == cut_max r + 0.3 - (bench_rl r' - bench_rl r) /\
    fill_max r' == fill_max r - (bench_rl r' - bench_rl r).
Proof.
  apply (raising_max_widens_range [10] [10.2] 10.4 0.3
           "S8/WM8 (310mm)"%string 0).
  - repeat constructor.
    + exists 10000%Z. reflexivity.
    + exists 10400%Z. reflexivity.
    + exists 10200%Z. reflexivity.
  - exists 300%Z. reflexivity.
  - reflexivity.
  - discriminate.
  - repeat constructor; discriminate.
Defined.

(** ** The compatibility check *)

Lemma neighbour_checks_render (side : Side) (diff : Q) (zero : bool)
    (warnings : list string) :
  neighbour_checks
    (match side with HighSide => msg_fence_high | LowSide => msg_fence_low end)
    (match side with HighSide => msg_cma_high | LowSide => msg_cma_low end)
    (match side with HighSide => msg_blockup_high | LowSide => msg_blockup_low end)
    diff zero warnings
  = (warnings ++ render_side side (side_advisory diff zero))%list.
Proof.
  unfold neighbour_checks, side_advisory, gt, le.
  destruct (Qle_bool diff 0), (Qle_bool diff (4 # 10)),
    (Qle_bool diff (6 # 10)), zero, side;
    cbn [negb andb render_side render_advisory];
    rewrite ?app_nil_r, <- ?app_assoc; reflexivity.
Qed.





Lemma site_warnings_rendered
    (bench ffl road_high_var road_low_var neigh1_var neigh2_var : Q)
    (zero1 zero2 : bool) :
  let road_high := round3 road_high_var in
  let road_low := round3 road_low_var in
  let neigh1 := round3 neigh1_var in
  let neigh2 := round3 neigh2_var in
  let first_is_high := ge neigh1 neigh2 in
  let neigh_high := if first_is_high then neigh1 else neigh2 in
  let neigh_low := if first_is_high then neigh2 else neigh1 in
  let zero_high := if first_is_high then zero1 else zero2 in
  let zero_low := if first_is_high then zero2 else zero1 in
  site_warnings bench ffl road_high_var road_low_var neigh1_var neigh2_var
    zero1 zero2
  = (when (gt road_high ffl && gt road_low ffl) msg_stormwater
     ++ when (le (Qabs (road_high - ffl)) (6 # 10)
              || le (Qabs (road_low - ffl)) (6 # 10)) msg_driveway
     ++ render_side HighSide (side_advisory (Qabs (neigh_high - bench)) zero_high)
     ++ render_side LowSide (side_advisory (Qabs (neigh_low - bench)) zero_low))%list.
Proof.
  cbv zeta. unfold site_warnings, py_abs.
  destruct (ge (round3 neigh1_var) (round3 neigh2_var));
    rewrite (neighbour_checks_render LowSide),
            (neighbour_checks_render HighSide);
    unfold when;
    destruct (gt (round3 road_high_var) ffl && gt (round3 road_low_var) ffl),
      (le (Qabs (round3 road_high_var - ffl)) (6 # 10)
       || le (Qabs (round3 road_low_var - ffl)) (6 # 10));
    cbn [app]; rewrite <- ?app_assoc; reflexivity.
Qed.



(** ** The prerequisite of the compatibility check *)

Lemma calculate_results_failure (py_float : string -> option Q)
    (rl_var slab_var : string) (min_ffl_var : Q) (app : App) :
  no_valid_levels py_float rl_var ->
  calculate_results py_float rl_var slab_var min_ffl_var app
    = (ErrorParsingRLs, mkApp None)
  \/ calculate_results py_float rl_var slab_var min_ffl_var app
    = (NoRLsProvided, mkApp None).
Proof.
  unfold no_valid_levels, rl_tokens, calculate_results.
  intros [H|H].
  - left. rewrite (parse_rounded_none _ _ H). reflexivity.
  - right. rewrite (parse_rounded_nil _ _ H). reflexivity.
Qed.

Lemma run_failed_calculations (py_float : string -> option Q)
    (presses : list Press) (app : App) :
  _main_results app = None ->
  Forall (fun p => no_valid_levels py_float (fst (fst p))) presses ->
  _main_results (run_calculations py_float presses app) = None.
Proof.
  unfold run_calculations. revert app.
  induction presses as [|p ps IH]; intros app Happ Hall; cbn [fold_left].
  - exact Happ.
  - inversion Hall as [|? ? Hp Hps]; subst. apply IH; [|exact Hps].
    destruct (calculate_results_failure py_float (fst (fst p)) (snd (fst p))
                (snd p) app Hp) as [E|E]; rewrite E; reflexivity.
Qed.

(** C10.  The compatibility check answers with the calculate-first message
    and no warnings whenever no level calculation has succeeded (initially,
    and after any number of failed calculations); and a calculation that
    fails on an unparsable or empty RL entry clears the stored results, so
    that a check after it gives that message even if an earlier calculation
    had succeeded. *)
Theorem site_checks_prerequisite :
  (forall (py_float : string -> option Q) (presses : list Press)
          (road_high_var road_low_var neigh1_var neigh2_var : Q)
          (zero1 zero2 : bool),
      Forall (fun p => no_valid_levels py_float (fst (fst p))) presses ->
      calculate_site_checks (run_calculations py_float presses initial_app)
        road_high_var road_low_var neigh1_var neigh2_var zero1 zero2
      = [msg_please_calculate])
  /\
  (forall (py_float : string -> option Q) (rl_var slab_var : string)
          (min_ffl_var : Q) (app : App)
          (road_high_var road_low_var neigh1_var neigh2_var : Q)
          (zero1 zero2 : bool),
      no_valid_levels py_float rl_var ->
      let result := calculate_results py_float rl_var slab_var min_ffl_var app in
      (fst result = ErrorParsingRLs \/ fst result = NoRLsProvided) /\
      _main_results (snd result) = None /\
      calculate_site_checks (snd result)
        road_high_var road_low_var neigh1_var neigh2_var zero1 zero2
      = [msg_please_calculate]).
Proof.
  split.
  - intros py_float presses rh rl n1 n2 z1 z2 Hall.
    unfold calculate_site_checks.
    rewrite (run_failed_calculations py_float presses initial_app eq_refl Hall).
    reflexivity.
  - intros py_float rl_var slab_var min_ffl_var app rh rl n1 n2 z1 z2 Hfail.
    cbv zeta.
    destruct (calculate_results_failure py_float rl_var slab_var min_ffl_var
                app Hfail) as [E|E]; rewrite E; cbn [fst snd];
      unfold calculate_site_checks; cbn [_main_results]; tauto.
Qed.

Lemma site_checks_prerequisite_witness :
  let app :=
    snd (calculate_results parse_decimal "10.0,10.2,10.4" "S8/WM8 (310mm)"
           0 initial_app) in
  _main_results app <> None /\
  calculate_site_checks
    (snd (calculate_results parse_decimal "10.0, abc" "S8/WM8 (310mm)" 0 app))
    11.2 11 10.5 9.5 true false
  = [msg_please_calculate].
Proof.
  cbv zeta. split.
  - vm_compute. discriminate.
  - apply (proj2 site_checks_prerequisite parse_decimal
             "10.0, abc"%string "S8/WM8 (310mm)"%string 0
             (snd (calculate_results parse_decimal "10.0,10.2,10.4"
                     "S8/WM8 (310mm)" 0 initial_app))
             11.2 11 10.5 9.5 true false).
    left. vm_compute. apply Exists_cons_tl. apply Exists_cons_hd. reflexivity.
Defined.

End BenchProofs.

(* ================================================================== *)
(** * Properties of the site tools                                     *)
(* ================================================================== *)

Module SiteProofs.

Import PyStr SiteTools SiteSpec.
Local Open Scope R_scope.

(** ** One row of the traversal *)

Lemma process_row_segment (py_float : string -> option R) (chain_var : bool)
    (idx : nat) (row : BoundaryRow) (cursor : Point) (d theta : R) :
  row_distance row = TkFloat d ->
  0 < d ->
  strip (row_bearing row) <> EmptyString ->
  parse_bearing py_float idx (strip (row_bearing row)) = Azimuth theta ->
  let distance := if chain_var then d * (201168 / 10000) else d in
  let azimuth := if row_flip row then py_mod (theta + 180) 360 else theta in
  let end_ := (fst cursor + distance * sin (radians azimuth),
               snd cursor + distance * cos (radians azimuth)) in
  process_row py_float chain_var idx row cursor
  = RowSegment
      (mkSegment (lower (row_type row)) cursor end_ idx distance azimuth)
      end_.
Proof.
  intros Hd Hpos Hne Hp. cbv zeta.
  unfold process_row. destruct cursor as [x y].
  rewrite Hd.
  destruct (Rle_dec d 0) as [Hle|_]; [exfalso; lra|].
  destruct (strip (row_bearing row)) eqn:Es; [congruence|].
  cbn [nonempty negb]. rewrite Hp. reflexivity.
Qed.

Lemma process_row_inv (py_float : string -> option R) (chain_var : bool)
    (idx : nat) (row : BoundaryRow) (cursor : Point)
    (seg : Segment) (cursor' : Point) :
  process_row py_float chain_var idx row cursor = RowSegment seg cursor' ->
  exists d theta,
    row_distance row = TkFloat d /\ 0 < d /\
    strip (row_bearing row) <> EmptyString /\
    parse_bearing py_float idx (strip (row_bearing row)) = Azimuth theta /\
    let distance := if chain_var then d * (201168 / 10000) else d in
    let azimuth := if row_flip row then py_mod (theta + 180) 360 else theta in
    let end_ := (fst cursor + distance * sin (radians azimuth),
                 snd cursor + distance * cos (radians azimuth)) in
    seg = mkSegment (lower (row_type row)) cursor end_ idx distance azimuth /\
    cursor' = end_.
Proof.
  unfold process_row. destruct cursor as [x y].
  destruct (row_distance row) as [d| |] eqn:Hd; try discriminate.
  destruct (Rle_dec d 0) as [Hle|Hgt]; [discriminate|].
  destruct (strip (row_bearing row)) eqn:Es; [discriminate|].
  cbn [nonempty negb].
  destruct (parse_bearing py_float idx (String a s)) as [theta|e] eqn:Hp;
    [|discriminate].
  intros H. injection H as <- <-.
  exists d, theta. cbv zeta. cbn [fst snd].
  repeat split; try reflexivity; try lra. discriminate.
Qed.

Lemma process_row_skips (py_float : string -> option R) (chain_var : bool)
    (idx : nat) (row : BoundaryRow) (cursor : Point) :
  skipped_record py_float idx row ->
  exists log, process_row py_float chain_var idx row cursor = RowSkipped log.
Proof.
  intros (d & Hd & H). unfold process_row. destruct cursor as [x y].
  rewrite Hd.
  destruct (Rle_dec d 0) as [Hle|Hgt]; [eexists; reflexivity|].
  destruct H as [H|[H|[e H]]].
  - exfalso. lra.
  - rewrite H. eexists. reflexivity.
  - destruct (strip (row_bearing row)) eqn:Es; [eexists; reflexivity|].
    cbn [nonempty negb]. rewrite H. eexists. reflexivity.
Qed.

(** ** The traversal *)

Lemma collect_segments_chained (py_float : string -> option R)
    (chain_var : bool) (rows : list BoundaryRow) :
  forall (idx : nat) (cursor : Point),
    chained cursor (fst (collect_segments py_float chain_var idx rows cursor)).
Proof.
  induction rows as [|row rest IH]; intros idx cursor; cbn [collect_segments].
  - exact I.
  - destruct (process_row py_float chain_var idx row cursor)
      as [log|seg cursor'] eqn:E.
    + specialize (IH (S idx) cursor).
      destruct (collect_segments py_float chain_var (S idx) rest cursor)
        as [segments logs].
      exact IH.
    + specialize (IH (S idx) cursor').
      destruct (collect_segments py_float chain_var (S idx) rest cursor')
        as [segments logs].
      destruct (process_row_inv _ _ _ _ _ _ _ E)
        as (d & theta & _ & _ & _ & _ & Hseg & Hc).
      cbv zeta in Hseg, Hc. subst seg cursor'.
      cbn [fst chained seg_start seg_end seg_distance seg_bearing].
      split; [reflexivity|]. split; [reflexivity|].
      exact IH.
Qed.

(** C2.  The traversal starts at (0,0); every segment it emits ends at
    start + distance * (sin azimuth, cos azimuth); each segment starts where
    the one before ended; and a record passed over for a distance <= 0, an
    empty bearing or an unparsable bearing leaves the cursor where it was:
    the records after it yield the segments they would yield without it. *)
Theorem traversal_invariants :
  forall (py_float : string -> option R) (chain_var : bool),
    (forall rows : list BoundaryRow,
        chained (0, 0)
          (fst (collect_segments py_float chain_var 0 rows (0, 0)))) /\
    (forall (idx : nat) (row : BoundaryRow) (rest : list BoundaryRow)
            (cursor : Point),
        skipped_record py_float idx row ->
        fst (collect_segments py_float chain_var idx (row :: rest) cursor)
        = fst (collect_segments py_float chain_var (S idx) rest cursor)).
Proof.
  intros py_float chain_var. split.
  - intros rows. apply collect_segments_chained.
  - intros idx row rest cursor Hskip.
    destruct (process_row_skips py_float chain_var idx row cursor Hskip)
      as [log E].
    cbn [collect_segments]. rewrite E.
    destruct (collect_segments py_float chain_var (S idx) rest cursor).
    reflexivity.
Qed.

Lemma traversal_invariants_witness :
  fst (collect_segments read_decimal false 0
         (mkRow "Side" (TkFloat 0) "90" false :: apply_site_preset 10 32) (0, 0))
  = fst (collect_segments read_decimal false 1 (apply_site_preset 10 32) (0, 0)).
Proof.
  apply (proj2 (traversal_invariants read_decimal false)).
  exists 0. split; [reflexivity|]. left. apply Rle_refl.
Defined.

(** ** Bearings *)


Lemma parse_bearing_dms (py_float : string -> option R) (idx : nat)
    (bearing p1 p2 p3 : string) (deg mins secs : R) :
  split_ws bearing = [p1; p2; p3] ->
  py_float p1 = Some deg -> py_float p2 = Some mins -> py_float p3 = Some secs ->
  parse_bearing py_float idx bearing = Azimuth (deg + mins / 60 + secs / 3600).
Proof.
  intros Hs H1 H2 H3. unfold parse_bearing. rewrite Hs, H1, H2, H3.
  reflexivity.
Qed.

Lemma parse_bearing_decimal (py_float : string -> option R) (idx : nat)
    (bearing p : string) (theta : R) :
  split_ws bearing = [p] -> py_float p = Some theta ->
  parse_bearing py_float idx bearing = Azimuth theta.
Proof.
  intros Hs H1. unfold parse_bearing. rewrite Hs, H1. reflexivity.
Qed.

Lemma parse_bearing_failure (py_float : string -> option R) (idx : nat)
    (bearing : string) :
  (List.length (split_ws bearing) <> 1%nat
   /\ List.length (split_ws bearing) <> 3%nat)
  \/ Exists (fun t => py_float t = None) (split_ws bearing) ->
  exists e,
    parse_bearing py_float idx bearing = ParseFailure e /\
    reports_bearing e (S idx) bearing.
Proof.
  unfold parse_bearing, reports_bearing.
  destruct (split_ws bearing) as [|p1 [|p2 [|p3 [|p4 ps]]]]; cbn [List.length].
  - intros _. eexists. split; [reflexivity|tauto].
  - intros [[H _]|H]; [congruence|].
    inversion H as [? ? H1|? ? H1]; subst; [|inversion H1].
    rewrite H1. eexists. split; [reflexivity|tauto].
  - intros _. eexists. split; [reflexivity|tauto].
  - intros [[_ H]|H]; [congruence|].
    assert (F : match py_float p1, py_float p2, py_float p3 with
                | Some _, Some _, Some _ => False
                | _, _, _ => True
                end).
    { inversion H as [? ? H1|? ? H1]; subst; [rewrite H1; exact I|].
      inversion H1 as [? ? H2|? ? H2]; subst;
        [rewrite H2; destruct (py_float p1); exact I|].
      inversion H2 as [? ? H3|? ? H3]; subst; [|inversion H3].
      rewrite H3. destruct (py_float p1), (py_float p2); exact I. }
    destruct (py_float p1), (py_float p2), (py_float p3);
      try contradiction; eexists; (split; [reflexivity|tauto]).
  - intros _. eexists. split; [reflexivity|tauto].
Qed.





(** ** The traversal of rectangles and the closing edge *)

Lemma radians_0 : radians 0 = 0.
Proof. unfold radians. field. Qed.
Lemma radians_90 : radians 90 = PI / 2.
Proof. unfold radians. field. Qed.
Lemma radians_180 : radians 180 = PI.
Proof. unfold radians. field. Qed.
Lemma radians_270 : radians 270 = 3 * (PI / 2).
Proof. unfold radians. field. Qed.

Lemma collect_segments_segment (py_float : string -> option R)
    (chain_var : bool) (idx : nat) (row : BoundaryRow)
    (rest : list BoundaryRow) (cursor cursor' : Point) (seg : Segment)
    (segments : list Segment) (logs : list Event) :
  process_row py_float chain_var idx row cursor = RowSegment seg cursor' ->
  collect_segments py_float chain_var (S idx) rest cursor' = (segments, logs) ->
  collect_segments py_float chain_var idx (row :: rest) cursor
  = (seg :: segments, logs).
Proof.
  intros E1 E2. cbn [collect_segments]. rewrite E1, E2. reflexivity.
Qed.

Lemma collect_segments_skip (py_float : string -> option R)
    (chain_var : bool) (idx : nat) (row : BoundaryRow)
    (rest : list BoundaryRow) (cursor : Point) (log : list Event)
    (segments : list Segment) (logs : list Event) :
  process_row py_float chain_var idx row cursor = RowSkipped log ->
  collect_segments py_float chain_var (S idx) rest cursor = (segments, logs) ->
  collect_segments py_float chain_var idx (row :: rest) cursor
  = (segments, log ++ logs).
Proof.
  intros E1 E2. cbn [collect_segments]. rewrite E1, E2. reflexivity.
Qed.

Lemma process_default_row (py_float : string -> option R) (chain_var : bool)
    (idx : nat) (cursor : Point) :
  process_row py_float chain_var idx default_row cursor = RowSkipped [].
Proof.
  unfold process_row, default_row. destruct cursor as [x y].
  cbn [row_distance]. destruct (Rle_dec 0 0) as [_|H]; [reflexivity|].
  exfalso. apply H. apply Rle_refl.
Qed.

(** A row along one of the four axes. *)
Lemma process_row_axis (py_float : string -> option R) (idx : nat)
    (type text : string) (d theta s c x y : R) :
  py_float text = Some theta ->
  split_ws (strip text) = [text] ->
  0 < d ->
  sin (radians theta) = s -> cos (radians theta) = c ->
  process_row py_float false idx (mkRow type (TkFloat d) text false) (x, y)
  = RowSegment
      (mkSegment (lower type) (x, y) (x + d * s, y + d * c) idx d theta)
      (x + d * s, y + d * c).
Proof.
  intros Hf Hs Hd <- <-.
  assert (Hne : strip text <> EmptyString).
  { intros E. rewrite E in Hs. discriminate Hs. }
  apply (process_row_segment py_float false idx
           (mkRow type (TkFloat d) text false) (x, y) d theta);
    [reflexivity|exact Hd|exact Hne|].
  apply (parse_bearing_decimal _ _ _ text); assumption.
Qed.

Section Rectangles.

Variable py_float : string -> option R.
Hypothesis read_0 : py_float "0" = Some 0.
Hypothesis read_90 : py_float "90" = Some 90.
Hypothesis read_180 : py_float "180" = Some 180.
Hypothesis read_270 : py_float "270" = Some 270.

Lemma west (idx : nat) (type : string) (d x y : R) :
  0 < d ->
  process_row py_float false idx (mkRow type (TkFloat d) "270" false) (x, y)
  = RowSegment (mkSegment (lower type) (x, y) (x - d, y) idx d 270) (x - d, y).
Proof.
  intros Hd.
  rewrite (process_row_axis py_float idx type "270" d 270 (-1) 0 x y);
    try assumption; try reflexivity.
  - replace (x + d * -1) with (x - d) by ring.
    replace (y + d * 0) with y by ring. reflexivity.
  - rewrite radians_270. apply sin_3PI2.
  - rewrite radians_270. apply cos_3PI2.
Qed.

Lemma north (idx : nat) (type : string) (d x y : R) :
  0 < d ->
  process_row py_float false idx (mkRow type (TkFloat d) "0" false) (x, y)
  = RowSegment (mkSegment (lower type) (x, y) (x, y + d) idx d 0) (x, y + d).
Proof.
  intros Hd.
  rewrite (process_row_axis py_float idx type "0" d 0 0 1 x y);
    try assumption; try reflexivity.
  - replace (x + d * 0) with x by ring.
    replace (y + d * 1) with (y + d) by ring. reflexivity.
  - rewrite radians_0. apply sin_0.
  - rewrite radians_0. apply cos_0.
Qed.

Lemma east (idx : nat) (type : string) (d x y : R) :
  0 < d ->
  process_row py_float false idx (mkRow type (TkFloat d) "90" false) (x, y)
  = RowSegment (mkSegment (lower type) (x, y) (x + d, y) idx d 90) (x + d, y).
Proof.
  intros Hd.
  rewrite (process_row_axis py_float idx type "90" d 90 1 0 x y);
    try assumption; try reflexivity.
  - replace (x + d * 1) with (x + d) by ring.
    replace (y + d * 0) with y by ring. reflexivity.
  - rewrite radians_90. apply sin_PI2.
  - rewrite radians_90. apply cos_PI2.
Qed.

Lemma south (idx : nat) (type : string) (d x y : R) :
  0 < d ->
  process_row py_float false idx (mkRow type (TkFloat d) "180" false) (x, y)
  = RowSegment (mkSegment (lower type) (x, y) (x, y - d) idx d 180) (x, y - d).
Proof.
  intros Hd.
  rewrite (process_row_axis py_float idx type "180" d 180 0 (-1) x y);
    try assumption; try reflexivity.
  - replace (x + d * 0) with x by ring.
    replace (y + d * -1) with (y - d) by ring. reflexivity.
  - rewrite radians_180. apply sin_PI.
  - rewrite radians_180. apply cos_PI.
Qed.

Lemma preset_segments (width depth : R) :
  0 < width -> 0 < depth ->
  collect_segments py_float false 0 (apply_site_preset width depth) (0, 0)
  = ([ mkSegment "side" (0, 0) (0 - depth, 0) 0 depth 270;
       mkSegment "rear" (0 - depth, 0) (0 - depth, 0 + width) 1 width 0;
       mkSegment "side" (0 - depth, 0 + width)
         (0 - depth + depth, 0 + width) 2 depth 90;
       mkSegment "frontage" (0 - depth + depth, 0 + width)
         (0 - depth + depth, 0 + width - width) 3 width 180 ],
     []).
Proof.
  intros Hw Hd. unfold apply_site_preset.
  eapply collect_segments_segment; [apply west; exact Hd|].
  eapply collect_segments_segment; [apply north; exact Hw|].
  eapply collect_segments_segment; [apply east; exact Hd|].
  eapply collect_segments_segment; [apply south; exact Hw|].
  cbn [collect_segments]. rewrite !process_default_row. reflexivity.
Qed.

Lemma shortened_segments (width depth : R) :
  0 < width -> 1 < depth ->
  collect_segments py_float false 0 (shortened_rectangle width depth) (0, 0)
  = ([ mkSegment "side" (0, 0) (0 - depth, 0) 0 depth 270;
       mkSegment "rear" (0 - depth, 0) (0 - depth, 0 + width) 1 width 0;
       mkSegment "side" (0 - depth, 0 + width)
         (0 - depth + (depth - 1), 0 + width) 2 (depth - 1) 90;
       mkSegment "frontage" (0 - depth + (depth - 1), 0 + width)
         (0 - depth + (depth - 1), 0 + width - width) 3 width 180 ],
     []).
Proof.
  intros Hw Hd. unfold shortened_rectangle.
  eapply collect_segments_segment; [apply west; lra|].
  eapply collect_segments_segment; [apply north; exact Hw|].
  eapply collect_segments_segment; [apply east; lra|].
  eapply collect_segments_segment; [apply south; exact Hw|].
  reflexivity.
Qed.

End Rectangles.

Lemma tol_pos : 0 < tol.
Proof. unfold tol. lra. Qed.

Lemma draw_closing_cases (first second : Segment) (others : list Segment) :
  let first_start := seg_start first in
  let last_end := seg_end (last (second :: others) first) in
  (closed_within_tol first_start last_end ->
   draw_closing (first :: second :: others) = []) /\
  (~ closed_within_tol first_start last_end ->
   draw_closing (first :: second :: others)
   = closing_edge first_start last_end).
Proof.
  cbv zeta. unfold draw_closing, closed_within_tol, closing_edge, last_segment.
  destruct (Rgt_dec _ tol) as [Hx|Hx]; [|destruct (Rgt_dec _ tol) as [Hy|Hy]].
  - split; [intros [H _]; exfalso; lra|reflexivity].
  - split; [intros [_ H]; exfalso; lra|reflexivity].
  - split; [reflexivity|]. intros H. exfalso. apply H. split; lra.
Qed.

Lemma read_decimal_literal (s : string) (z : Z) :
  parse_decimal s = Some (inject_Z z) -> read_decimal s = Some (IZR z).
Proof.
  intros H. unfold read_decimal. rewrite H. cbn [option_map]. f_equal.
  unfold Q2R, inject_Z. cbn [Qnum Qden]. field.
Qed.

Lemma read_decimal_0 : read_decimal "0" = Some 0.
Proof. apply (read_decimal_literal "0" 0). reflexivity. Qed.
Lemma read_decimal_90 : read_decimal "90" = Some 90.
Proof. apply (read_decimal_literal "90" 90). reflexivity. Qed.
Lemma read_decimal_180 : read_decimal "180" = Some 180.
Proof. apply (read_decimal_literal "180" 180). reflexivity. Qed.
Lemma read_decimal_270 : read_decimal "270" = Some 270.
Proof. apply (read_decimal_literal "270" 270). reflexivity. Qed.

Lemma not_closed_far (a b : Point) :
  tol < Rabs (fst a - fst b) \/ tol < Rabs (snd a - snd b) ->
  ~ closed_within_tol a b.
Proof. unfold closed_within_tol. intros [H|H] [H1 H2]; lra. Qed.

(** C7, the statement as written fails: a traversal of one segment, ten
    metres north, is open by ten metres and gets no closing edge. *)
Lemma single_segment_gets_no_closing_edge :
  exists seg,
    fst (collect_segments read_decimal false 0
           [mkRow "Side" (TkFloat 10) "0" false] (0, 0)) = [seg] /\
    seg_start seg = (0, 0) /\ seg_end seg = (0, 0 + 10) /\
    ~ closed_within_tol (seg_start seg) (seg_end seg) /\
    draw_closing [seg] = [].
Proof.
  exists (mkSegment "side" (0, 0) (0, 0 + 10) 0 10 0).
  split.
  - rewrite (collect_segments_segment read_decimal false 0 _ [] (0, 0)
               (0, 0 + 10) (mkSegment "side" (0, 0) (0, 0 + 10) 0 10 0) [] []).
    + reflexivity.
    + apply (north read_decimal read_decimal_0 0 "Side" 10 0 0). lra.
    + reflexivity.
  - cbn [seg_start seg_end]. repeat split.
    apply not_closed_far. right. cbn [fst snd]. unfold tol.
    replace (0 - (0 + 10)) with (- (10)) by ring.
    rewrite Rabs_Ropp, Rabs_right; lra.
Qed.

(** C7, amended.  For a traversal of at least two segments: no closing
    edge is drawn when first start and last end coincide within 1e-6, and
    exactly one closing edge from the last end to the first start is drawn
    when they do not; a single segment never gets one.  The preset
    rectangle yields no closing edge; with one side a metre short it yields
    the one closing edge from (-1, 0) to (0, 0). *)
Theorem closing_edge_contract :
  (forall (first second : Segment) (others : list Segment),
      let first_start := seg_start first in
      let last_end := seg_end (last (second :: others) first) in
      (closed_within_tol first_start last_end ->
       draw_closing (first :: second :: others) = []) /\
      (~ closed_within_tol first_start last_end ->
       draw_closing (first :: second :: others)
       = closing_edge first_start last_end)) /\
  (forall seg : Segment, draw_closing [seg] = []) /\
  (forall (py_float : string -> option R) (width depth : R),
      py_float "0"%string = Some 0 -> py_float "90"%string = Some 90 ->
      py_float "180"%string = Some 180 -> py_float "270"%string = Some 270 ->
      0 < width -> 0 < depth ->
      draw_closing
        (fst (collect_segments py_float false 0
                (apply_site_preset width depth) (0, 0))) = []) /\
  (forall (py_float : string -> option R) (width depth : R),
      py_float "0"%string = Some 0 -> py_float "90"%string = Some 90 ->
      py_float "180"%string = Some 180 -> py_float "270"%string = Some 270 ->
      0 < width -> 1 < depth ->
      draw_closing
        (fst (collect_segments py_float false 0
                (shortened_rectangle width depth) (0, 0)))
      = closing_edge (0, 0) (-1, 0)).
Proof.
  split; [exact draw_closing_cases|]. split; [reflexivity|]. split.
  - intros py_float width depth H0 H90 H180 H270 Hw Hd.
    rewrite (preset_segments py_float H0 H90 H180 H270 width depth Hw Hd).
    cbn [fst]. apply draw_closing_cases.
    unfold closed_within_tol. cbn [last seg_start seg_end fst snd].
    pose proof tol_pos.
    replace (0 - (0 - depth + depth)) with 0 by ring.
    replace (0 - (0 + width - width)) with 0 by ring.
    rewrite Rabs_R0. lra.
  - intros py_float width depth H0 H90 H180 H270 Hw Hd.
    rewrite (shortened_segments py_float H0 H90 H180 H270 width depth Hw Hd).
    cbn [fst].
    match goal with
    | |- draw_closing (?f :: ?s :: ?o) = _ =>
        rewrite (proj2 (draw_closing_cases f s o))
    end.
    + cbn [last seg_start seg_end]. unfold closing_edge.
      replace (0 - depth + (depth - 1)) with (-1) by ring.
      replace (0 + width - width) with 0 by ring. reflexivity.
    + apply not_closed_far. left. cbn [last seg_start seg_end fst snd].
      unfold tol.
      replace (0 - (0 - depth + (depth - 1))) with 1 by ring.
      rewrite Rabs_right; lra.
Qed.

Lemma closing_edge_contract_witness :
  draw_closing
    (fst (collect_segments read_decimal false 0
            (shortened_rectangle 10 32) (0, 0)))
  = closing_edge (0, 0) (-1, 0).
Proof.
  apply (proj2 (proj2 (proj2 closing_edge_contract)) read_decimal 10 32
           read_decimal_0 read_decimal_90 read_decimal_180 read_decimal_270);
    lra.
Defined.

(** ** The bearing parser in the traversal *)

Lemma process_row_blank (py_float : string -> option R) (chain_var : bool)
    (idx : nat) (row : BoundaryRow) (cursor : Point) (d : R) :
  row_distance row = TkFloat d ->
  strip (row_bearing row) = EmptyString ->
  process_row py_float chain_var idx row cursor = RowSkipped [].
Proof.
  intros Hd Hb. unfold process_row. destruct cursor as [x y].
  rewrite Hd, Hb. destruct (Rle_dec d 0); reflexivity.
Qed.

Lemma process_row_unparsable (py_float : string -> option R)
    (chain_var : bool) (idx : nat) (row : BoundaryRow) (cursor : Point)
    (d : R) (e : Event) :
  row_distance row = TkFloat d ->
  0 < d ->
  strip (row_bearing row) <> EmptyString ->
  parse_bearing py_float idx (strip (row_bearing row)) = ParseFailure e ->
  process_row py_float chain_var idx row cursor = RowSkipped [e].
Proof.
  intros Hd Hpos Hne Hp. unfold process_row. destruct cursor as [x y].
  rewrite Hd. destruct (Rle_dec d 0) as [Hle|_]; [exfalso; lra|].
  destruct (strip (row_bearing row)) eqn:Es; [congruence|].
  cbn [nonempty negb]. rewrite Hp. reflexivity.
Qed.

(** C6, the statement as written fails: a bearing of blanks has no token
    at all, a count other than 1 and 3, yet the record is passed over
    without any report. *)
Lemma blank_bearing_skipped_without_report :
  split_ws (strip "   ") = [] /\
  process_row read_decimal false 0
    (mkRow "Side" (TkFloat 10) "   " false) (0, 0) = RowSkipped [] /\
  collect_segments read_decimal false 0
    [mkRow "Side" (TkFloat 10) "   " false] (0, 0) = ([], []).
Proof.
  assert (E : process_row read_decimal false 0
                (mkRow "Side" (TkFloat 10) "   " false) (0, 0) = RowSkipped []).
  { apply (process_row_blank _ _ _ _ _ 10); reflexivity. }
  split; [reflexivity|]. split; [exact E|].
  cbn [collect_segments]. rewrite E. reflexivity.
Qed.

(** C6, amended.  Three numeric tokens give deg + min/60 + sec/3600; one
    numeric token gives its value; every other token count and every
    non-numeric token is a failure that reports the row and the text, and
    in a row with a positive distance and a non-blank bearing it skips
    that record only; the flip adds 180 modulo 360 to the combined value;
    a blank bearing is passed over without a report. *)
Theorem bearing_parse_contract :
  forall py_float : string -> option R,
    (forall (idx : nat) (bearing p1 p2 p3 : string) (deg mins secs : R),
        split_ws bearing = [p1; p2; p3] ->
        py_float p1 = Some deg -> py_float p2 = Some mins ->
        py_float p3 = Some secs ->
        parse_bearing py_float idx bearing
        = Azimuth (deg + mins / 60 + secs / 3600)) /\
    (forall (idx : nat) (bearing p : string) (theta : R),
        split_ws bearing = [p] -> py_float p = Some theta ->
        parse_bearing py_float idx bearing = Azimuth theta) /\
    (forall (idx : nat) (bearing : string),
        (List.length (split_ws bearing) <> 1%nat
         /\ List.length (split_ws bearing) <> 3%nat)
        \/ Exists (fun t => py_float t = None) (split_ws bearing) ->
        exists e,
          parse_bearing py_float idx bearing = ParseFailure e /\
          reports_bearing e (S idx) bearing) /\
    (forall (chain_var : bool) (idx : nat) (row : BoundaryRow)
            (rest : list BoundaryRow) (cursor : Point) (d : R) (e : Event),
        row_distance row = TkFloat d -> 0 < d ->
        strip (row_bearing row) <> EmptyString ->
        parse_bearing py_float idx (strip (row_bearing row)) = ParseFailure e ->
        collect_segments py_float chain_var idx (row :: rest) cursor
        = (fst (collect_segments py_float chain_var (S idx) rest cursor),
           e :: snd (collect_segments py_float chain_var (S idx) rest cursor))) /\
    (forall (chain_var : bool) (idx : nat) (row : BoundaryRow)
            (cursor : Point) (d theta : R),
        row_distance row = TkFloat d -> 0 < d ->
        strip (row_bearing row) <> EmptyString ->
        parse_bearing py_float idx (strip (row_bearing row)) = Azimuth theta ->
        exists seg cursor',
          process_row py_float chain_var idx row cursor
          = RowSegment seg cursor' /\
          seg_bearing seg
          = if row_flip row then py_mod (theta + 180) 360 else theta) /\
    (forall (chain_var : bool) (idx : nat) (row : BoundaryRow)
            (cursor : Point) (d : R),
        row_distance row = TkFloat d ->
        strip (row_bearing row) = EmptyString ->
        process_row py_float chain_var idx row cursor = RowSkipped []).
Proof.
  intros py_float.
  split; [intros; eapply parse_bearing_dms; eassumption|].
  split; [intros; eapply parse_bearing_decimal; eassumption|].
  split; [intros; apply parse_bearing_failure; assumption|].
  split; [|split].
  - intros chain_var idx row rest cursor d e Hd Hpos Hne Hp.
    cbn [collect_segments].
    rewrite (process_row_unparsable _ _ _ _ _ d e Hd Hpos Hne Hp).
    destruct (collect_segments py_float chain_var (S idx) rest cursor).
    reflexivity.
  - intros chain_var idx row cursor d theta Hd Hpos Hne Hp.
    pose proof (process_row_segment py_float chain_var idx row cursor d theta
                  Hd Hpos Hne Hp) as E.
    cbv zeta in E. rewrite E. do 2 eexists. split; reflexivity.
  - intros chain_var idx row cursor d Hd Hb.
    apply (process_row_blank _ _ _ _ _ d); assumption.
Qed.

Lemma bearing_parse_contract_witness :
  exists e,
    parse_bearing read_decimal 4 "12 30" = ParseFailure e /\
    reports_bearing e 5 "12 30".
Proof.
  apply (proj1 (proj2 (proj2 (bearing_parse_contract read_decimal))) 4%nat
           "12 30"%string).
  left. split; discriminate.
Defined.

(** ** Offsets *)

Lemma hypot_zero_iff (dx dy : R) : hypot dx dy = 0 <-> dx = 0 /\ dy = 0.
Proof.
  unfold hypot. split.
  - intros H. apply sqrt_eq_0 in H; [|nra]. split; nra.
  - intros [-> ->]. replace (0 * 0 + 0 * 0) with 0 by ring. apply sqrt_0.
Qed.

Lemma hypot_nondegenerate (seg : Segment) :
  seg_start seg <> seg_end seg ->
  hypot (fst (seg_end seg) - fst (seg_start seg))
        (snd (seg_end seg) - snd (seg_start seg)) <> 0.
Proof.
  intros Hne H. apply hypot_zero_iff in H. destruct H as [Hx Hy].
  apply Hne. destruct (seg_start seg) as [sx sy], (seg_end seg) as [ex ey].
  cbn [fst snd] in *. f_equal; lra.
Qed.

Lemma hypot_degenerate (seg : Segment) :
  seg_start seg = seg_end seg ->
  hypot (fst (seg_end seg) - fst (seg_start seg))
        (snd (seg_end seg) - snd (seg_start seg)) = 0.
Proof.
  intros ->. apply hypot_zero_iff. split; ring.
Qed.

Lemma offset_line_shifted (seg : Segment) (offset : R) :
  seg_start seg <> seg_end seg ->
  offset_line (seg_start seg) (seg_end seg)
    (fst (seg_end seg) - fst (seg_start seg))
    (snd (seg_end seg) - snd (seg_start seg))
    (hypot (fst (seg_end seg) - fst (seg_start seg))
           (snd (seg_end seg) - snd (seg_start seg)))
    offset
  = ([], Some (shifted seg offset)).
Proof.
  intros Hne. pose proof (hypot_nondegenerate seg Hne) as HL.
  unfold offset_line, py_div, shifted.
  destruct (Req_dec_T _ 0) as [E|_]; [contradiction|].
  reflexivity.
Qed.

Lemma offset_line_raises (start end_ : Point) (dx dy offset : R) :
  offset_line start end_ dx dy 0 offset = ([], None).
Proof.
  unfold offset_line, py_div.
  destruct (Req_dec_T 0 0) as [_|E]; [reflexivity|congruence].
Qed.

Section Setbacks.
Variables front side rear secondary front_min front_hab garage : R.
Let sv := setback_vars_of front side rear secondary front_min front_hab garage.

Lemma front_setbacks_lines (seg : Segment) :
  seg_start seg <> seg_end seg ->
  front_setbacks sv seg front_keys
  = (setback_line (Some "Front Min"%string) "Front Min" (shifted seg (- Rabs front_min))
     ++ setback_line (Some "Front Habitable"%string) "Front Habitable"
          (shifted seg (- Rabs front_hab))
     ++ setback_line (Some "Garage"%string) "Garage" (shifted seg (- Rabs garage)),
     Some tt).
Proof.
  intros Hne. pose proof (hypot_nondegenerate seg Hne) as HL.
  unfold front_keys. cbn [front_setbacks].
  change (lookup "front_min" sv) with (Some front_min).
  change (lookup "front_hab" sv) with (Some front_hab).
  change (lookup "garage" sv) with (Some garage).
  cbn [of_option bind app].
  destruct (Req_dec_T _ 0) as [E|_]; [contradiction|].
  rewrite !(offset_line_shifted seg _ Hne).
  reflexivity.
Qed.
End Setbacks.

(** C8.  For a segment that is not degenerate, every offset line is the
    segment translated by offset * (-dy / L, dx / L); each setback offset is
    minus the absolute value of the configured distance; a Frontage segment
    yields the three setback lines front_min, front_hab, garage and one road
    line at +4.25; a Secondary segment yields the secondary setback and the
    +4.25 road line; Side and Rear yield their own setback and no road
    line. *)
Theorem offsets_per_segment_type :
  forall (front side rear secondary front_min front_hab garage : R)
         (seg : Segment),
    seg_start seg <> seg_end seg ->
    let sv :=
      setback_vars_of front side rear secondary front_min front_hab garage in
    (seg_type seg = lower "Frontage" ->
       offset_segment sv seg
       = (setback_line (Some "Front Min"%string) "Front Min"
            (shifted seg (- Rabs front_min))
          ++ setback_line (Some "Front Habitable"%string) "Front Habitable"
               (shifted seg (- Rabs front_hab))
          ++ setback_line (Some "Garage"%string) "Garage"
               (shifted seg (- Rabs garage))
          ++ road_line "Frontage" (shifted seg (425 / 100))
          ++ [LogTextLabelNotCreated],
          Some tt)) /\
    (seg_type seg = lower "Secondary" ->
       offset_segment sv seg
       = (setback_line None "Secondary" (shifted seg (- Rabs secondary))
          ++ road_line "Secondary" (shifted seg (425 / 100))
          ++ [LogTextLabelNotCreated],
          Some tt)) /\
    (seg_type seg = lower "Side" ->
       offset_segment sv seg
       = (setback_line None "Side" (shifted seg (- Rabs side))
          ++ [LogTextLabelNotCreated],
          Some tt)) /\
    (seg_type seg = lower "Rear" ->
       offset_segment sv seg
       = (setback_line None "Rear" (shifted seg (- Rabs rear))
          ++ [LogTextLabelNotCreated],
          Some tt)).
Proof.
  intros front side rear secondary front_min front_hab garage seg Hne sv.
  pose proof (hypot_nondegenerate seg Hne) as HL.
  repeat split; intros Ht; unfold offset_segment; rewrite Ht.
  - change (lower "Frontage") with "frontage"%string.
    cbn [String.eqb Ascii.eqb Bool.eqb orb].
    unfold sv. rewrite (front_setbacks_lines _ _ _ _ _ _ _ seg Hne).
    unfold road_offset. rewrite (offset_line_shifted seg _ Hne).
    unfold setback_line, road_line. reflexivity.
  - change (lower "Secondary") with "secondary"%string.
    cbn [String.eqb Ascii.eqb Bool.eqb orb].
    destruct (Req_dec_T _ 0) as [E|_]; [contradiction|].
    unfold road_offset. rewrite !(offset_line_shifted seg _ Hne).
    unfold setback_line, road_line. reflexivity.
  - change (lower "Side") with "side"%string.
    cbn [String.eqb Ascii.eqb Bool.eqb orb].
    destruct (Req_dec_T _ 0) as [E|_]; [contradiction|].
    rewrite !(offset_line_shifted seg _ Hne).
    unfold setback_line. reflexivity.
  - change (lower "Rear") with "rear"%string.
    cbn [String.eqb Ascii.eqb Bool.eqb orb].
    destruct (Req_dec_T _ 0) as [E|_]; [contradiction|].
    rewrite !(offset_line_shifted seg _ Hne).
    unfold setback_line. reflexivity.
Qed.

Lemma offsets_per_segment_type_witness :
  offset_segment (setback_vars_of 6 (15 / 10) 3 2 3 (345 / 100) 3)
    (mkSegment "side" (0, 0) (0, 10) 0 10 0)
  = (setback_line None "Side"
       (shifted (mkSegment "side" (0, 0) (0, 10) 0 10 0) (- Rabs (15 / 10)))
     ++ [LogTextLabelNotCreated],
     Some tt).
Proof.
  apply (offsets_per_segment_type 6 (15 / 10) 3 2 3 (345 / 100) 3
           (mkSegment "side" (0, 0) (0, 10) 0 10 0)).
  - cbn [seg_start seg_end]. intros H. injection H as H. lra.
  - reflexivity.
Defined.

Lemma front_setbacks_skipped (sv : SetbackVars) (seg : Segment)
    (v1 v2 v3 : R) :
  seg_start seg = seg_end seg ->
  lookup "front_min" sv = Some v1 ->
  lookup "front_hab" sv = Some v2 ->
  lookup "garage" sv = Some v3 ->
  front_setbacks sv seg front_keys
  = ([LogSkipZeroLengthSetback (S (seg_idx seg)) (Some "Front Min"%string);
      LogSkipZeroLengthSetback (S (seg_idx seg)) (Some "Front Habitable"%string);
      LogSkipZeroLengthSetback (S (seg_idx seg)) (Some "Garage"%string)],
     Some tt).
Proof.
  intros Hz H1 H2 H3. pose proof (hypot_degenerate seg Hz) as HL.
  unfold front_keys. cbn [front_setbacks]. rewrite H1, H2, H3.
  cbn [of_option bind app].
  destruct (Req_dec_T _ 0) as [_|E]; [|contradiction].
  reflexivity.
Qed.

Lemma frontage_zero_length_raises (sv : SetbackVars) (seg : Segment)
    (rest : list Segment) (v1 v2 v3 : R) :
  seg_type seg = "frontage"%string ->
  seg_start seg = seg_end seg ->
  lookup "front_min" sv = Some v1 ->
  lookup "front_hab" sv = Some v2 ->
  lookup "garage" sv = Some v3 ->
  draw_offsets sv (seg :: rest)
  = [LogSkipZeroLengthSetback (S (seg_idx seg)) (Some "Front Min"%string);
     LogSkipZeroLengthSetback (S (seg_idx seg)) (Some "Front Habitable"%string);
     LogSkipZeroLengthSetback (S (seg_idx seg)) (Some "Garage"%string);
     LogArchicadError].
Proof.
  intros Ht Hz H1 H2 H3.
  unfold draw_offsets. cbn [offset_loop]. unfold offset_segment.
  rewrite Ht. cbn [String.eqb Ascii.eqb Bool.eqb orb].
  rewrite (front_setbacks_skipped sv seg v1 v2 v3 Hz H1 H2 H3).
  rewrite (hypot_degenerate seg Hz), offset_line_raises.
  reflexivity.
Qed.

(** C4, evaluated where it fails.  A frontage segment of zero length,
    followed by a rear segment: the three front setbacks are skipped and
    logged, then the road line divides by the zero length, the handler
    writes the Archicad error line and the rear segment is never reached. *)
Theorem frontage_zero_length_aborts_offsets :
  let sv := setback_vars_of 6 (15 / 10) 3 2 3 (345 / 100) 3 in
  let frontage := mkSegment "frontage" (3, 4) (3, 4) 1 (1 / 10 ^ 20) 0 in
  let rear := mkSegment "rear" (3, 4) (8, 4) 2 5 90 in
  draw_offsets sv [frontage; rear]
  = [LogSkipZeroLengthSetback 2 (Some "Front Min"%string);
     LogSkipZeroLengthSetback 2 (Some "Front Habitable"%string);
     LogSkipZeroLengthSetback 2 (Some "Garage"%string);
     LogArchicadError].
Proof.
  cbv zeta.
  exact (frontage_zero_length_raises
           (setback_vars_of 6 (15 / 10) 3 2 3 (345 / 100) 3)
           (mkSegment "frontage" (3, 4) (3, 4) 1 (1 / 10 ^ 20) 0)
           [mkSegment "rear" (3, 4) (8, 4) 2 5 90]
           3 (345 / 100) 3 eq_refl eq_refl eq_refl eq_refl eq_refl).
Qed.

Lemma side_zero_length_continues (sv : SetbackVars) (seg : Segment)
    (rest : list Segment) :
  seg_type seg = "side"%string ->
  seg_start seg = seg_end seg ->
  offset_loop sv (seg :: rest)
  = bind (emit [LogSkipZeroLengthSetback (S (seg_idx seg)) None])
         (fun _ => offset_loop sv rest).
Proof.
  intros Ht Hz. cbn [offset_loop]. unfold offset_segment.
  rewrite Ht. cbn [String.eqb Ascii.eqb Bool.eqb orb].
  rewrite (hypot_degenerate seg Hz).
  destruct (Req_dec_T 0 0) as [_|E]; [reflexivity|congruence].
Qed.

End SiteProofs.

(* ================================================================== *)
(** * Further properties of the bench tools                            *)
(* ================================================================== *)

Module BenchMoreProofs.

Import PyStr BenchTools BenchSpec BenchProofs BenchMore.
Local Open Scope Q_scope.

(** ** Rounding against three-decimal bounds *)

Lemma round_half_even_floor (q : Q) :
  (Qfloor q <= round_half_even q <= Qfloor q + 1)%Z.
Proof.
  unfold round_half_even.
  destruct (Qcompare (q - inject_Z (Qfloor q)) (1 # 2));
    [destruct (Z.even (Qfloor q))|..]; lia.
Qed.

Lemma round_half_even_lower (q : Q) (z : Z) :
  inject_Z z <= q -> (z <= round_half_even q)%Z.
Proof.
  intros H. pose proof (round_half_even_floor q) as [F _].
  apply Z.le_trans with (Qfloor q); [|exact F].
  rewrite <- (Qfloor_Z z). apply Qfloor_resp_le. exact H.
Qed.

Lemma round_half_even_upper (q : Q) (z : Z) :
  q <= inject_Z z -> (round_half_even q <= z)%Z.
Proof.
  intros H.
  assert (Fz : (Qfloor q <= z)%Z).
  { rewrite <- (Qfloor_Z z). apply Qfloor_resp_le. exact H. }
  destruct (Z.eq_dec (Qfloor q) z) as [E|N].
  - assert (Eq : q == inject_Z z).
    { apply Qle_antisym; [exact H|]. rewrite <- E. apply Qfloor_le. }
    rewrite (round_half_even_comp _ _ Eq), round_half_even_inject_Z. lia.
  - pose proof (round_half_even_floor q) as [_ F]. lia.
Qed.

Lemma round3_lower (q t : Q) : three_decimals t -> t <= q -> t <= round3 q.
Proof.
  intros [z E] H. unfold round3. rewrite Qred_correct, E.
  assert (L : (z <= round_half_even (q * 1000))%Z).
  { apply round_half_even_lower. rewrite E in H.
    apply (Qmult_le_compat_r _ _ 1000) in H; [|discriminate].
    setoid_replace (inject_Z z) with (inject_Z z / 1000 * 1000) by field.
    exact H. }
  apply Qmult_le_compat_r; [|discriminate].
  rewrite <- Zle_Qle. exact L.
Qed.

Lemma round3_upper (q t : Q) : three_decimals t -> q <= t -> round3 q <= t.
Proof.
  intros [z E] H. unfold round3. rewrite Qred_correct, E.
  assert (L : (round_half_even (q * 1000) <= z)%Z).
  { apply round_half_even_upper. rewrite E in H.
    apply (Qmult_le_compat_r _ _ 1000) in H; [|discriminate].
    setoid_replace (inject_Z z) with (inject_Z z / 1000 * 1000) by field.
    exact H. }
  apply Qmult_le_compat_r; [|discriminate].
  rewrite <- Zle_Qle. exact L.
Qed.

(** ** The mean lies between the extremes *)

Lemma sum_upper (l : list Q) (h : Q) :
  Forall (fun x => x <= h) l ->
  fold_right Qplus 0 l <= h * inject_Z (Z.of_nat (List.length l)).
Proof.
  induction 1 as [|x l Hx Hl IH].
  - cbn [fold_right List.length Z.of_nat]. change (inject_Z 0) with 0.
    rewrite Qmult_0_r. apply Qle_refl.
  - cbn [fold_right List.length]. rewrite Nat2Z.inj_succ.
    unfold Z.succ. rewrite inject_Z_plus. change (inject_Z 1) with 1.
    cbv beta in Hx. nra.
Qed.

Lemma sum_lower (l : list Q) (m : Q) :
  Forall (fun x => m <= x) l ->
  m * inject_Z (Z.of_nat (List.length l)) <= fold_right Qplus 0 l.
Proof.
  induction 1 as [|x l Hx Hl IH].
  - cbn [fold_right List.length Z.of_nat]. change (inject_Z 0) with 0.
    rewrite Qmult_0_r. apply Qle_refl.
  - cbn [fold_right List.length]. rewrite Nat2Z.inj_succ.
    unfold Z.succ. rewrite inject_Z_plus. change (inject_Z 1) with 1.
    cbv beta in Hx. nra.
Qed.

Lemma len_pos (l : list Q) :
  l <> [] -> 0 < inject_Z (Z.of_nat (List.length l)).
Proof.
  intros H. destruct l as [|x l]; [congruence|].
  cbn [List.length]. rewrite Nat2Z.inj_succ.
  change 0 with (inject_Z 0). rewrite <- Zlt_Qlt. lia.
Qed.

Lemma mean_between (l : list Q) (m h : Q) :
  l <> [] -> is_lowest m l -> is_highest h l -> m <= mean l /\ mean l <= h.
Proof.
  intros Hne [_ Hm] [_ Hh]. unfold mean.
  pose proof (len_pos l Hne) as P.
  pose proof (sum_upper l h Hh) as U.
  pose proof (sum_lower l m Hm) as L.
  split.
  - apply Qle_shift_div_l; assumption.
  - apply Qle_shift_div_r; assumption.
Qed.

Lemma calculate_results_report (py_float : string -> option Q)
    (rl_var slab_var : string) (min_ffl_var : Q) (app : App) (vals : list Q) :
  parses_to py_float (rl_tokens rl_var) vals ->
  vals <> [] ->
  exists r,
    calculate_results py_float rl_var slab_var min_ffl_var app
      = (LevelsReport r, stored r) /\
    levels_of (map round3 vals)
      (snd (find_slab SLAB_THICKNESS_OPTIONS slab_var)) min_ffl_var r.
Proof.
  intros Hp Hne. unfold calculate_results.
  rewrite (parse_rounded_some py_float _ vals Hp).
  apply compute_levels_report. destruct vals; [congruence|discriminate].
Qed.

Lemma rounded_inputs_three_decimals (vals : list Q) :
  Forall three_decimals (map round3 vals).
Proof.
  induction vals as [|v vs IH]; constructor;
    [apply round3_three_decimals|exact IH].
Qed.

Lemma find_slab_three_decimals (options : list (string * Q)) (slab_var : string) :
  Forall (fun o => three_decimals (snd o)) options ->
  three_decimals (snd (find_slab options slab_var)).
Proof.
  induction 1 as [|[name thick] rest Ho Hrest IH]; cbn [find_slab].
  - exists 0%Z. reflexivity.
  - destruct (contains name slab_var); [exact Ho|exact IH].
Qed.

Lemma catalog_three_decimals :
  Forall (fun o => three_decimals (snd o)) SLAB_THICKNESS_OPTIONS.
Proof.
  unfold SLAB_THICKNESS_OPTIONS.
  repeat constructor; cbn [snd];
    match goal with
    | |- three_decimals (?n # 1000) => exists n; reflexivity
    end.
Qed.

(** X1.  The bench RL lies between the lowest and the highest input; the cut is
    never negative and the fill never positive. *)
Theorem bench_between_extremes :
  forall (py_float : string -> option Q) (rl_var slab_var : string)
         (min_ffl_var : Q) (app : App) (vals : list Q),
    parses_to py_float (rl_tokens rl_var) vals ->
    vals <> [] ->
    exists r,
      calculate_results py_float rl_var slab_var min_ffl_var app
        = (LevelsReport r, stored r) /\
      lowest_rl r <= bench_rl r /\ bench_rl r <= highest_rl r /\
      0 <= cut_max r /\ fill_max r <= 0.
Proof.
  intros py_float rl_var slab_var min_ffl_var app vals Hp Hne.
  destruct (calculate_results_report py_float rl_var slab_var min_ffl_var app
              vals Hp Hne)
    as (r & Hr & _ & Hb & Hh & Hl & Hc & Hf & _).
  exists r. split; [exact Hr|].
  pose proof (rounded_inputs_three_decimals vals) as T.
  assert (Hne' : map round3 vals <> []) by (destruct vals; [congruence|discriminate]).
  destruct (mean_between _ _ _ Hne' Hl Hh) as [Hlo Hhi].
  assert (Th : three_decimals (highest_rl r)) by (apply (three_decimals_in _ _ T), Hh).
  assert (Tl : three_decimals (lowest_rl r)) by (apply (three_decimals_in _ _ T), Hl).
  assert (B1 : lowest_rl r <= bench_rl r) by (rewrite Hb; apply round3_lower; assumption).
  assert (B2 : bench_rl r <= highest_rl r) by (rewrite Hb; apply round3_upper; assumption).
  split; [exact B1|]. split; [exact B2|]. split.
  - rewrite Hc. apply round3_lower; [exists 0%Z; reflexivity|lra].
  - rewrite Hf. apply round3_upper; [exists 0%Z; reflexivity|lra].
Qed.

Lemma bench_between_extremes_witness :
  exists r,
    calculate_results parse_decimal "10.0, 10.2 + 10.4" "WH18 (385mm)"
      0 initial_app = (LevelsReport r, stored r) /\
    lowest_rl r <= bench_rl r /\ bench_rl r <= highest_rl r /\
    0 <= cut_max r /\ fill_max r <= 0.
Proof.
  apply (bench_between_extremes parse_decimal "10.0, 10.2 + 10.4"%string
           "WH18 (385mm)"%string 0 initial_app [10; 51 # 5; 52 # 5]).
  - vm_compute. repeat constructor.
  - discriminate.
Defined.

(** X2.  Equal inputs: the bench is that level and there is neither cut nor fill. *)
Theorem equal_inputs_level_site :
  forall (py_float : string -> option Q) (rl_var slab_var : string)
         (min_ffl_var : Q) (app : App) (vals : list Q) (v : Q),
    parses_to py_float (rl_tokens rl_var) vals ->
    vals <> [] ->
    Forall (fun x => round3 x == round3 v) vals ->
    exists r,
      calculate_results py_float rl_var slab_var min_ffl_var app
        = (LevelsReport r, stored r) /\
      bench_rl r == round3 v /\ cut_max r == 0 /\ fill_max r == 0.
Proof.
  intros py_float rl_var slab_var min_ffl_var app vals v Hp Hne Hall.
  destruct (calculate_results_report py_float rl_var slab_var min_ffl_var app
              vals Hp Hne)
    as (r & Hr & _ & Hb & Hh & Hl & Hc & Hf & _).
  exists r. split; [exact Hr|].
  assert (A : forall x, In x (map round3 vals) -> x == round3 v).
  { intros x Hx. apply in_map_iff in Hx. destruct Hx as (y & <- & Hy).
    rewrite Forall_forall in Hall. apply Hall. exact Hy. }
  assert (Eh : highest_rl r == round3 v) by (apply A, Hh).
  assert (El : lowest_rl r == round3 v) by (apply A, Hl).
  pose proof (rounded_inputs_three_decimals vals) as T.
  assert (Hne' : map round3 vals <> []) by (destruct vals; [congruence|discriminate]).
  destruct (mean_between _ _ _ Hne' Hl Hh) as [Hlo Hhi].
  assert (Th : three_decimals (highest_rl r)) by (apply (three_decimals_in _ _ T), Hh).
  assert (Tl : three_decimals (lowest_rl r)) by (apply (three_decimals_in _ _ T), Hl).
  assert (B1 : lowest_rl r <= bench_rl r) by (rewrite Hb; apply round3_lower; assumption).
  assert (B2 : bench_rl r <= highest_rl r) by (rewrite Hb; apply round3_upper; assumption).
  assert (Eb : bench_rl r == round3 v) by lra.
  split; [exact Eb|]. split.
  - rewrite Hc. rewrite (round3_comp _ 0); [reflexivity|lra].
  - rewrite Hf. rewrite (round3_comp _ 0); [reflexivity|lra].
Qed.

Lemma equal_inputs_level_site_witness :
  exists r,
    calculate_results parse_decimal "10.2, 10.2004" "E (475mm)" 0 initial_app
      = (LevelsReport r, stored r) /\
    bench_rl r == round3 10.2 /\ cut_max r == 0 /\ fill_max r == 0.
Proof.
  apply (equal_inputs_level_site parse_decimal "10.2, 10.2004"%string
           "E (475mm)"%string 0 initial_app [51 # 5; 25501 # 2500] 10.2).
  - vm_compute. repeat constructor.
  - discriminate.
  - repeat constructor; reflexivity.
Defined.

(** X3.  The derived levels are exact: rounding after each step loses nothing. *)
Theorem derived_levels_exact :
  forall (py_float : string -> option Q) (rl_var slab_var : string)
         (min_ffl_var : Q) (app : App) (vals : list Q),
    parses_to py_float (rl_tokens rl_var) vals ->
    vals <> [] ->
    exists r,
      calculate_results py_float rl_var slab_var min_ffl_var app
        = (LevelsReport r, stored r) /\
      cut_max r == highest_rl r - bench_rl r /\
      fill_max r == lowest_rl r - bench_rl r /\
      cut_max r - fill_max r == highest_rl r - lowest_rl r /\
      ffl_rl r == bench_rl r + slab_thickness r /\
      ext_tile_rl r == bench_rl r - 0.07 /\
      ext_deck_rl r == bench_rl r - 0.09 /\
      service_pad_rl r == bench_rl r + slab_thickness r - 0.12.
Proof.
  intros py_float rl_var slab_var min_ffl_var app vals Hp Hne.
  destruct (calculate_results_report py_float rl_var slab_var min_ffl_var app
              vals Hp Hne)
    as (r & Hr & _ & Hb & Hh & Hl & Hc & Hf & Ht & Hffl & _ & _ & Htile & Hdeck & Hpad).
  exists r. split; [exact Hr|].
  pose proof (rounded_inputs_three_decimals vals) as T.
  assert (Th : three_decimals (highest_rl r)) by (apply (three_decimals_in _ _ T), Hh).
  assert (Tl : three_decimals (lowest_rl r)) by (apply (three_decimals_in _ _ T), Hl).
  assert (Tb : three_decimals (bench_rl r)) by (rewrite Hb; apply round3_three_decimals).
  assert (Tt : three_decimals (slab_thickness r)).
  { rewrite Ht. apply find_slab_three_decimals, catalog_three_decimals. }
  assert (Ec : cut_max r == highest_rl r - bench_rl r).
  { rewrite Hc. apply round3_fixes, three_decimals_minus; assumption. }
  assert (Ef : fill_max r == lowest_rl r - bench_rl r).
  { rewrite Hf. apply round3_fixes, three_decimals_minus; assumption. }
  assert (Effl : ffl_rl r == bench_rl r + slab_thickness r).
  { rewrite Hffl, <- Ht. apply round3_fixes, three_decimals_plus; assumption. }
  assert (Tffl : three_decimals (ffl_rl r)) by (rewrite Hffl; apply round3_three_decimals).
  split; [exact Ec|]. split; [exact Ef|]. split; [lra|]. split; [exact Effl|].
  split; [|split].
  - rewrite Htile. rewrite round3_fixes; [field|].
    apply three_decimals_minus; [exact Tb|exists 70%Z; reflexivity].
  - rewrite Hdeck. rewrite round3_fixes; [field|].
    apply three_decimals_minus; [exact Tb|exists 90%Z; reflexivity].
  - rewrite Hpad. rewrite round3_fixes; [rewrite Effl; field|].
    apply three_decimals_minus; [exact Tffl|exists 120%Z; reflexivity].
Qed.

Lemma derived_levels_exact_witness :
  exists r,
    calculate_results parse_decimal "10.0, 10.2 + 10.4" "no such slab"
      (1 # 3) initial_app = (LevelsReport r, stored r) /\
    cut_max r == highest_rl r - bench_rl r /\
    fill_max r == lowest_rl r - bench_rl r /\
    cut_max r - fill_max r == highest_rl r - lowest_rl r /\
    ffl_rl r == bench_rl r + slab_thickness r /\
    ext_tile_rl r == bench_rl r - 0.07 /\
    ext_deck_rl r == bench_rl r - 0.09 /\
    service_pad_rl r == bench_rl r + slab_thickness r - 0.12.
Proof.
  apply (derived_levels_exact parse_decimal "10.0, 10.2 + 10.4"%string
           "no such slab"%string (1 # 3) initial_app [10; 51 # 5; 52 # 5]).
  - vm_compute. repeat constructor.
  - discriminate.
Defined.

(** X4.  The fill to the flood floor is never negative, is zero exactly when the
    floor already reaches the (rounded) flood level, and otherwise lifts the
    floor exactly to it. *)
Theorem fill_reaches_flood_level :
  forall (py_float : string -> option Q) (rl_var slab_var : string)
         (min_ffl_var : Q) (app : App) (vals : list Q),
    parses_to py_float (rl_tokens rl_var) vals ->
    vals <> [] ->
    exists r,
      calculate_results py_float rl_var slab_var min_ffl_var app
        = (LevelsReport r, stored r) /\
      min_ffl_rl r = round3 min_ffl_var /\
      0 <= fill_to_min_ffl r /\
      min_ffl_rl r <= ffl_rl r + fill_to_min_ffl r /\
      (fill_to_min_ffl r == 0 <-> min_ffl_rl r <= ffl_rl r) /\
      (ffl_rl r < min_ffl_rl r ->
       ffl_rl r + fill_to_min_ffl r == min_ffl_rl r).
Proof.
  intros py_float rl_var slab_var min_ffl_var app vals Hp Hne.
  destruct (calculate_results_report py_float rl_var slab_var min_ffl_var app
              vals Hp Hne)
    as (r & Hr & _ & _ & _ & _ & _ & _ & _ & Hffl & Hmin & Hfill & _).
  exists r. split; [exact Hr|]. split; [exact Hmin|].
  assert (Tf : three_decimals (ffl_rl r)) by (rewrite Hffl; apply round3_three_decimals).
  assert (Tm : three_decimals (min_ffl_rl r)) by (rewrite Hmin; apply round3_three_decimals).
  destruct (Qlt_le_dec (ffl_rl r) (min_ffl_rl r)) as [Hlt|Hle].
  - assert (E : fill_to_min_ffl r == min_ffl_rl r - ffl_rl r).
    { rewrite Hfill. rewrite (round3_comp _ (min_ffl_rl r - ffl_rl r)).
      - apply round3_fixes, three_decimals_minus; assumption.
      - apply Q.max_r. lra. }
    repeat split; try lra.
  - assert (E : fill_to_min_ffl r == 0).
    { rewrite Hfill. rewrite (round3_comp _ 0); [reflexivity|].
      apply Q.max_l. lra. }
    repeat split; try lra.
Qed.

Lemma fill_reaches_flood_level_witness :
  exists r,
    calculate_results parse_decimal "10.0, 10.2 + 10.4" "S8/WM8 (310mm)"
      (10751 # 1000) initial_app = (LevelsReport r, stored r) /\
    min_ffl_rl r = round3 (10751 # 1000) /\
    0 <= fill_to_min_ffl r /\
    min_ffl_rl r <= ffl_rl r + fill_to_min_ffl r /\
    (fill_to_min_ffl r == 0 <-> min_ffl_rl r <= ffl_rl r) /\
    (ffl_rl r < min_ffl_rl r ->
     ffl_rl r + fill_to_min_ffl r == min_ffl_rl r).
Proof.
  apply (fill_reaches_flood_level parse_decimal "10.0, 10.2 + 10.4"%string
           "S8/WM8 (310mm)"%string (10751 # 1000) initial_app
           [10; 51 # 5; 52 # 5]).
  - vm_compute. repeat constructor.
  - discriminate.
Defined.

(** X5.  The order in which the RLs are entered does not matter. *)
Theorem entry_order_irrelevant :
  forall (inputs inputs' : list Q) (slab_var : string) (min_ffl_var : Q),
    Permutation inputs inputs' ->
    inputs <> [] ->
    exists r r',
      compute_levels inputs slab_var min_ffl_var = (LevelsReport r, stored r) /\
      compute_levels inputs' slab_var min_ffl_var = (LevelsReport r', stored r') /\
      stored r = stored r' /\
      highest_rl r == highest_rl r' /\ lowest_rl r == lowest_rl r' /\
      fill_to_min_ffl r = fill_to_min_ffl r' /\
      ext_tile_rl r = ext_tile_rl r' /\ ext_deck_rl r = ext_deck_rl r' /\
      service_pad_rl r = service_pad_rl r'.
Proof.
  intros inputs inputs' slab_var min_ffl_var P Hne.
  assert (Hne' : inputs' <> []).
  { intros E. subst. apply Permutation_sym, Permutation_nil in P. congruence. }
  destruct (compute_levels_report inputs slab_var min_ffl_var Hne)
    as (r & Hr & _ & Hb & Hh & Hl & Hc & Hf & _ & Hffl & Hmin & Hfill
        & Htile & Hdeck & Hpad).
  destruct (compute_levels_report inputs' slab_var min_ffl_var Hne')
    as (r' & Hr' & _ & Hb' & Hh' & Hl' & Hc' & Hf' & _ & Hffl' & Hmin' & Hfill'
        & Htile' & Hdeck' & Hpad').
  exists r, r'. split; [exact Hr|]. split; [exact Hr'|].
  assert (Eb : bench_rl r = bench_rl r').
  { rewrite Hb, Hb'. apply round3_comp. unfold mean.
    rewrite (fold_right_plus_perm _ _ P), (Permutation_length P). reflexivity. }
  assert (Eh : highest_rl r == highest_rl r').
  { apply (is_highest_unique _ _ inputs'); [|exact Hh'].
    apply (is_highest_perm _ inputs); assumption. }
  assert (El : lowest_rl r == lowest_rl r').
  { apply (is_lowest_unique _ _ inputs'); [|exact Hl'].
    apply (is_lowest_perm _ inputs); assumption. }
  assert (Ec : cut_max r = cut_max r').
  { rewrite Hc, Hc', Eb. apply round3_comp. rewrite Eh. reflexivity. }
  assert (Ef : fill_max r = fill_max r').
  { rewrite Hf, Hf', Eb. apply round3_comp. rewrite El. reflexivity. }
  assert (Effl : ffl_rl r = ffl_rl r') by (rewrite Hffl, Hffl', Eb; reflexivity).
  assert (Em : min_ffl_rl r = min_ffl_rl r') by (rewrite Hmin, Hmin'; reflexivity).
  split; [unfold stored; rewrite Eb, Ec, Ef, Effl; reflexivity|].
  split; [exact Eh|]. split; [exact El|].
  split; [rewrite Hfill, Hfill', Em, Effl; reflexivity|].
  split; [rewrite Htile, Htile', Eb; reflexivity|].
  split; [rewrite Hdeck, Hdeck', Eb; reflexivity|].
  rewrite Hpad, Hpad', Effl; reflexivity.
Qed.

Lemma entry_order_irrelevant_witness :
  exists r r',
    compute_levels [10; 10.4; 10.2] "WH19 (400mm)" 0 = (LevelsReport r, stored r) /\
    compute_levels [10.4; 10.2; 10] "WH19 (400mm)" 0 = (LevelsReport r', stored r') /\
    stored r = stored r' /\
    highest_rl r == highest_rl r' /\ lowest_rl r == lowest_rl r' /\
    fill_to_min_ffl r = fill_to_min_ffl r' /\
    ext_tile_rl r = ext_tile_rl r' /\ ext_deck_rl r = ext_deck_rl r' /\
    service_pad_rl r = service_pad_rl r'.
Proof.
  apply (entry_order_irrelevant [10; 10.4; 10.2] [10.4; 10.2; 10]
           "WH19 (400mm)"%string 0).
  - apply Permutation_sym.
    apply (Permutation_trans (l' := [10.4; 10; 10.2])).
    + apply perm_skip. apply perm_swap.
    + apply perm_swap.
  - discriminate.
Defined.

(** X6.  A slab text that names no catalog entry gives thickness 0: the floor
    level is the bench level. *)
Theorem unknown_slab_is_zero :
  forall (py_float : string -> option Q) (rl_var slab_var : string)
         (min_ffl_var : Q) (app : App) (vals : list Q),
    parses_to py_float (rl_tokens rl_var) vals ->
    vals <> [] ->
    Forall (fun o => contains (fst o) slab_var = false) SLAB_THICKNESS_OPTIONS ->
    exists r,
      calculate_results py_float rl_var slab_var min_ffl_var app
        = (LevelsReport r, stored r) /\
      slab_thickness r = 0 /\ ffl_rl r == bench_rl r.
Proof.
  intros py_float rl_var slab_var min_ffl_var app vals Hp Hne Hno.
  destruct (calculate_results_report py_float rl_var slab_var min_ffl_var app
              vals Hp Hne)
    as (r & Hr & _ & Hb & _ & _ & _ & _ & Ht & Hffl & _).
  assert (E : find_slab SLAB_THICKNESS_OPTIONS slab_var = (slab_var, 0)).
  { clear -Hno. induction Hno as [|[name thick] rest Ho Hrest IH]; cbn [find_slab].
    - reflexivity.
    - cbn [fst] in Ho. rewrite Ho. exact IH. }
  rewrite E in Ht, Hffl. cbn [snd] in Ht, Hffl.
  exists r. split; [exact Hr|]. split; [exact Ht|].
  rewrite Hffl. rewrite round3_fixes; [ring|].
  apply three_decimals_plus; [|exists 0%Z; reflexivity].
  rewrite Hb. apply round3_three_decimals.
Qed.

Lemma unknown_slab_is_zero_witness :
  exists r,
    calculate_results parse_decimal "10.0, 10.2 + 10.4" "raft 300" 0 initial_app
      = (LevelsReport r, stored r) /\
    slab_thickness r = 0 /\ ffl_rl r == bench_rl r.
Proof.
  apply (unknown_slab_is_zero parse_decimal "10.0, 10.2 + 10.4"%string
           "raft 300"%string 0 initial_app [10; 51 # 5; 52 # 5]).
  - vm_compute. repeat constructor.
  - discriminate.
  - repeat constructor.
Defined.

(** ** When the compatibility check is refused *)

Lemma parse_cases (py_float : string -> option Q) (tokens : list string) :
  unparsable py_float tokens \/ exists vals, parses_to py_float tokens vals.
Proof.
  induction tokens as [|t ts IH].
  - right. exists []. constructor.
  - destruct (py_float t) as [v|] eqn:E.
    + destruct IH as [IH|[vals IH]].
      * left. apply Exists_cons_tl. exact IH.
      * right. exists (v :: vals). constructor; assumption.
    + left. apply Exists_cons_hd. exact E.
Qed.

Lemma site_checks_answered (res : MainResults)
    (rh rl n1 n2 : Q) (z1 z2 : bool) :
  calculate_site_checks (mkApp (Some res)) rh rl n1 n2 z1 z2
  <> [msg_please_calculate].
Proof.
  unfold calculate_site_checks. cbn [_main_results].
  destruct (site_warnings _ _ _ _ _ _ _ _); discriminate.
Qed.

(** X7.  The compatibility check answers with the calculate-first message exactly
    when the calculation before it found no valid levels. *)
Theorem check_refused_iff_calculation_failed :
  forall (py_float : string -> option Q) (rl_var slab_var : string)
         (min_ffl_var : Q) (app : App)
         (road_high_var road_low_var neigh1_var neigh2_var : Q)
         (zero1 zero2 : bool),
    calculate_site_checks
      (snd (calculate_results py_float rl_var slab_var min_ffl_var app))
      road_high_var road_low_var neigh1_var neigh2_var zero1 zero2
    = [msg_please_calculate]
    <-> no_valid_levels py_float rl_var.
Proof.
  intros py_float rl_var slab_var min_ffl_var app rh rl n1 n2 z1 z2. split.
  - intros H. unfold no_valid_levels.
    destruct (parse_cases py_float (rl_tokens rl_var)) as [U|[vals P]];
      [left; exact U|].
    destruct vals as [|v vs].
    + right. inversion P. reflexivity.
    + exfalso.
      destruct (calculate_results_report py_float rl_var slab_var min_ffl_var
                  app (v :: vs) P) as (r & Hr & _); [discriminate|].
      rewrite Hr in H. cbn [snd] in H. unfold stored in H.
      exact (site_checks_answered _ _ _ _ _ _ _ H).
  - intros H.
    destruct (calculate_results_failure py_float rl_var slab_var min_ffl_var
                app H) as [E|E]; rewrite E; reflexivity.
Qed.

(** ** Which neighbour is entered first *)

Lemma ge_total (a b : Q) : ge a b = false -> ge b a = true.
Proof.
  unfold ge. intros H. apply Qle_bool_iff.
  destruct (Qlt_le_dec a b) as [L|L]; [apply Qlt_le_weak; exact L|].
  apply Qle_bool_iff in L. congruence.
Qed.

(** X8.  Swapping the two neighbours, each with its zero-boundary flag, leaves
    the warnings unchanged whenever their (rounded) levels differ. *)
Theorem neighbour_order_irrelevant :
  forall (bench ffl road_high_var road_low_var neigh1_var neigh2_var : Q)
         (zero1 zero2 : bool),
    ~ round3 neigh1_var == round3 neigh2_var ->
    site_warnings bench ffl road_high_var road_low_var
      neigh1_var neigh2_var zero1 zero2
    = site_warnings bench ffl road_high_var road_low_var
        neigh2_var neigh1_var zero2 zero1.
Proof.
  intros bench ffl rh rl n1 n2 z1 z2 Hne.
  pose proof (site_warnings_rendered bench ffl rh rl n1 n2 z1 z2) as W1.
  pose proof (site_warnings_rendered bench ffl rh rl n2 n1 z2 z1) as W2.
  cbv zeta in W1, W2. rewrite W1, W2. clear W1 W2.
  destruct (ge (round3 n1) (round3 n2)) eqn:E1;
    destruct (ge (round3 n2) (round3 n1)) eqn:E2; try reflexivity.
  - exfalso. apply Hne. unfold ge in *.
    apply Qle_bool_iff in E1, E2. apply Qle_antisym; assumption.
  - apply ge_total in E1. congruence.
Qed.

Lemma neighbour_order_irrelevant_witness :
  site_warnings 10.2 10.51 11.2 11 10.5 9.5 true false
  = site_warnings 10.2 10.51 11.2 11 9.5 10.5 false true.
Proof.
  apply (neighbour_order_irrelevant 10.2 10.51 11.2 11 10.5 9.5 true false).
  vm_compute. discriminate.
Defined.

(** ** Tokens of the RL entry *)

Lemma free_of_weaken (p q : ascii -> bool) (s : string) :
  (forall c, q c = true -> p c = true) ->
  free_of p s = true -> free_of q s = true.
Proof.
  intros Hpq. induction s as [|c s IH]; cbn [free_of]; [reflexivity|].
  rewrite !andb_true_iff, !negb_true_iff. intros [Hc Hs]. split.
  - destruct (q c) eqn:E; [|reflexivity]. apply Hpq in E. congruence.
  - apply IH. exact Hs.
Qed.

Lemma remove_spaces_free (s : string) :
  free_of is_space_char (remove_spaces s) = true.
Proof.
  induction s as [|c s IH]; cbn [remove_spaces free_of]; [reflexivity|].
  destruct (is_space_char c) eqn:E; [exact IH|].
  cbn [free_of]. rewrite E, IH. reflexivity.
Qed.

Lemma remove_spaces_id (s : string) :
  free_of is_space_char s = true -> remove_spaces s = s.
Proof.
  induction s as [|c s IH]; cbn [remove_spaces free_of]; [reflexivity|].
  rewrite andb_true_iff, negb_true_iff. intros [Hc Hs].
  rewrite Hc, (IH Hs). reflexivity.
Qed.

Lemma re_split_pieces (sep p : ascii -> bool) (s : string) :
  free_of p s = true ->
  Forall (fun t => free_of sep t = true /\ free_of p t = true) (re_split sep s).
Proof.
  induction s as [|c s IH]; cbn [re_split free_of].
  - intros _. repeat constructor.
  - rewrite andb_true_iff, negb_true_iff. intros [Hc Hs].
    specialize (IH Hs).
    destruct (sep c) eqn:E.
    + constructor; [split; reflexivity|exact IH].
    + destruct (re_split sep s) as [|t ts].
      * repeat constructor; cbn [free_of]; rewrite ?E, ?Hc; reflexivity.
      * inversion IH as [|? ? [H1 H2] Hts]; subst.
        constructor; [|exact Hts].
        split; cbn [free_of]; rewrite ?E, ?Hc, ?H1, ?H2; reflexivity.
Qed.

Lemma free_of_blank_or_separator (t : string) :
  free_of plus_or_comma t = true -> free_of is_space_char t = true ->
  free_of blank_or_separator t = true.
Proof.
  induction t as [|c t IH]; cbn [free_of]; [reflexivity|].
  rewrite !andb_true_iff, !negb_true_iff. intros [H1 H2] [H3 H4].
  split; [|apply IH; assumption].
  unfold blank_or_separator. rewrite H1, H3. reflexivity.
Qed.

Lemma parse_rounded_filter (py_float : string -> option Q)
    (pieces : list string) :
  parse_rounded py_float pieces
  = parse_rounded py_float (filter nonempty pieces).
Proof.
  induction pieces as [|p ps IH]; cbn [parse_rounded filter]; [reflexivity|].
  destruct (nonempty p) eqn:E; [|exact IH].
  cbn [parse_rounded]. rewrite E, IH. reflexivity.
Qed.

(** X9.  The level calculation reads the entry only through its tokens, and
    every token is non-empty and holds no blank, plus or comma, whatever was
    typed: [float] is never applied to anything else. *)
Theorem rl_tokens_clean :
  forall (py_float : string -> option Q) (rl_var : string),
    parse_rounded py_float (re_split plus_or_comma (remove_spaces rl_var))
    = parse_rounded py_float (rl_tokens rl_var) /\
    Forall (fun t => clean_token t = true) (rl_tokens rl_var).
Proof.
  intros py_float rl_var. split; [apply parse_rounded_filter|].
  unfold rl_tokens.
  pose proof (re_split_pieces plus_or_comma is_space_char
                (remove_spaces rl_var) (remove_spaces_free rl_var)) as H.
  rewrite Forall_forall in *. intros t Ht.
  apply filter_In in Ht. destruct Ht as [Hin Hne].
  destruct (H t Hin) as [H1 H2].
  unfold clean_token. rewrite Hne. cbn [andb].
  apply free_of_blank_or_separator; assumption.
Qed.

Lemma re_split_clean (sep : ascii -> bool) (t : string) :
  free_of sep t = true -> re_split sep t = [t].
Proof.
  induction t as [|c t IH]; cbn [re_split free_of]; [reflexivity|].
  rewrite andb_true_iff, negb_true_iff. intros [Hc Hs].
  rewrite Hc, (IH Hs). reflexivity.
Qed.

Lemma re_split_append (sep : ascii -> bool) (t rest : string) (c : ascii) :
  free_of sep t = true -> sep c = true ->
  re_split sep (t ++ String c rest) = t :: re_split sep rest.
Proof.
  intros Ht Hc. induction t as [|a t IH]; cbn [append re_split].
  - rewrite Hc. reflexivity.
  - cbn [free_of] in Ht. apply andb_true_iff in Ht. destruct Ht as [Ha Ht].
    apply negb_true_iff in Ha. rewrite Ha, (IH Ht). reflexivity.
Qed.

Lemma free_of_append (p : ascii -> bool) (s t : string) :
  free_of p s = true -> free_of p t = true -> free_of p (s ++ t) = true.
Proof.
  intros Hs Ht. induction s as [|c s IH]; cbn [append free_of]; [exact Ht|].
  cbn [free_of] in Hs. apply andb_true_iff in Hs. destruct Hs as [Hc Hs].
  rewrite Hc, (IH Hs). reflexivity.
Qed.

Lemma clean_token_parts (t : string) :
  clean_token t = true ->
  nonempty t = true /\ free_of is_space_char t = true
  /\ free_of plus_or_comma t = true.
Proof.
  unfold clean_token. rewrite andb_true_iff. intros [Hn Hf].
  split; [exact Hn|]. split.
  - apply (free_of_weaken blank_or_separator); [|exact Hf].
    intros c Hc. unfold blank_or_separator. rewrite Hc. reflexivity.
  - apply (free_of_weaken blank_or_separator); [|exact Hf].
    intros c Hc. unfold blank_or_separator. rewrite Hc. apply orb_true_r.
Qed.

Lemma join_commas_free (tokens : list string) :
  Forall (fun t => clean_token t = true) tokens ->
  free_of is_space_char (join_commas tokens) = true.
Proof.
  induction 1 as [|t ts Ht Hts IH]; [reflexivity|].
  destruct (clean_token_parts t Ht) as (_ & Hs & _).
  cbn [join_commas]. destruct ts as [|t' ts']; [exact Hs|].
  apply free_of_append; [exact Hs|].
  change ("," ++ join_commas (t' :: ts'))%string
    with (String ","%char (join_commas (t' :: ts'))).
  cbn [free_of]. rewrite IH. reflexivity.
Qed.

Lemma split_join_commas (tokens : list string) :
  Forall (fun t => clean_token t = true) tokens ->
  tokens <> [] ->
  re_split plus_or_comma (join_commas tokens) = tokens.
Proof.
  induction 1 as [|t ts Ht Hts IH]; [congruence|]. intros _.
  destruct (clean_token_parts t Ht) as (_ & _ & Hp).
  cbn [join_commas]. destruct ts as [|t' ts'].
  - apply re_split_clean. exact Hp.
  - change (t ++ "," ++ join_commas (t' :: ts'))%string
      with (t ++ String ","%char (join_commas (t' :: ts')))%string.
    rewrite (re_split_append plus_or_comma t _ ","%char Hp eq_refl).
    rewrite IH; [reflexivity|discriminate].
Qed.

Lemma tokens_of_joined (tokens : list string) :
  Forall (fun t => clean_token t = true) tokens ->
  rl_tokens (join_commas tokens) = tokens.
Proof.
  intros H. unfold rl_tokens.
  rewrite (remove_spaces_id _ (join_commas_free tokens H)).
  destruct tokens as [|t ts]; [reflexivity|].
  rewrite (split_join_commas _ H); [|discriminate].
  clear -H. induction H as [|x l Hx Hl IH]; [reflexivity|].
  cbn [filter]. destruct (clean_token_parts x Hx) as (Hn & _).
  rewrite Hn, IH. reflexivity.
Qed.

(** X10.  Tokens written out with commas are read back unchanged: the level
    calculation on the joined entry is the calculation on those tokens. *)
Theorem rl_tokens_round_trip :
  forall (py_float : string -> option Q) (tokens : list string)
         (slab_var : string) (min_ffl_var : Q) (app : App),
    Forall (fun t => clean_token t = true) tokens ->
    rl_tokens (join_commas tokens) = tokens /\
    calculate_results py_float (join_commas tokens) slab_var min_ffl_var app
    = match parse_rounded py_float tokens with
      | None => (ErrorParsingRLs, mkApp None)
      | Some rls => compute_levels rls slab_var min_ffl_var
      end.
Proof.
  intros py_float tokens slab_var min_ffl_var app H.
  pose proof (tokens_of_joined tokens H) as E.
  split; [exact E|].
  unfold calculate_results. rewrite parse_rounded_filter.
  fold (rl_tokens (join_commas tokens)). rewrite E. reflexivity.
Qed.

Lemma rl_tokens_round_trip_witness :
  rl_tokens (join_commas ["10.0"; "-3"; "abc"]%string)
  = ["10.0"; "-3"; "abc"]%string.
Proof.
  apply (rl_tokens_round_trip parse_decimal ["10.0"; "-3"; "abc"]%string
           "E (475mm)"%string 0 initial_app).
  repeat constructor.
Defined.

End BenchMoreProofs.

(* ================================================================== *)
(** * Further properties of the site tools                             *)
(* ================================================================== *)

Module SiteMoreProofs.

Import PyStr SiteTools SiteSpec SiteProofs SiteMore.
Local Open Scope R_scope.

(** ** Tables without a usable row *)

Lemma process_row_unusable (py_float : string -> option R) (chain_var : bool)
    (idx : nat) (row : BoundaryRow) (cursor : Point) :
  unusable row ->
  process_row py_float chain_var idx row cursor = RowSkipped [].
Proof.
  intros (d & Hd & H). unfold process_row. destruct cursor as [x y].
  rewrite Hd. destruct (Rle_dec d 0) as [_|Hgt]; [reflexivity|].
  destruct H as [H|H]; [exfalso; lra|]. rewrite H. reflexivity.
Qed.

Lemma collect_unusable (py_float : string -> option R) (chain_var : bool)
    (rows : list BoundaryRow) :
  Forall unusable rows ->
  forall (idx : nat) (cursor : Point),
    collect_segments py_float chain_var idx rows cursor = ([], []).
Proof.
  induction 1 as [|row rest Hrow Hrest IH]; intros idx cursor;
    cbn [collect_segments]; [reflexivity|].
  rewrite (process_row_unusable _ _ _ _ _ Hrow), IH. reflexivity.
Qed.

(** X11.  A table in which every row has a distance that is not positive or a
    blank bearing draws nothing: the only output is the not-enough-segments
    line and no polyline is sent to Archicad. *)
Theorem nothing_drawn_without_usable_rows :
  forall (py_float : string -> option R) (chain_var : bool) (sv : SetbackVars)
         (rows : list BoundaryRow),
    Forall unusable rows ->
    draw_boundaries_and_setbacks py_float chain_var sv rows
    = [LogNotEnoughSegments].
Proof.
  intros py_float chain_var sv rows H. unfold draw_boundaries_and_setbacks.
  rewrite (collect_unusable py_float chain_var rows H). reflexivity.
Qed.

Lemma default_row_unusable : unusable default_row.
Proof. exists 0. split; [reflexivity|]. left. apply Rle_refl. Qed.

Lemma nothing_drawn_without_usable_rows_witness :
  draw_boundaries_and_setbacks read_decimal false
    (setback_vars_of 6 (15 / 10) 3 2 3 (345 / 100) 3) clear_all
  = [LogNotEnoughSegments].
Proof.
  apply (nothing_drawn_without_usable_rows read_decimal false
           (setback_vars_of 6 (15 / 10) 3 2 3 (345 / 100) 3) clear_all).
  unfold clear_all. cbn [repeat].
  repeat constructor; apply default_row_unusable.
Defined.

(** ** Chain conversion *)

Lemma process_row_cases (py_float : string -> option R) (chain_var : bool)
    (idx : nat) (row : BoundaryRow) (cursor : Point) :
  (exists log,
      forall (c : bool) (p : Point),
        process_row py_float c idx row p = RowSkipped log)
  \/ (exists d theta,
        row_distance row = TkFloat d /\ 0 < d /\
        strip (row_bearing row) <> EmptyString /\
        parse_bearing py_float idx (strip (row_bearing row)) = Azimuth theta).
Proof.
  destruct (row_distance row) as [d| |] eqn:Hd.
  - destruct (Rle_dec d 0) as [Hle|Hgt].
    + left. exists []. intros c [x y]. unfold process_row. rewrite Hd.
      destruct (Rle_dec d 0); [reflexivity|contradiction].
    + destruct (strip (row_bearing row)) as [|a s] eqn:Es.
      * left. exists []. intros c [x y]. unfold process_row. rewrite Hd, Es.
        destruct (Rle_dec d 0); reflexivity.
      * destruct (parse_bearing py_float idx (String a s)) as [theta|e] eqn:Hp.
        -- right. exists d, theta.
           repeat split; try assumption; try lra. discriminate.
        -- left. exists [e]. intros c [x y]. unfold process_row.
           rewrite Hd, Es. destruct (Rle_dec d 0); [contradiction|].
           cbn [nonempty negb]. rewrite Hp. reflexivity.
  - left. exists [LogDistanceNotNumber (S idx)]. intros c [x y].
    unfold process_row. rewrite Hd. reflexivity.
  - left. exists [LogUnexpectedError (S idx)]. intros c [x y].
    unfold process_row. rewrite Hd. reflexivity.
Qed.

Lemma collect_segments_scaled (py_float : string -> option R)
    (rows : list BoundaryRow) :
  forall (idx : nat) (cursor : Point),
    collect_segments py_float true idx rows (scale_point chain cursor)
    = (map (scale_segment chain)
         (fst (collect_segments py_float false idx rows cursor)),
       snd (collect_segments py_float false idx rows cursor)).
Proof.
  induction rows as [|row rest IH]; intros idx cursor;
    cbn [collect_segments]; [reflexivity|].
  destruct (process_row_cases py_float false idx row cursor)
    as [[log Hs]|(d & theta & Hd & Hpos & Hne & Hp)].
  - rewrite !Hs, IH.
    destruct (collect_segments py_float false (S idx) rest cursor).
    reflexivity.
  - pose proof (process_row_segment py_float false idx row cursor d theta
                  Hd Hpos Hne Hp) as E1.
    pose proof (process_row_segment py_float true idx row
                  (scale_point chain cursor) d theta Hd Hpos Hne Hp) as E2.
    cbv zeta in E1, E2. rewrite E1, E2. clear E1 E2.
    set (az := if row_flip row then py_mod (theta + 180) 360 else theta).
    assert (Ec : (fst (scale_point chain cursor)
                    + d * (201168 / 10000) * sin (radians az),
                  snd (scale_point chain cursor)
                    + d * (201168 / 10000) * cos (radians az))
                 = scale_point chain
                     (fst cursor + d * sin (radians az),
                      snd cursor + d * cos (radians az))).
    { unfold scale_point, chain. cbn [fst snd]. f_equal; ring. }
    rewrite Ec, IH.
    destruct (collect_segments py_float false (S idx) rest
                (fst cursor + d * sin (radians az),
                 snd cursor + d * cos (radians az))).
    cbn [fst snd map]. unfold scale_segment at 1.
    cbn [seg_type seg_start seg_end seg_idx seg_distance seg_bearing].
    unfold chain at 3. reflexivity.
Qed.

(** X12.  With the chain-links box ticked the whole traversal is the one without
    it magnified by 20.1168 about the origin: same rows used, same bearings,
    same log, every distance and coordinate multiplied. *)
Theorem chain_conversion_scales_traversal :
  forall (py_float : string -> option R) (rows : list BoundaryRow),
    collect_segments py_float true 0 rows (0, 0)
    = (map (scale_segment (201168 / 10000))
         (fst (collect_segments py_float false 0 rows (0, 0))),
       snd (collect_segments py_float false 0 rows (0, 0))).
Proof.
  intros py_float rows.
  replace (0, 0) with (scale_point chain (0, 0)) at 1.
  - apply collect_segments_scaled.
  - unfold scale_point. cbn [fst snd]. f_equal; ring.
Qed.

(** ** Lengths and directions *)




(** ** The flip *)

Lemma sin_period_Z (x : R) (k : Z) : sin (x + 2 * IZR k * PI) = sin x.
Proof.
  destruct (Z_le_gt_dec 0 k) as [H|H].
  - rewrite <- (Z2Nat.id k H), <- INR_IZR_INZ. apply sin_period.
  - rewrite <- (sin_period (x + 2 * IZR k * PI) (Z.to_nat (- k))).
    f_equal. rewrite INR_IZR_INZ, Z2Nat.id by lia.
    rewrite opp_IZR. ring.
Qed.

Lemma cos_period_Z (x : R) (k : Z) : cos (x + 2 * IZR k * PI) = cos x.
Proof.
  destruct (Z_le_gt_dec 0 k) as [H|H].
  - rewrite <- (Z2Nat.id k H), <- INR_IZR_INZ. apply cos_period.
  - rewrite <- (cos_period (x + 2 * IZR k * PI) (Z.to_nat (- k))).
    f_equal. rewrite INR_IZR_INZ, Z2Nat.id by lia.
    rewrite opp_IZR. ring.
Qed.

Lemma radians_flipped (theta : R) :
  radians (py_mod (theta + 180) 360)
  = radians theta + PI + 2 * IZR (- Int_part ((theta + 180) / 360)) * PI.
Proof. unfold radians, py_mod. rewrite opp_IZR. field. Qed.

Lemma sin_flipped (theta : R) :
  sin (radians (py_mod (theta + 180) 360)) = - sin (radians theta).
Proof.
  rewrite radians_flipped, sin_period_Z, neg_sin. reflexivity.
Qed.

Lemma cos_flipped (theta : R) :
  cos (radians (py_mod (theta + 180) 360)) = - cos (radians theta).
Proof.
  rewrite radians_flipped, cos_period_Z, neg_cos. reflexivity.
Qed.

(** X14.  Ticking the flip box of a row reverses its segment: from the same
    cursor it runs the same distance the opposite way. *)
Theorem flip_reverses_segment :
  forall (py_float : string -> option R) (chain_var : bool) (idx : nat)
         (type bearing : string) (distance : TkDouble) (cursor : Point)
         (seg : Segment) (cursor' : Point),
    process_row py_float chain_var idx
      (mkRow type distance bearing false) cursor = RowSegment seg cursor' ->
    exists seg',
      process_row py_float chain_var idx
        (mkRow type distance bearing true) cursor
      = RowSegment seg' (seg_end seg') /\
      seg_start seg' = seg_start seg /\
      seg_distance seg' = seg_distance seg /\
      dx_of seg' = - dx_of seg /\ dy_of seg' = - dy_of seg.
Proof.
  intros py_float chain_var idx type bearing distance cursor seg cursor' E.
  destruct (process_row_inv _ _ _ _ _ _ _ E)
    as (d & theta & Hd & Hpos & Hne & Hp & Hseg & _).
  cbv zeta in Hseg. cbn [row_flip row_type] in Hseg.
  pose proof (process_row_segment py_float chain_var idx
                (mkRow type distance bearing true) cursor d theta
                Hd Hpos Hne Hp) as E'.
  cbv zeta in E'. cbn [row_flip row_type] in E'.
  eexists. split; [exact E'|]. subst seg. unfold dx_of, dy_of.
  cbn [seg_start seg_end seg_distance fst snd].
  rewrite sin_flipped, cos_flipped.
  repeat split; ring.
Qed.

Lemma flip_reverses_segment_witness :
  let seg := mkSegment (lower "Side") (0, 0) (0 + 10, 0) 0 10 90 in
  exists seg',
    process_row read_decimal false 0
      (mkRow "Side" (TkFloat 10) "90" true) (0, 0)
    = RowSegment seg' (seg_end seg') /\
    seg_start seg' = seg_start seg /\
    seg_distance seg' = seg_distance seg /\
    dx_of seg' = - dx_of seg /\ dy_of seg' = - dy_of seg.
Proof.
  cbv zeta.
  assert (P : 0 < 10) by lra.
  exact (flip_reverses_segment read_decimal false 0 "Side" "90"
           (TkFloat 10) (0, 0) _ _
           (east read_decimal read_decimal_90 0 "Side" 10 0 0 P)).
Defined.

(** ** Source rows of the segments *)

Lemma collect_segments_sources (py_float : string -> option R)
    (chain_var : bool) (rows : list BoundaryRow) :
  forall (idx : nat) (cursor : Point),
    let segments := fst (collect_segments py_float chain_var idx rows cursor) in
    Forall (from_row rows idx) segments /\
    StronglySorted lt (map seg_idx segments) /\
    (List.length segments <= List.length rows)%nat.
Proof.
  induction rows as [|row rest IH]; intros idx cursor; cbv zeta;
    cbn [collect_segments].
  - repeat split; try constructor.
  - assert (Shift : forall seg, from_row rest (S idx) seg ->
                                from_row (row :: rest) idx seg).
    { intros seg (Hle & r & d & Hn & Ht & Hd & Hp). split; [lia|].
      exists r, d. repeat split; try assumption.
      replace (seg_idx seg - idx)%nat with (S (seg_idx seg - S idx)) by lia.
      exact Hn. }
    destruct (process_row py_float chain_var idx row cursor)
      as [log|seg cursor'] eqn:E.
    + specialize (IH (S idx) cursor). cbv zeta in IH.
      destruct (collect_segments py_float chain_var (S idx) rest cursor)
        as [segments logs].
      cbn [fst] in *. destruct IH as (F & S & L).
      repeat split; [|exact S|cbn [List.length]; lia].
      eapply Forall_impl; [exact Shift|exact F].
    + specialize (IH (S idx) cursor'). cbv zeta in IH.
      destruct (collect_segments py_float chain_var (S idx) rest cursor')
        as [segments logs].
      cbn [fst] in *. destruct IH as (F & S & L).
      destruct (process_row_inv _ _ _ _ _ _ _ E)
        as (d & theta & Hd & Hpos & _ & _ & Hseg & _).
      cbv zeta in Hseg.
      assert (Hi : seg_idx seg = idx) by (subst seg; reflexivity).
      assert (Ht : seg_type seg = lower (row_type row)) by (subst seg; reflexivity).
      repeat split.
      * constructor.
        -- split; [lia|]. exists row, d. rewrite Hi, Nat.sub_diag.
           repeat split; assumption.
        -- eapply Forall_impl; [exact Shift|exact F].
      * cbn [map]. constructor; [exact S|].
        rewrite Hi. rewrite Forall_map.
        eapply Forall_impl; [|exact F]. intros s [Hs _]. cbv beta. lia.
      * cbn [List.length]. lia.
Qed.

(** X15.  Every segment records the table row it came from; the segments keep the
    order of the rows and there are no more of them than rows. *)
Theorem segments_follow_rows :
  forall (py_float : string -> option R) (chain_var : bool)
         (rows : list BoundaryRow),
    let segments := fst (collect_segments py_float chain_var 0 rows (0, 0)) in
    Forall (from_row rows 0) segments /\
    StronglySorted lt (map seg_idx segments) /\
    (List.length segments <= List.length rows)%nat.
Proof. intros. apply collect_segments_sources. Qed.

(** ** Boundary polylines *)

Lemma draw_segments_calls (segments : list Segment) :
  cad_calls (draw_segments segments)
  = map (fun seg => (seg_start seg, seg_end seg))
      (filter (fun seg => negb (degenerate seg)) segments)
  /\ zero_length_logs (draw_segments segments)
     = map (fun seg => S (seg_idx seg)) (filter degenerate segments).
Proof.
  induction segments as [|seg rest [IH1 IH2]]; [split; reflexivity|].
  cbn [draw_segments filter].
  destruct (degenerate seg) eqn:D; unfold degenerate in D; rewrite D;
    cbn [negb app cad_calls zero_length_logs map];
    rewrite IH1, IH2; split; reflexivity.
Qed.

(** X16.  The boundary pass sends one polyline, start to end, for each segment
    whose ends differ, in order, and writes one skip line for each segment
    whose ends coincide; nothing else reaches Archicad. *)
Theorem boundary_polylines_sent :
  forall segments : list Segment,
    cad_calls (draw_segments segments)
    = map (fun seg => (seg_start seg, seg_end seg))
        (filter (fun seg => negb (degenerate seg)) segments)
    /\ zero_length_logs (draw_segments segments)
       = map (fun seg => S (seg_idx seg)) (filter degenerate segments).
Proof. exact draw_segments_calls. Qed.

(** ** One segment of the offset pass *)

Lemma degenerate_true (seg : Segment) :
  degenerate seg = true <-> seg_start seg = seg_end seg.
Proof.
  unfold degenerate, same_point.
  destruct (seg_start seg) as [sx sy], (seg_end seg) as [ex ey]. cbn [fst snd].
  destruct (Req_dec_T sx ex) as [Hx|Hx]; [destruct (Req_dec_T sy ey) as [Hy|Hy]|].
  - subst. split; reflexivity.
  - split; [discriminate|]. intros H. injection H as _ H. contradiction.
  - split; [discriminate|]. intros H. injection H as H _. contradiction.
Qed.

Lemma degenerate_false (seg : Segment) :
  degenerate seg = false <-> seg_start seg <> seg_end seg.
Proof.
  rewrite <- degenerate_true. destruct (degenerate seg); split;
    congruence.
Qed.

Lemma hypot_cases (seg : Segment) :
  (degenerate seg = true /\ hypot (dx_of seg) (dy_of seg) = 0)
  \/ (degenerate seg = false /\ hypot (dx_of seg) (dy_of seg) <> 0).
Proof.
  destruct (degenerate seg) eqn:D.
  - left. split; [reflexivity|]. apply hypot_degenerate, degenerate_true, D.
  - right. split; [reflexivity|]. apply hypot_nondegenerate, degenerate_false, D.
Qed.

Section OffsetPass.

Variables front side rear secondary front_min front_hab garage : R.

Let sv : SetbackVars :=
  setback_vars_of front side rear secondary front_min front_hab garage.

Lemma offset_segment_frontage (seg : Segment) :
  is_frontage seg = true ->
  degenerate seg = false ->
  offset_segment sv seg
  = (setback_line (Some "Front Min"%string) "Front Min"
       (shifted seg (- Rabs front_min))
     ++ setback_line (Some "Front Habitable"%string) "Front Habitable"
          (shifted seg (- Rabs front_hab))
     ++ setback_line (Some "Garage"%string) "Garage"
          (shifted seg (- Rabs garage))
     ++ road_line "Frontage" (shifted seg (425 / 100))
     ++ [LogTextLabelNotCreated],
     Some tt).
Proof.
  intros Hf Hd. apply degenerate_false in Hd.
  unfold offset_segment. unfold is_frontage in Hf. rewrite Hf.
  unfold sv. rewrite (front_setbacks_lines _ _ _ _ _ _ _ seg Hd).
  unfold road_offset. rewrite (offset_line_shifted seg _ Hd).
  unfold setback_line, road_line. reflexivity.
Qed.



End OffsetPass.

Lemma offset_segment_plain (sv : SetbackVars) (seg : Segment) :
  is_frontage seg = false ->
  is_secondary seg = false ->
  offset_segment sv seg
  = if degenerate seg
    then ([LogSkipZeroLengthSetback (S (seg_idx seg)) None], Some tt)
    else (setback_line None (title (seg_type seg))
            (shifted seg (setback_or_zero sv (seg_type seg)))
          ++ [LogTextLabelNotCreated],
          Some tt).
Proof.
  intros Hf Hs. unfold offset_segment.
  unfold is_frontage in Hf. unfold is_secondary in Hs. rewrite Hf, Hs.
  destruct (hypot_cases seg) as [[D H]|[D H]]; rewrite D;
    unfold dx_of, dy_of in H.
  - rewrite H. destruct (Req_dec_T 0 0); [reflexivity|congruence].
  - destruct (Req_dec_T _ 0) as [E|_]; [contradiction|].
    apply degenerate_false in D.
    rewrite !(offset_line_shifted seg _ D).
    unfold setback_line. reflexivity.
Qed.

(** ** The whole offset pass *)

Lemma draw_offsets_continue (sv : SetbackVars) (seg : Segment)
    (rest : list Segment) (log : list Event) :
  offset_segment sv seg = (log, Some tt) ->
  draw_offsets sv (seg :: rest) = log ++ draw_offsets sv rest.
Proof.
  intros E. unfold draw_offsets. cbn [offset_loop]. unfold bind. rewrite E.
  destruct (offset_loop sv rest) as [log' [u|]].
  - reflexivity.
  - rewrite app_assoc. reflexivity.
Qed.




(** X18.  A zero-length segment that is not a frontage is passed over with a
    single skip line, without a text-label line, and the pass goes on with
    the segments after it. *)
Theorem zero_length_segment_skipped :
  forall (sv : SetbackVars) (seg : Segment) (rest : list Segment),
    is_frontage seg = false ->
    seg_start seg = seg_end seg ->
    draw_offsets sv (seg :: rest)
    = LogSkipZeroLengthSetback (S (seg_idx seg)) None :: draw_offsets sv rest.
Proof.
  intros sv seg rest Hf Hz. apply degenerate_true in Hz.
  apply (draw_offsets_continue sv seg rest
           [LogSkipZeroLengthSetback (S (seg_idx seg)) None]).
  destruct (is_secondary seg) eqn:Hs.
  - unfold offset_segment. unfold is_frontage in Hf. unfold is_secondary in Hs.
    rewrite Hf, Hs. apply degenerate_true in Hz.
    rewrite (hypot_degenerate seg Hz).
    destruct (Req_dec_T 0 0); [reflexivity|congruence].
  - rewrite (offset_segment_plain sv seg Hf Hs), Hz. reflexivity.
Qed.

Lemma zero_length_segment_skipped_witness :
  draw_offsets (setback_vars_of 6 (15 / 10) 3 2 3 (345 / 100) 3)
    [mkSegment "secondary" (3, 4) (3, 4) 1 0 0]
  = [LogSkipZeroLengthSetback 2 None].
Proof.
  exact (zero_length_segment_skipped
           (setback_vars_of 6 (15 / 10) 3 2 3 (345 / 100) 3)
           (mkSegment "secondary" (3, 4) (3, 4) 1 0 0) [] eq_refl eq_refl).
Defined.

(** ** Geometry of an offset line *)

Lemma hypot_sqr (dx dy : R) : hypot dx dy * hypot dx dy = dx * dx + dy * dy.
Proof. unfold hypot. apply sqrt_sqrt. nra. Qed.

Lemma hypot_nonneg (dx dy : R) : 0 <= hypot dx dy.
Proof. unfold hypot. apply sqrt_pos. Qed.

(** X19.  An offset line is its segment moved sideways: it has the segment's
    direction and length, and it is displaced at right angles to the
    segment by exactly the absolute value of the offset. *)
Theorem offset_line_parallel :
  forall (seg : Segment) (offset : R),
    seg_start seg <> seg_end seg ->
    exists a b : Point,
      offset_line (seg_start seg) (seg_end seg) (dx_of seg) (dy_of seg)
        (hypot (dx_of seg) (dy_of seg)) offset = ([], Some (a, b)) /\
      fst b - fst a = dx_of seg /\ snd b - snd a = dy_of seg /\
      fst a - fst (seg_start seg) = fst b - fst (seg_end seg) /\
      snd a - snd (seg_start seg) = snd b - snd (seg_end seg) /\
      (fst a - fst (seg_start seg)) * dx_of seg
        + (snd a - snd (seg_start seg)) * dy_of seg = 0 /\
      hypot (fst a - fst (seg_start seg)) (snd a - snd (seg_start seg))
        = Rabs offset.
Proof.
  intros seg offset Hne.
  pose proof (hypot_nondegenerate seg Hne) as HL.
  pose proof (offset_line_shifted seg offset Hne) as E.
  fold (dx_of seg) (dy_of seg) in HL, E.
  exists (fst (shifted seg offset)), (snd (shifted seg offset)).
  split; [rewrite E; destruct (shifted seg offset); reflexivity|].
  unfold shifted. fold (dx_of seg) (dy_of seg). cbn [fst snd].
  set (L := hypot (dx_of seg) (dy_of seg)) in *.
  pose proof (hypot_sqr (dx_of seg) (dy_of seg)) as HS. fold L in HS.
  split; [unfold dx_of; ring|]. split; [unfold dy_of; ring|].
  split; [ring|]. split; [ring|]. split; [field; exact HL|].
  match goal with
  | |- hypot ?u ?v = _ =>
      replace u with (offset * (- dy_of seg / L)) by ring;
      replace v with (offset * (dx_of seg / L)) by ring
  end.
  unfold hypot.
  replace (offset * (- dy_of seg / L) * (offset * (- dy_of seg / L))
           + offset * (dx_of seg / L) * (offset * (dx_of seg / L)))
    with (offset * offset * ((dx_of seg * dx_of seg + dy_of seg * dy_of seg)
                             / (L * L))) by (field; exact HL).
  rewrite <- HS. replace (L * L / (L * L)) with 1 by (field; exact HL).
  rewrite Rmult_1_r. fold (Rsqr offset). apply sqrt_Rsqr_abs.
Qed.

Lemma offset_line_parallel_witness :
  exists a b : Point,
    offset_line (0, 0) (0, 10) (0 - 0) (10 - 0) (hypot (0 - 0) (10 - 0))
      (- (15 / 10)) = ([], Some (a, b)) /\
    fst b - fst a = 0 - 0 /\ snd b - snd a = 10 - 0 /\
    fst a - 0 = fst b - 0 /\
    snd a - 0 = snd b - 10 /\
    (fst a - 0) * (0 - 0) + (snd a - 0) * (10 - 0) = 0 /\
    hypot (fst a - 0) (snd a - 0) = Rabs (- (15 / 10)).
Proof.
  apply (offset_line_parallel (mkSegment "side" (0, 0) (0, 10) 0 10 0)
           (- (15 / 10))).
  cbn [seg_start seg_end]. intros H. injection H as H. lra.
Defined.

(** ** Setbacks of zero *)

Lemma shifted_zero (seg : Segment) :
  shifted seg 0 = (seg_start seg, seg_end seg).
Proof.
  unfold shifted. destruct (seg_start seg) as [sx sy], (seg_end seg) as [ex ey].
  cbn [fst snd]. rewrite !Rmult_0_l, !Rplus_0_r. reflexivity.
Qed.

(** X20.  For a side, rear or unknown-type segment whose setback is missing from
    the fields or is zero, the setback line is drawn on the boundary segment
    itself. *)
Theorem zero_setback_on_boundary :
  forall (sv : SetbackVars) (seg : Segment),
    seg_start seg <> seg_end seg ->
    is_frontage seg = false -> is_secondary seg = false ->
    lookup (seg_type seg) sv = None \/ lookup (seg_type seg) sv = Some 0 ->
    offset_segment sv seg
    = ([LogSendingSetback None (seg_start seg) (seg_end seg);
        CreatePolylines (seg_start seg) (seg_end seg);
        LogSetbackCreated (title (seg_type seg));
        LogTextLabelNotCreated],
       Some tt).
Proof.
  intros sv seg Hne Hf Hs Hl.
  rewrite (offset_segment_plain sv seg Hf Hs).
  apply degenerate_false in Hne. rewrite Hne.
  assert (Z : setback_or_zero sv (seg_type seg) = 0).
  { unfold setback_or_zero. destruct Hl as [-> | ->]; [reflexivity|].
    rewrite Rabs_R0. ring. }
  rewrite Z, shifted_zero. reflexivity.
Qed.

Lemma zero_setback_on_boundary_witness :
  offset_segment (setback_vars_of 6 (15 / 10) 3 2 3 (345 / 100) 3)
    (mkSegment "fence" (0, 0) (0, 10) 0 10 0)
  = ([LogSendingSetback None (0, 0) (0, 10);
      CreatePolylines (0, 0) (0, 10);
      LogSetbackCreated "Fence";
      LogTextLabelNotCreated],
     Some tt).
Proof.
  apply (zero_setback_on_boundary
           (setback_vars_of 6 (15 / 10) 3 2 3 (345 / 100) 3)
           (mkSegment "fence" (0, 0) (0, 10) 0 10 0)).
  - cbn [seg_start seg_end]. intros H. injection H as H. lra.
  - reflexivity.
  - reflexivity.
  - left. reflexivity.
Defined.

(** ** Planning scheme presets *)

Lemma on_preset_selected_keys (preset : string) (sv : SetbackVars) :
  map fst (on_preset_selected preset sv) = map fst sv.
Proof.
  unfold on_preset_selected.
  destruct (lookup_preset preset PLANNING_SCHEME_PRESETS) as [values|];
    rewrite map_map; apply map_ext; intros [k v]; cbn [fst];
    [destruct (lookup k values)|]; reflexivity.
Qed.

Lemma lookup_preset_cases (preset : string) :
  (preset = "QDC MP1.1"%string
   /\ lookup_preset preset PLANNING_SCHEME_PRESETS
      = lookup_preset "QDC MP1.1" PLANNING_SCHEME_PRESETS)
  \/ (preset = "QDC MP1.2"%string
      /\ lookup_preset preset PLANNING_SCHEME_PRESETS
         = lookup_preset "QDC MP1.2" PLANNING_SCHEME_PRESETS)
  \/ (preset <> "QDC MP1.1"%string /\ preset <> "QDC MP1.2"%string
      /\ lookup_preset preset PLANNING_SCHEME_PRESETS = None).
Proof.
  unfold PLANNING_SCHEME_PRESETS. cbn [lookup_preset].
  destruct (String.eqb preset "QDC MP1.1") eqn:E1.
  - apply String.eqb_eq in E1. left. subst. split; reflexivity.
  - destruct (String.eqb preset "QDC MP1.2") eqn:E2.
    + apply String.eqb_eq in E2. right. left. subst. split; reflexivity.
    + apply String.eqb_neq in E1, E2. right. right. repeat split; assumption.
Qed.

(** X21.  Selecting a planning scheme never changes which setback fields exist;
    a QDC scheme overwrites all seven fields with its values whatever they
    held, and any other scheme name sets all seven to zero. *)
Theorem preset_selection_sets_all_fields :
  forall (preset : string)
         (front side rear secondary front_min front_hab garage : R),
    let sv :=
      setback_vars_of front side rear secondary front_min front_hab garage in
    map fst (on_preset_selected preset sv) = map fst sv /\
    (preset = "QDC MP1.1"%string ->
     on_preset_selected preset sv
     = setback_vars_of 6 (15 / 10) 3 2 3 (345 / 100) 3) /\
    (preset = "QDC MP1.2"%string ->
     on_preset_selected preset sv
     = setback_vars_of 6 (15 / 10) 3 2 3 (345 / 100) 6) /\
    (preset <> "QDC MP1.1"%string -> preset <> "QDC MP1.2"%string ->
     on_preset_selected preset sv = setback_vars_of 0 0 0 0 0 0 0).
Proof.
  intros preset front side rear secondary front_min front_hab garage sv.
  split; [apply on_preset_selected_keys|].
  split; [intros ->; reflexivity|].
  split; [intros ->; reflexivity|].
  intros N1 N2. unfold on_preset_selected.
  destruct (lookup_preset_cases preset) as [[E _]|[[E _]|(_ & _ & E)]];
    [contradiction|contradiction|].
  rewrite E. reflexivity.
Qed.

Lemma preset_selection_sets_all_fields_witness :
  on_preset_selected "Brisbane City Council (BCC)"
    (setback_vars_of 6 (15 / 10) 3 2 3 (345 / 100) 3)
  = setback_vars_of 0 0 0 0 0 0 0.
Proof.
  apply (preset_selection_sets_all_fields "Brisbane City Council (BCC)"
           6 (15 / 10) 3 2 3 (345 / 100) 3); discriminate.
Defined.

(** ** Drawing a preset rectangle *)

Lemma cad_calls_app (l1 l2 : list Event) :
  cad_calls (l1 ++ l2) = cad_calls l1 ++ cad_calls l2.
Proof.
  induction l1 as [|e l1 IH]; [reflexivity|].
  destruct e; cbn [app cad_calls]; rewrite IH; reflexivity.
Qed.

Lemma hypot_along_x (a : R) : hypot a 0 = Rabs a.
Proof.
  unfold hypot. replace (a * a + 0 * 0) with (Rsqr a) by (unfold Rsqr; ring).
  apply sqrt_Rsqr_abs.
Qed.

Lemma hypot_along_y (b : R) : hypot 0 b = Rabs b.
Proof.
  unfold hypot. replace (0 * 0 + b * b) with (Rsqr b) by (unfold Rsqr; ring).
  apply sqrt_Rsqr_abs.
Qed.

(** A segment along the x axis direction, shifted. *)
Lemma shifted_along_x (type : string) (sx sy ex : R) (idx : nat)
    (dist az offset : R) :
  sx <> ex ->
  shifted (mkSegment type (sx, sy) (ex, sy) idx dist az) offset
  = ((sx, sy + offset * ((ex - sx) / Rabs (ex - sx))),
     (ex, sy + offset * ((ex - sx) / Rabs (ex - sx)))).
Proof.
  intros Hne. unfold shifted. cbn [seg_start seg_end fst snd].
  replace (sy - sy) with 0 by ring. rewrite hypot_along_x.
  assert (Rabs (ex - sx) <> 0) by (apply Rabs_no_R0; lra).
  f_equal; f_equal; field; assumption.
Qed.

Lemma shifted_along_y (type : string) (sx sy ey : R) (idx : nat)
    (dist az offset : R) :
  sy <> ey ->
  shifted (mkSegment type (sx, sy) (sx, ey) idx dist az) offset
  = ((sx - offset * ((ey - sy) / Rabs (ey - sy)), sy),
     (sx - offset * ((ey - sy) / Rabs (ey - sy)), ey)).
Proof.
  intros Hne. unfold shifted. cbn [seg_start seg_end fst snd].
  replace (sx - sx) with 0 by ring. rewrite hypot_along_y.
  assert (Rabs (ey - sy) <> 0) by (apply Rabs_no_R0; lra).
  f_equal; f_equal; field; assumption.
Qed.

Section PresetRectangle.

Variable py_float : string -> option R.
Hypothesis read_0 : py_float "0" = Some 0.
Hypothesis read_90 : py_float "90" = Some 90.
Hypothesis read_180 : py_float "180" = Some 180.
Hypothesis read_270 : py_float "270" = Some 270.

Variables width depth : R.
Hypothesis width_pos : 0 < width.
Hypothesis depth_pos : 0 < depth.

Let s1 := mkSegment "side" (0, 0) (- depth, 0) 0 depth 270.
Let s2 := mkSegment "rear" (- depth, 0) (- depth, width) 1 width 0.
Let s3 := mkSegment "side" (- depth, width) (0, width) 2 depth 90.
Let s4 := mkSegment "frontage" (0, width) (0, 0) 3 width 180.

Lemma preset_segments_clean :
  collect_segments py_float false 0 (apply_site_preset width depth) (0, 0)
  = ([s1; s2; s3; s4], []).
Proof.
  rewrite (preset_segments py_float read_0 read_90 read_180 read_270
             width depth width_pos depth_pos).
  unfold s1, s2, s3, s4.
  replace (0 - depth) with (- depth) by ring.
  replace (0 + width) with width by ring.
  replace (- depth + depth) with 0 by ring.
  replace (width - width) with 0 by ring.
  reflexivity.
Qed.

Lemma preset_nondegenerate :
  degenerate s1 = false /\ degenerate s2 = false
  /\ degenerate s3 = false /\ degenerate s4 = false.
Proof.
  repeat split; apply degenerate_false; unfold s1, s2, s3, s4;
    cbn [seg_start seg_end]; intros H; injection H; intros; lra.
Qed.

Lemma preset_closed : draw_closing [s1; s2; s3; s4] = [].
Proof.
  apply draw_closing_cases. unfold closed_within_tol, s1, s4.
  cbn [last seg_start seg_end fst snd]. pose proof tol_pos.
  replace (0 - 0) with 0 by ring. rewrite Rabs_R0. lra.
Qed.

Variables front side rear secondary front_min front_hab garage : R.

Let sv : SetbackVars :=
  setback_vars_of front side rear secondary front_min front_hab garage.

Lemma preset_offsets :
  cad_calls (draw_offsets sv [s1; s2; s3; s4])
  = [ ((0, Rabs side), (- depth, Rabs side));
      ((- depth + Rabs rear, 0), (- depth + Rabs rear, width));
      ((- depth, width - Rabs side), (0, width - Rabs side));
      ((- Rabs front_min, width), (- Rabs front_min, 0));
      ((- Rabs front_hab, width), (- Rabs front_hab, 0));
      ((- Rabs garage, width), (- Rabs garage, 0));
      ((425 / 100, width), (425 / 100, 0)) ].
Proof.
  destruct preset_nondegenerate as (D1 & D2 & D3 & D4).
  rewrite (draw_offsets_continue sv s1 _ _
             (eq_trans (offset_segment_plain sv s1 eq_refl eq_refl)
                       (f_equal (fun b : bool => if b then _ else _) D1))).
  rewrite (draw_offsets_continue sv s2 _ _
             (eq_trans (offset_segment_plain sv s2 eq_refl eq_refl)
                       (f_equal (fun b : bool => if b then _ else _) D2))).
  rewrite (draw_offsets_continue sv s3 _ _
             (eq_trans (offset_segment_plain sv s3 eq_refl eq_refl)
                       (f_equal (fun b : bool => if b then _ else _) D3))).
  rewrite (draw_offsets_continue sv s4 _ _
             (offset_segment_frontage front side rear secondary front_min
                front_hab garage s4 eq_refl D4)).
  change (setback_or_zero sv (seg_type s1)) with (- Rabs side).
  change (setback_or_zero sv (seg_type s2)) with (- Rabs rear).
  change (setback_or_zero sv (seg_type s3)) with (- Rabs side).
  unfold s1, s2, s3, s4.
  rewrite !shifted_along_x, !shifted_along_y by lra.
  replace ((- depth - 0) / Rabs (- depth - 0)) with (-1)
    by (rewrite Rabs_left by lra; field; lra).
  replace ((width - 0) / Rabs (width - 0)) with 1
    by (rewrite Rabs_right by lra; field; lra).
  replace ((0 - - depth) / Rabs (0 - - depth)) with 1
    by (rewrite Rabs_right by lra; field; lra).
  replace ((0 - width) / Rabs (0 - width)) with (-1)
    by (rewrite Rabs_left by lra; field; lra).
  unfold setback_line, road_line, draw_offsets.
  cbn [app cad_calls offset_loop ret fst snd].
  repeat (f_equal; try (f_equal; f_equal; ring)).
Qed.

Lemma preset_drawing :
  cad_calls
    (draw_boundaries_and_setbacks py_float false sv
       (apply_site_preset width depth))
  = [ ((0, 0), (- depth, 0));
      ((- depth, 0), (- depth, width));
      ((- depth, width), (0, width));
      ((0, width), (0, 0));
      ((0, Rabs side), (- depth, Rabs side));
      ((- depth + Rabs rear, 0), (- depth + Rabs rear, width));
      ((- depth, width - Rabs side), (0, width - Rabs side));
      ((- Rabs front_min, width), (- Rabs front_min, 0));
      ((- Rabs front_hab, width), (- Rabs front_hab, 0));
      ((- Rabs garage, width), (- Rabs garage, 0));
      ((425 / 100, width), (425 / 100, 0)) ].
Proof.
  unfold draw_boundaries_and_setbacks. rewrite preset_segments_clean.
  cbn [List.length Nat.ltb Nat.leb app].
  rewrite preset_closed. cbn [app].
  rewrite cad_calls_app, preset_offsets.
  destruct (draw_segments_calls [s1; s2; s3; s4]) as [C _]. rewrite C.
  destruct preset_nondegenerate as (D1 & D2 & D3 & D4).
  cbn [filter]. rewrite D1, D2, D3, D4. reflexivity.
Qed.

End PresetRectangle.

(** X22.  Drawing the rectangle of a site preset sends eleven polylines: the four
    boundary edges, no closing edge, the side, rear and side setbacks inside
    the lot at their distances, the three front setbacks inside the lot
    behind the frontage, and the road line 4.25 outside it. *)
Theorem preset_rectangle_drawing :
  forall (py_float : string -> option R) (width depth : R)
         (front side rear secondary front_min front_hab garage : R),
    py_float "0"%string = Some 0 -> py_float "90"%string = Some 90 ->
    py_float "180"%string = Some 180 -> py_float "270"%string = Some 270 ->
    0 < width -> 0 < depth ->
    cad_calls
      (draw_boundaries_and_setbacks py_float false
         (setback_vars_of front side rear secondary front_min front_hab garage)
         (apply_site_preset width depth))
    = [ ((0, 0), (- depth, 0));
        ((- depth, 0), (- depth, width));
        ((- depth, width), (0, width));
        ((0, width), (0, 0));
        ((0, Rabs side), (- depth, Rabs side));
        ((- depth + Rabs rear, 0), (- depth + Rabs rear, width));
        ((- depth, width - Rabs side), (0, width - Rabs side));
        ((- Rabs front_min, width), (- Rabs front_min, 0));
        ((- Rabs front_hab, width), (- Rabs front_hab, 0));
        ((- Rabs garage, width), (- Rabs garage, 0));
        ((425 / 100, width), (425 / 100, 0)) ].
Proof.
  intros py_float width depth front side rear secondary front_min front_hab
    garage H0 H90 H180 H270 Hw Hd.
  exact (preset_drawing py_float H0 H90 H180 H270 width depth Hw Hd
           front side rear secondary front_min front_hab garage).
Qed.

Lemma preset_rectangle_drawing_witness :
  List.length
    (cad_calls
       (draw_boundaries_and_setbacks read_decimal false
          (setback_vars_of 6 (15 / 10) 3 2 3 (345 / 100) 3)
          (apply_site_preset 10 32))) = 11%nat.
Proof.
  rewrite (preset_rectangle_drawing read_decimal 10 32
             6 (15 / 10) 3 2 3 (345 / 100) 3
             read_decimal_0 read_decimal_90 read_decimal_180 read_decimal_270);
    [reflexivity|lra|lra].
Defined.

(** ** Choosing a site preset *)

Lemma site_presets_positive :
  Forall (fun p => 0 < fst (snd p) /\ 0 < snd (snd p)) SITE_RECTANGLE_PRESETS.
Proof.
  unfold SITE_RECTANGLE_PRESETS.
  repeat constructor; cbn [fst snd]; lra.
Qed.

Lemma lookup_site_preset_in (preset : string)
    (presets : list (string * (R * R))) (dims : R * R) :
  lookup_site_preset preset presets = Some dims -> In (preset, dims) presets.
Proof.
  induction presets as [|[name d] rest IH]; cbn [lookup_site_preset];
    [discriminate|].
  destruct (String.eqb preset name) eqn:E.
  - apply String.eqb_eq in E. intros H. injection H as <-. subst. left. reflexivity.
  - intros H. right. apply IH. exact H.
Qed.

(** X23.  Applying the selected site preset either finds no such name and leaves
    the table of rows as it was, or replaces the table by the rectangle of
    the listed width and depth, both positive; drawing that table then
    sends the eleven polylines of the rectangle. *)
Theorem site_preset_selection :
  forall (py_float : string -> option R) (preset : string)
         (boundary_rows : list BoundaryRow)
         (front side rear secondary front_min front_hab garage : R),
    py_float "0"%string = Some 0 -> py_float "90"%string = Some 90 ->
    py_float "180"%string = Some 180 -> py_float "270"%string = Some 270 ->
    (lookup_site_preset preset SITE_RECTANGLE_PRESETS = None /\
     apply_selected_site_preset preset boundary_rows
     = (boundary_rows, LogPresetNotFound preset))
    \/ (exists width depth,
          In (preset, (width, depth)) SITE_RECTANGLE_PRESETS /\
          0 < width /\ 0 < depth /\
          apply_selected_site_preset preset boundary_rows
          = (apply_site_preset width depth,
             LogPresetApplied preset width depth) /\
          List.length
            (cad_calls
               (draw_boundaries_and_setbacks py_float false
                  (setback_vars_of front side rear secondary
                     front_min front_hab garage)
                  (fst (apply_selected_site_preset preset boundary_rows))))
          = 11%nat).
Proof.
  intros py_float preset boundary_rows front side rear secondary front_min
    front_hab garage H0 H90 H180 H270.
  unfold apply_selected_site_preset.
  destruct (lookup_site_preset preset SITE_RECTANGLE_PRESETS)
    as [[width depth]|] eqn:E.
  - right. exists width, depth.
    pose proof (lookup_site_preset_in _ _ _ E) as Hin.
    pose proof site_presets_positive as P. rewrite Forall_forall in P.
    destruct (P _ Hin) as [Hw Hd]. cbn [fst snd] in Hw, Hd.
    split; [exact Hin|]. split; [exact Hw|]. split; [exact Hd|].
    split; [reflexivity|]. cbn [fst].
    rewrite (preset_drawing py_float H0 H90 H180 H270 width depth Hw Hd).
    reflexivity.
  - left. split; reflexivity.
Qed.

Lemma site_preset_selection_witness :
  (lookup_site_preset "28m x 7.5m" SITE_RECTANGLE_PRESETS = None /\
   apply_selected_site_preset "28m x 7.5m" clear_all
   = (clear_all, LogPresetNotFound "28m x 7.5m"))
  \/ (exists width depth,
        In ("28m x 7.5m"%string, (width, depth)) SITE_RECTANGLE_PRESETS /\
        0 < width /\ 0 < depth /\
        apply_selected_site_preset "28m x 7.5m" clear_all
        = (apply_site_preset width depth,
           LogPresetApplied "28m x 7.5m" width depth) /\
        List.length
          (cad_calls
             (draw_boundaries_and_setbacks read_decimal false
                (setback_vars_of 6 (15 / 10) 3 2 3 (345 / 100) 3)
                (fst (apply_selected_site_preset "28m x 7.5m" clear_all))))
        = 11%nat).
Proof.
  exact (site_preset_selection read_decimal "28m x 7.5m" clear_all
           6 (15 / 10) 3 2 3 (345 / 100) 3
           read_decimal_0 read_decimal_90 read_decimal_180 read_decimal_270).
Defined.

End SiteMoreProofs.

(* ================================================================== *)
(** * Properties of the project info importer                          *)
(* ================================================================== *)

Module XmlImporterProofs.

Import PyStr XmlImporter.
Local Open Scope string_scope.

(** ** Dictionaries *)

Lemma dict_get_set_same (key value : string) (d : Dict) :
  dict_get key (dict_set key value d) = Some value.
Proof.
  induction d as [|[k v] rest IH]; cbn [dict_set dict_get].
  - rewrite String.eqb_refl. reflexivity.
  - destruct (String.eqb key k) eqn:E; cbn [dict_get]; rewrite E;
      [reflexivity|exact IH].
Qed.

Lemma dict_get_set_other (key key' value : string) (d : Dict) :
  key <> key' ->
  dict_get key (dict_set key' value d) = dict_get key d.
Proof.
  intros Hne. induction d as [|[k v] rest IH]; cbn [dict_set dict_get].
  - apply String.eqb_neq in Hne. rewrite Hne. reflexivity.
  - destruct (String.eqb key' k) eqn:E; cbn [dict_get].
    + apply String.eqb_eq in E. subst k.
      apply String.eqb_neq in Hne. rewrite Hne. reflexivity.
    + rewrite IH. reflexivity.
Qed.

Lemma dict_set_entries (key value : string) (d : Dict) (k v : string) :
  In (k, v) (dict_set key value d) ->
  (k = key /\ v = value) \/ In (k, v) d.
Proof.
  induction d as [|[k0 v0] rest IH]; cbn [dict_set].
  - intros [H|[]]. injection H as <- <-. left. split; reflexivity.
  - destruct (String.eqb key k0) eqn:E.
    + apply String.eqb_eq in E. subst k0.
      intros [H|H]; [injection H as <- <-; left; split; reflexivity|].
      right. right. exact H.
    + intros [H|H]; [right; left; exact H|].
      destruct (IH H) as [L|R]; [left; exact L|right; right; exact R].
Qed.

(** ** What [extract_project_info] collects *)

Lemma stripped_text_nonempty (e : Element) (v : string) :
  stripped_text e = Some v -> nonempty v = true.
Proof.
  unfold stripped_text. destruct (text_of e) as [t|]; [|discriminate].
  destruct (nonempty t); cbn [andb]; [|discriminate].
  destruct (nonempty (strip t)) eqn:E; [|discriminate].
  intros H. injection H as <-. exact E.
Qed.

Lemma record_field_entries (d : Dict) (e : Element) (k v : string) :
  In (k, v) (record_field d e) -> read_from e k v \/ In (k, v) d.
Proof.
  unfold record_field, read_from.
  destruct (stripped_text e) as [value|]; [|right; assumption].
  destruct (map_xml_to_project_info (tag_of e)) as [fid|]; [|right; assumption].
  destruct (nonempty fid); [|right; assumption].
  intros H. destruct (dict_set_entries _ _ _ _ _ H) as [[-> ->]|R];
    [left; split; reflexivity|right; exact R].
Qed.

Lemma fold_record_entries (es : list Element) (d : Dict) (k v : string) :
  In (k, v) (fold_left record_field es d) ->
  (exists e, In e es /\ read_from e k v) \/ In (k, v) d.
Proof.
  revert d. induction es as [|e es IH]; intros d; cbn [fold_left].
  - right. assumption.
  - intros H. destruct (IH _ H) as [(e' & Hin & Hr)|R].
    + left. exists e'. split; [right; exact Hin|exact Hr].
    + destruct (record_field_entries _ _ _ _ R) as [L|R'].
      * left. exists e. split; [left; reflexivity|exact L].
      * right. exact R'.
Qed.

Lemma iter_self (e : Element) : In e (iter e).
Proof. destruct e. left. reflexivity. Qed.

Lemma iter_child (e c x : Element) :
  In c (children_of e) -> In x (iter c) -> In x (iter e).
Proof.
  destruct e as [t tx cs]. cbn [children_of iter]. intros Hc Hx.
  right. apply in_flat_map. exists c. split; assumption.
Qed.

Lemma find_child_in (tag : string) (e c : Element) :
  find_child tag e = Some c -> In c (children_of e) /\ tag_of c = tag.
Proof.
  unfold find_child. intros H. apply find_some in H.
  destruct H as [Hin Ht]. apply String.eqb_eq in Ht. split; assumption.
Qed.

Lemma mapping_values_nonempty (tag k : string) :
  map_xml_to_project_info tag = Some k -> nonempty k = true.
Proof.
  unfold map_xml_to_project_info, mapping. cbn [dict_get].
  repeat match goal with
         | |- (if ?b then _ else _) = _ -> _ =>
             destruct b; [intros H; injection H as <-; reflexivity|]
         end.
  discriminate.
Qed.

Lemma extract_entries (root : Element) (k v : string) :
  In (k, v) (extract_project_info root) ->
  exists e, In e (iter root) /\ read_from e k v.
Proof.
  unfold extract_project_info.
  destruct (find_child "ProjectInfo" root) as [pi|] eqn:F.
  - intros H. destruct (fold_record_entries _ _ _ _ H) as [(e & Hin & Hr)|R].
    + exists e. split; [|exact Hr].
      destruct (find_child_in _ _ _ F) as [Hpi _].
      apply (iter_child root pi); [exact Hpi|].
      apply (iter_child pi e); [exact Hin|apply iter_self].
    + destruct (fold_record_entries _ _ _ _ R) as [L|[]]. exact L.
  - intros H. destruct (fold_record_entries _ _ _ _ H) as [L|[]]. exact L.
Qed.

(** X24.  Every entry of the extracted project data comes from an element of the
    document: its key is the field id the element's tag maps to and its
    value is that element's text, stripped and not empty. *)
Theorem extracted_fields_come_from_elements :
  forall (root : Element) (k v : string),
    In (k, v) (extract_project_info root) ->
    (exists e,
        In e (iter root) /\
        map_xml_to_project_info (tag_of e) = Some k /\
        stripped_text e = Some v) /\
    In k (map snd mapping) /\ nonempty k = true /\ nonempty v = true.
Proof.
  intros root k v H.
  destruct (extract_entries root k v H) as (e & Hin & Hm & Hs).
  split; [exists e; repeat split; assumption|].
  split; [|split].
  - clear -Hm. unfold map_xml_to_project_info in Hm.
    induction mapping as [|[t f] rest IH]; [discriminate|].
    cbn [dict_get] in Hm. destruct (String.eqb (tag_of e) t).
    + injection Hm as <-. left. reflexivity.
    + right. apply IH. exact Hm.
  - apply (mapping_values_nonempty _ _ Hm).
  - apply (stripped_text_nonempty _ _ Hs).
Qed.

Lemma extracted_fields_come_from_elements_witness :
  let root :=
    Elem "Project" None
      [Elem "name" (Some "  Lot 12  ") []; Elem "Other" (Some "x") []] in
  (exists e,
      In e (iter root) /\
      map_xml_to_project_info (tag_of e) = Some "PROJECTNAME" /\
      stripped_text e = Some "Lot 12") /\
  In "PROJECTNAME" (map snd mapping) /\
  nonempty "PROJECTNAME" = true /\ nonempty "Lot 12" = true.
Proof.
  cbv zeta.
  apply (extracted_fields_come_from_elements
           (Elem "Project" None
              [Elem "name" (Some "  Lot 12  ") []; Elem "Other" (Some "x") []])
           "PROJECTNAME" "Lot 12").
  vm_compute. left. reflexivity.
Defined.

(** ** The ProjectInfo section wins *)

Lemma record_field_sets (d : Dict) (e : Element) (k v : string) :
  read_from e k v -> record_field d e = dict_set k v d.
Proof.
  intros [Hm Hs]. unfold record_field. rewrite Hs, Hm.
  rewrite (mapping_values_nonempty _ _ Hm). reflexivity.
Qed.

Lemma record_field_silent (d : Dict) (e : Element) (k : string) :
  silent_on k e -> dict_get k (record_field d e) = dict_get k d.
Proof.
  intros H. unfold record_field.
  destruct (stripped_text e) as [value|] eqn:Hs; [|reflexivity].
  destruct (map_xml_to_project_info (tag_of e)) as [fid|] eqn:Hm;
    [|reflexivity].
  destruct (nonempty fid); [|reflexivity].
  apply dict_get_set_other. intros ->.
  destruct H as [H|H]; [congruence|]. apply H. exact Hm.
Qed.

Lemma fold_record_silent (es : list Element) (d : Dict) (k : string) :
  Forall (silent_on k) es ->
  dict_get k (fold_left record_field es d) = dict_get k d.
Proof.
  intros H. revert d. induction H as [|e es He Hes IH]; intros d;
    cbn [fold_left]; [reflexivity|].
  rewrite IH. apply record_field_silent. exact He.
Qed.

(** X25.  A field given in the first ProjectInfo child of the root takes its value
    from there, whatever other elements of the document map to the same
    field: the last such child of ProjectInfo decides. *)
Theorem project_info_section_wins :
  forall (root project_info f : Element) (before after : list Element)
         (k v : string),
    find_child "ProjectInfo" root = Some project_info ->
    children_of project_info = (before ++ f :: after)%list ->
    map_xml_to_project_info (tag_of f) = Some k ->
    stripped_text f = Some v ->
    Forall (silent_on k) after ->
    dict_get k (extract_project_info root) = Some v.
Proof.
  intros root project_info f before after k v Hfind Hch Hm Hs Hafter.
  unfold extract_project_info. rewrite Hfind, Hch.
  rewrite fold_left_app. cbn [fold_left].
  rewrite (fold_record_silent after _ k Hafter).
  rewrite (record_field_sets _ f k v (conj Hm Hs)).
  apply dict_get_set_same.
Qed.

Lemma project_info_section_wins_witness :
  dict_get "PROJECTNAME"
    (extract_project_info
       (Elem "Root" None
          [Elem "ProjectInfo" None
             [Elem "ProjectName" (Some "Lot 12") [];
              Elem "Notes" (Some "n") []];
           Elem "name" (Some "elsewhere") []]))
  = Some "Lot 12".
Proof.
  apply (project_info_section_wins
           (Elem "Root" None
              [Elem "ProjectInfo" None
                 [Elem "ProjectName" (Some "Lot 12") [];
                  Elem "Notes" (Some "n") []];
               Elem "name" (Some "elsewhere") []])
           (Elem "ProjectInfo" None
              [Elem "ProjectName" (Some "Lot 12") [];
               Elem "Notes" (Some "n") []])
           (Elem "ProjectName" (Some "Lot 12") [])
           [] [Elem "Notes" (Some "n") []] "PROJECTNAME" "Lot 12").
  - reflexivity.
  - reflexivity.
  - reflexivity.
  - reflexivity.
  - constructor; [right; vm_compute; discriminate|constructor].
Defined.

(** ** The preview *)

Lemma changes_none_iff (current project_data : Dict) :
  Forall (fun kv => nonempty (snd kv) = true) project_data ->
  changes_of current project_data = [] <->
  Forall (fun kv => dict_get (fst kv) current = Some (snd kv)) project_data.
Proof.
  induction 1 as [|[k v] rest Hv Hrest IH]; cbn [changes_of].
  - split; [constructor|reflexivity].
  - cbn [snd] in Hv.
    destruct (dict_get k current) as [c|] eqn:G.
    + destruct (String.eqb c v) eqn:E.
      * apply String.eqb_eq in E. subst c. rewrite IH. split.
        -- intros F. constructor; [exact G|exact F].
        -- intros F. inversion F. assumption.
      * apply String.eqb_neq in E. split; [discriminate|].
        intros F. inversion F as [|? ? Hk _]; subst. cbn [fst snd] in Hk.
        congruence.
    + destruct v as [|a v]; [discriminate|]. cbn [String.eqb].
      split; [discriminate|].
      intros F. inversion F as [|? ? Hk _]; subst. cbn [fst snd] in Hk.
      congruence.
Qed.

(** X26.  After an XML file is loaded, the preview lists no change exactly when
    Archicad already holds, for every loaded field, the loaded value; a
    loaded field that Archicad does not report is always listed. *)
Theorem preview_empty_iff_up_to_date :
  forall (root : Element) (fields : list InfoField),
    changes_of (current_fields fields) (extract_project_info root) = [] <->
    Forall (fun kv => dict_get (fst kv) (current_fields fields) = Some (snd kv))
      (extract_project_info root).
Proof.
  intros root fields. apply changes_none_iff.
  apply Forall_forall. intros [k v] Hin. cbn [snd].
  destruct (extract_entries root k v Hin) as (e & _ & _ & Hs).
  apply (stripped_text_nonempty _ _ Hs).
Qed.

(** ** The import *)

Lemma import_loop_counts (raises : string -> string -> bool)
    (project_data : Dict) :
  forall s e : nat,
    let '(commands, s', e') := import_loop raises project_data s e in
    commands = project_data /\
    (s' + e' = s + e + List.length project_data)%nat /\
    (e' = e + List.length
                (filter (fun kv => raises (fst kv) (snd kv)) project_data))%nat.
Proof.
  induction project_data as [|[k v] rest IH]; intros s e; cbn [import_loop].
  - repeat split; cbn [List.length filter]; lia.
  - cbn [filter fst snd]. destruct (raises k v).
    + specialize (IH s (S e)).
      destruct (import_loop raises rest s (S e)) as [[commands s'] e'].
      destruct IH as (-> & H1 & H2). cbn [List.length].
      repeat split; lia.
    + specialize (IH (S s) e).
      destruct (import_loop raises rest (S s) e) as [[commands s'] e'].
      destruct IH as (-> & H1 & H2). cbn [List.length].
      repeat split; lia.
Qed.

(** X27.  A confirmed import attempts one command for every loaded field, in
    order, and goes on after a command that raises; the two counters add up
    to the number of fields and the error counter is the number of commands
    that raised.  An import that is not confirmed sends nothing. *)
Theorem import_attempts_every_field :
  forall (raises : string -> string -> bool) (project_data : Dict),
    (let '(commands, successes, errors) := import_all true raises project_data in
     commands = project_data /\
     (successes + errors = List.length project_data)%nat /\
     errors = List.length
                (filter (fun kv => raises (fst kv) (snd kv)) project_data)) /\
    import_all false raises project_data = ([], 0%nat, 0%nat).
Proof.
  intros raises project_data. split; [|reflexivity].
  unfold import_all.
  pose proof (import_loop_counts raises project_data 0 0) as H.
  destruct (import_loop raises project_data 0 0) as [[commands s] e].
  destruct H as (H1 & H2 & H3). repeat split; [exact H1|lia|lia].
Qed.

End XmlImporterProofs.
